(** * Port allocation and container orchestration of the test harness

    A shallow embedding of

    - [test-harness/utils/ports.py]            (module [ports]),
    - [test-harness/config/port_manager.py]    (module [port_manager]),
    - [test-harness/container_orchestrator.py] (module [container_orchestrator]),

    followed by the properties proved about them.

    Conventions of the embedding.

    - Python [int] is [Z]; [str] is [string], read as ASCII text; a [dict]
      with string keys is a [gmap string _]; [Optional[T]] is [option T].
    - Code that talks to the operating system runs in a state-and-error
      monad [M]: the state holds the object the method mutates ([self])
      and the chronological trace of the system calls made so far; a
      computation ends in a value or in a raised exception.
    - The operating system is an environment [Env]: whether a host name
      resolves, what [bind] answers for a host and port, what
      [subprocess.run] answers for a command line (which may depend on
      everything done before), the platform name, the working directory
      and the process environment.
    - The registry of [port_manager.py] is modelled with its file: the file
      is a reliable store whose JSON objects have fields of the types the
      code writes (a key may be missing); the lock is not modelled, calls
      do not overlap.
    - [print] calls write to the terminal only and are left out.
      Asynchronous interrupts ([KeyboardInterrupt], [SystemExit]) are not
      part of the model: every exception the environment raises is a
      subclass of [Exception]. *)

From Stdlib Require Import ZArith Lia Bool Ascii DecimalString.
From stdpp Require Import gmap strings list fin_maps sorting.

Local Open Scope Z_scope.

(** ** Python strings *)

Module pystr.

Definition dq : string := String (Ascii.ascii_of_nat 34) EmptyString.
Definition nl : string := String (Ascii.ascii_of_nat 10) EmptyString.

(** [str(n)] for an integer *)
Definition str (n : Z) : string := NilZero.string_of_int (Z.to_int n).

Definition len (s : string) : Z := Z.of_nat (String.length s).

(** [str.isspace] on one ASCII character *)
Definition is_space (c : ascii) : bool :=
  let n := Ascii.N_of_ascii c in
  ((9 <=? n) && (n <=? 13) || (28 <=? n) && (n <=? 32))%N.

(** [s.startswith(p)] *)
Fixpoint startswith (p s : string) : bool :=
  match p, s with
  | EmptyString, _ => true
  | String a p', String b s' => if Ascii.eqb a b then startswith p' s' else false
  | String _ _, EmptyString => false
  end.

(** [sub in s] *)
Fixpoint contains (sub s : string) : bool :=
  match s with
  | EmptyString => startswith sub EmptyString
  | String _ s' => startswith sub s || contains sub s'
  end.

Fixpoint lstrip (s : string) : string :=
  match s with
  | EmptyString => EmptyString
  | String c s' => if is_space c then lstrip s' else s
  end.

Fixpoint rstrip (s : string) : string :=
  match s with
  | EmptyString => EmptyString
  | String c s' =>
      match rstrip s' with
      | EmptyString => if is_space c then EmptyString else String c EmptyString
      | r => String c r
      end
  end.

(** [s.strip()] *)
Definition strip (s : string) : string := rstrip (lstrip s).

(** [s.split(sep)] for a non-empty separator: [skip] counts the
    characters of a separator occurrence still to be passed over, [cur]
    is the piece being collected. *)
Fixpoint split_aux (sep : string) (skip : nat) (cur s : string) : list string :=
  match s with
  | EmptyString => [cur]
  | String c s' =>
      match skip with
      | S k => split_aux sep k cur s'
      | O =>
          if startswith sep s
          then cur :: split_aux sep (String.length sep - 1) EmptyString s'
          else split_aux sep O (cur +:+ String c EmptyString) s'
      end
  end.

Definition split (sep s : string) : list string := split_aux sep O EmptyString s.

(** [s.split(sep, 1)] *)
Fixpoint split1_aux (sep cur s : string) : list string :=
  match s with
  | EmptyString => [cur]
  | String c s' =>
      if startswith sep s
      then [cur; String.substring (String.length sep) (String.length s) s]
      else split1_aux sep (cur +:+ String c EmptyString) s'
  end.

Definition split1 (sep s : string) : list string := split1_aux sep EmptyString s.

(** [s.split()]: pieces between runs of whitespace *)
Fixpoint words_aux (cur : option string) (s : string) : list string :=
  match s with
  | EmptyString => match cur with Some w => [w] | None => [] end
  | String c s' =>
      if is_space c
      then match cur with Some w => w :: words_aux None s' | None => words_aux None s' end
      else words_aux (Some (default EmptyString cur +:+ String c EmptyString)) s'
  end.

Definition words (s : string) : list string := words_aux None s.

(** [s.find(sub, start)] for [0 <= start]: the least index [>= start]
    at which [sub] occurs, or [-1]. *)
Fixpoint find_aux (sub s : string) (pos start : Z) : Z :=
  match s with
  | EmptyString => if (start <=? pos) && startswith sub EmptyString then pos else -1
  | String _ s' =>
      if (start <=? pos) && startswith sub s then pos
      else find_aux sub s' (pos + 1) start
  end.

Definition find (sub s : string) (start : Z) : Z := find_aux sub s 0 start.

(** [s[a:b]] for [0 <= a] and [0 <= b] *)
Definition slice (s : string) (a b : Z) : string :=
  String.substring (Z.to_nat a) (Z.to_nat (b - a)) s.

(** [sep.join(l)] *)
Definition join (sep : string) (l : list string) : string := String.concat sep l.

Definition upper_char (c : ascii) : ascii :=
  let n := Ascii.N_of_ascii c in
  if ((97 <=? n) && (n <=? 122))%N then Ascii.ascii_of_N (n - 32) else c.

(** [s.upper()] *)
Fixpoint upper (s : string) : string :=
  match s with
  | EmptyString => EmptyString
  | String c s' => String (upper_char c) (upper s')
  end.

Definition nonempty (s : string) : bool :=
  match s with EmptyString => false | _ => true end.

(** [range(n)] *)
Definition range (n : Z) : list Z := map Z.of_nat (seq 0 (Z.to_nat n)).

(** [len(l)] *)
Definition len_list {A} (l : list A) : Z := Z.of_nat (length l).

End pystr.

Import pystr.

(** ** Exceptions, processes and the monad of system code *)

Module py.

Inductive exn_class :=
| OSError_ | FileNotFoundError_ | PermissionError_ | TimeoutExpired_
| OverflowError_ | ValueError_ | RuntimeError_ | AttributeError_
| KeyError_ | IndexError_ | TypeError_.

Record exn := Exn { exn_cls : exn_class; exn_msg : string }.

(** [socket.error] is [OSError]; [FileNotFoundError] and
    [PermissionError] are subclasses of it. *)
Definition is_OSError (e : exn) : bool :=
  match exn_cls e with
  | OSError_ | FileNotFoundError_ | PermissionError_ => true
  | _ => false
  end.

(** [except (subprocess.TimeoutExpired, FileNotFoundError)] *)
Definition is_timeout_or_missing (e : exn) : bool :=
  match exn_cls e with
  | TimeoutExpired_ | FileNotFoundError_ => true
  | _ => false
  end.

(** [except (ValueError, IndexError)] *)
Definition is_value_or_index (e : exn) : bool :=
  match exn_cls e with
  | ValueError_ | IndexError_ => true
  | _ => false
  end.

(** [except Exception] and the bare [except:] *)
Definition is_Exception (e : exn) : bool := true.

Inductive result (A : Type) :=
| Ok (a : A)
| Raise (e : exn).
Arguments Ok {A} a.
Arguments Raise {A} e.

(** [subprocess.CompletedProcess] *)
Record CompletedProcess :=
  { returncode : Z; stdout : string; stderr : string }.

Inductive RunOutcome :=
| Completed (c : CompletedProcess)
| Failed (e : exn).

(** What the program did to the system, oldest first. *)
Inductive Event :=
| EvBind (host : string) (port : Z)
| EvRun (argv : list string) (envp : option (gmap string string))
| EvWrite (path content : string).

(** No restriction on the events. *)
Definition any_event (ev : Event) : Prop := True.

Record Env :=
  { platform : string;
    getcwd : string;
    environ : gmap string string;
    resolves : string -> bool;
    bind_ok : string -> Z -> bool;
    run_answer : list Event -> list string -> RunOutcome }.

Record St (Self : Type) := { self : Self; trace : list Event }.
Arguments self {Self} s.
Arguments trace {Self} s.

Definition M (Self A : Type) : Type := St Self -> result A * St Self.

Section Monad.
Context {Self : Type}.

Definition ret {A} (a : A) : M Self A := fun st => (Ok a, st).

Definition raise {A} (e : exn) : M Self A := fun st => (Raise e, st).

Definition bind {A B} (m : M Self A) (k : A -> M Self B) : M Self B :=
  fun st =>
    match m st with
    | (Ok a, st') => k a st'
    | (Raise e, st') => (Raise e, st')
    end.

(** [try: m  except <classes> as e: h e] *)
Definition try_except {A} (m : M Self A) (catches : exn -> bool)
    (h : exn -> M Self A) : M Self A :=
  fun st =>
    match m st with
    | (Ok a, st') => (Ok a, st')
    | (Raise e, st') => if catches e then h e st' else (Raise e, st')
    end.

Definition get_self : M Self Self := fun st => (Ok (self st), st).

Definition modify_self (f : Self -> Self) : M Self unit :=
  fun st => (Ok tt, {| self := f (self st); trace := trace st |}).

Definition emit (ev : Event) : M Self unit :=
  fun st => (Ok tt, {| self := self st; trace := trace st ++ [ev] |}).

(** [subprocess.run(argv, ...)] *)
Definition subprocess_run (E : Env) (argv : list string)
    (envp : option (gmap string string)) : M Self CompletedProcess :=
  fun st =>
    let st' := {| self := self st; trace := trace st ++ [EvRun argv envp] |} in
    match run_answer E (trace st) argv with
    | Completed c => (Ok c, st')
    | Failed e => (Raise e, st')
    end.

(** The computation leaves [self] alone and adds to the trace only events
    that satisfy [P]. *)
Definition only_emits {A} (P : Event -> Prop) (m : M Self A) : Prop :=
  forall st r st',
    m st = (r, st') ->
    self st' = self st /\
    exists evs, trace st' = trace st ++ evs /\ Forall P evs.

(** [l[i]] *)
Definition index {A} (l : list A) (i : nat) : M Self A :=
  match l !! i with
  | Some x => ret x
  | None => raise (Exn IndexError_ "list index out of range")
  end.
End Monad.

Notation "'let!' x ':=' m 'in' k" := (bind m (fun x => k))
  (at level 10, x name, m at level 200, k at level 200, only parsing).

End py.

Import py.

(** ** [utils/ports.py] *)

Module utils_ports.

Record PortInfo :=
  { port : Z; available : bool; process_info : option string }.

(** The field [available] of the result is [block_available] here, the
    name being taken by [PortInfo]. *)
Record PortBlockCheckResult :=
  { block_available : bool;
    requested_range : Z * Z;
    busy_ports : list PortInfo;
    error_message : option string }.

Section Ports.
Context {Self : Type} (E : Env).

(** [sock.bind((host, port))] on a fresh TCP socket.  CPython first turns
    the host into an address (a failure is [socket.gaierror], an
    [OSError]), then rejects a port outside [0, 65535] with
    [OverflowError]; after that the operating system decides, and refuses
    with an [OSError]. *)
Definition socket_bind (host : string) (port : Z) : M Self unit :=
  let! _ := emit (EvBind host port) in
  if negb (resolves E host)
  then raise (Exn OSError_ "[Errno -2] Name or service not known")
  else if (port <? 0) || (65535 <? port)
  then raise (Exn OverflowError_ "bind(): port must be 0-65535.")
  else if bind_ok E host port then ret tt
  else raise (Exn OSError_ "[Errno 98] Address already in use").

Definition _is_port_available (port : Z) (host : string) : M Self bool :=
  try_except
    (let! _ := socket_bind host port in ret true)
    is_OSError
    (fun _ => ret false).

(** The inner loop of [find_sequential_ports]: [idx] is what is left of
    [range(count)]; the answer is [(ports, all_available)]. *)
Fixpoint scan_window (current_port : Z) (host : string) (idx : list Z)
    (ports : list Z) : M Self (list Z * bool) :=
  match idx with
  | [] => ret (ports, true)
  | i :: idx' =>
      let port := current_port + i in
      let! ok := _is_port_available port host in
      if ok then scan_window current_port host idx' (ports ++ [port])
      else ret (ports, false)
  end.

Definition unable_to_find (base count : Z) : exn :=
  Exn RuntimeError_
    ("Unable to find " +:+ str count +:+
     " sequential available ports starting from " +:+ str base).

(** The outer loop, [attempts] iterations of [range(max_attempts)] left. *)
Fixpoint find_loop (attempts : nat) (base count : Z) (host : string)
    (current_port : Z) : M Self (list Z) :=
  match attempts with
  | O => raise (unable_to_find base count)
  | S attempts' =>
      let! r := scan_window current_port host (range count) [] in
      let '(ports, all_available) := r in
      if all_available && (len_list ports =? count)
      then ret ports
      else
        let current_port := current_port + 1 in
        if current_port + count - 1 >? 65535
        then raise (unable_to_find base count)
        else find_loop attempts' base count host current_port
  end.

Definition max_attempts : nat := 1000.

Definition find_sequential_ports (base count : Z) (host : string)
    : M Self (list Z) :=
  if count <? 1 then raise (Exn ValueError_ "Count must be at least 1")
  else find_loop max_attempts base count host base.

(** *** Process attribution *)

Definition process_with_pid (name pid : string) : string :=
  "process " +:+ name +:+ " (PID " +:+ pid +:+ ")".

(** [try: ... except (subprocess.TimeoutExpired, FileNotFoundError): pass]
    around one tool; [Some s] stands for [return s] inside the block. *)
Definition tool_attempt (m : M Self (option string)) : M Self (option string) :=
  try_except m is_timeout_or_missing (fun _ => ret None).

Definition via_lsof (port : Z) : M Self (option string) :=
  tool_attempt
    (let! result := subprocess_run E ["lsof"; "-i"; ":" +:+ str port; "-P"; "-n"] None in
     if (returncode result =? 0) && nonempty (strip (stdout result)) then
       let lines := split nl (strip (stdout result)) in
       if len_list lines >? 1 then
         let! process_line := index lines 1 in
         let parts := words process_line in
         if len_list parts >=? 2 then
           let! process_name := index parts 0 in
           let! pid := index parts 1 in
           ret (Some (process_with_pid process_name pid))
         else ret None
       else ret None
     else ret None).

Fixpoint netstat_lines (port : Z) (lines : list string) : M Self (option string) :=
  match lines with
  | [] => ret None
  | line :: lines' =>
      if contains (":" +:+ str port +:+ " ") line then
        let parts := words line in
        if len_list parts >=? 7 then
          let! process_info := index parts 6 in
          if negb (String.eqb process_info "-") then
            if contains "/" process_info then
              match split1 "/" process_info with
              | [pid; name] => ret (Some (process_with_pid name pid))
              | _ => raise (Exn ValueError_ "not enough values to unpack")
              end
            else ret (Some ("process " +:+ process_info))
          else netstat_lines port lines'
        else netstat_lines port lines'
      else netstat_lines port lines'
  end.

Definition via_netstat (port : Z) : M Self (option string) :=
  tool_attempt
    (let! result := subprocess_run E ["netstat"; "-tulpn"] None in
     if returncode result =? 0
     then netstat_lines port (split nl (stdout result))
     else ret None).

(** The body of the innermost [try] of the [ss] branch. *)
Definition ss_users (users_part : string) : M Self (option string) :=
  let start := find ("((" +:+ dq) users_part 0 + 3 in
  let end_ := find (dq +:+ ",pid=") users_part 0 in
  if start <? end_ then
    let process_name := slice users_part start end_ in
    let pid_start := find "pid=" users_part 0 + 4 in
    let pid_end := find "," users_part pid_start in
    let pid_end := if pid_end =? -1 then find ")" users_part pid_start else pid_end in
    if pid_start <? pid_end then
      let pid := slice users_part pid_start pid_end in
      ret (Some (process_with_pid process_name pid))
    else ret None
  else ret None.

Fixpoint ss_lines (port : Z) (lines : list string) : M Self (option string) :=
  match lines with
  | [] => ret None
  | line :: lines' =>
      let! found :=
        (if contains (":" +:+ str port +:+ " ") line then
           let parts := words line in
           if len_list parts >=? 7 then
             let! users_part := index parts 6 in
             if contains "users:" users_part then
               if contains ("((" +:+ dq) users_part && contains (dq +:+ ",pid=") users_part
               then try_except (ss_users users_part) is_value_or_index (fun _ => ret None)
               else ret None
             else ret None
           else ret None
         else ret None) in
      match found with
      | Some s => ret (Some s)
      | None => ss_lines port lines'
      end
  end.

Definition via_ss (port : Z) : M Self (option string) :=
  tool_attempt
    (let! result := subprocess_run E ["ss"; "-tulpn"] None in
     if returncode result =? 0
     then ss_lines port (split nl (stdout result))
     else ret None).

Definition via_tasklist (pid : string) : M Self (option string) :=
  tool_attempt
    (let! tasklist_result :=
       subprocess_run E ["tasklist"; "/FI"; "PID eq " +:+ pid; "/FO"; "CSV"] None in
     if returncode tasklist_result =? 0 then
       let lines := split nl (strip (stdout tasklist_result)) in
       if len_list lines >=? 2 then
         let! process_line := index lines 1 in
         if startswith dq process_line then
           let! process_name := index (split dq process_line) 1 in
           ret (Some (process_with_pid process_name pid))
         else ret None
       else ret None
     else ret None).

Fixpoint windows_lines (port : Z) (lines : list string) : M Self (option string) :=
  match lines with
  | [] => ret None
  | line :: lines' =>
      if contains (":" +:+ str port +:+ " ") line && contains "LISTENING" line then
        let parts := words line in
        if len_list parts >=? 5 then
          let! pid := index parts 4 in
          let! named := via_tasklist pid in
          match named with
          | Some s => ret (Some s)
          | None => ret (Some ("process PID " +:+ pid))
          end
        else windows_lines port lines'
      else windows_lines port lines'
  end.

Definition via_windows_netstat (port : Z) : M Self (option string) :=
  tool_attempt
    (let! result := subprocess_run E ["netstat"; "-ano"] None in
     if returncode result =? 0
     then windows_lines port (split nl (stdout result))
     else ret None).

(** [first_of ms]: run the attempts in order until one returns. *)
Fixpoint first_of (ms : list (M Self (option string))) : M Self (option string) :=
  match ms with
  | [] => ret None
  | m :: ms' =>
      let! r := m in
      match r with
      | Some s => ret (Some s)
      | None => first_of ms'
      end
  end.

Definition _get_process_using_port (port : Z) : M Self string :=
  try_except
    (let! found :=
       (if startswith "linux" (platform E) || startswith "darwin" (platform E)
        then first_of [via_lsof port; via_netstat port; via_ss port]
        else if startswith "win" (platform E)
        then via_windows_netstat port
        else ret None) in
     match found with
     | Some s => ret s
     | None => ret "unknown process"
     end)
    is_Exception
    (fun _ => ret "unknown process").

(** *** Pre-flight check of one block *)

(** The probing loop of [check_sequential_port_block]. *)
Fixpoint probe_block (base : Z) (host : string) (idx : list Z)
    (busy_ports : list PortInfo) : M Self (list PortInfo) :=
  match idx with
  | [] => ret busy_ports
  | i :: idx' =>
      let port := base + i in
      let! ok := _is_port_available port host in
      if negb ok then
        let! process_info := _get_process_using_port port in
        probe_block base host idx'
          (busy_ports ++
           [{| port := port; available := false; process_info := Some process_info |}])
      else probe_block base host idx' busy_ports
  end.

Definition already_in_use : string := " already in use".

(** One element of [busy_port_strs]. *)
Definition busy_port_str (port_info : PortInfo) : string :=
  match process_info port_info with
  | Some info =>
      if nonempty info
      then str (port port_info) +:+ already_in_use +:+ " (" +:+ info +:+ ")"
      else str (port port_info) +:+ already_in_use
  | None => str (port port_info) +:+ already_in_use
  end.

(** One element of [port_descriptions]. *)
Definition port_description (port_str : string) : string :=
  match split already_in_use port_str with
  | [before; after] => before +:+ already_in_use +:+ after
  | _ => port_str
  end.

Definition block_error_message (base count end_port : Z)
    (busy_ports : list PortInfo) : M Self (option string) :=
  let busy_port_strs := map busy_port_str busy_ports in
  if count =? 1 then
    let! port_desc := index busy_port_strs 0 in
    let! rest := index (split (str base +:+ " ") port_desc) 1 in
    ret (Some ("Port " +:+ str base +:+ ": " +:+ rest))
  else
    let port_descriptions := map port_description busy_port_strs in
    ret (Some ("Ports " +:+ str base +:+ "-" +:+ str end_port +:+ ": " +:+
               join ", " port_descriptions)).

Definition check_sequential_port_block (base count : Z) (host : string)
    : M Self PortBlockCheckResult :=
  if count <? 1 then
    ret {| block_available := false;
           requested_range := (base, base + count - 1);
           busy_ports := [];
           error_message := Some "Count must be at least 1" |}
  else
    let end_port := base + count - 1 in
    if end_port >? 65535 then
      ret {| block_available := false;
             requested_range := (base, end_port);
             busy_ports := [];
             error_message :=
               Some ("Port range " +:+ str base +:+ "-" +:+ str end_port +:+
                     " exceeds maximum port number 65535") |}
    else
      let! busy_ports := probe_block base host (range count) [] in
      let available := len_list busy_ports =? 0 in
      let! error_message :=
        (if negb available
         then block_error_message base count end_port busy_ports
         else ret None) in
      ret {| block_available := available;
             requested_range := (base, end_port);
             busy_ports := busy_ports;
             error_message := error_message |}.

(** *** Vocabulary of the statements *)

Definition valid_port (p : Z) : bool := (0 <=? p) && (p <=? 65535).

(** The port probes as available: [_is_port_available] answers [True]. *)
Definition probes_free (host : string) (p : Z) : bool :=
  valid_port p && (resolves E host && bind_ok E host p).

(** [[p, p+1, ..., p+count-1]] *)
Definition window (p count : Z) : list Z := map (Z.add p) (range count).

Definition window_free (host : string) (p count : Z) : bool :=
  forallb (probes_free host) (window p count).

(** What process attribution answers: a process description or the
    fallback. *)
Definition names_a_process (info : string) : Prop :=
  info = "unknown process" \/ startswith "process " info = true.

(** The text that follows the port number of a busy port. *)
Definition in_use_text (info : string) : string :=
  "already in use (" +:+ info +:+ ")".

(** The port is busy: the probe answers [False]. *)
Definition probes_busy (host : string) (p : Z) : bool := negb (probes_free host p).

(** What the check records about a busy port. *)
Definition well_formed_busy (base count : Z) (port_info : PortInfo) : Prop :=
  base <= port port_info <= base + count - 1 /\
  available port_info = false /\
  exists info,
    process_info port_info = Some info /\ names_a_process info /\
    busy_port_str port_info = str (port port_info) +:+ " " +:+ in_use_text info.

(** The state after one probe. *)
Definition probed (host : string) (p : Z) (st : St Self) : St Self :=
  {| self := self st; trace := trace st ++ [EvBind host p] |}.

(** A postcondition on what a tool attempt returns. *)
Definition yields (P : string -> Prop) (m : M Self (option string)) : Prop :=
  forall st r st', m st = (Ok (Some r), st') -> P r.

(** The ports of a window that the inner scan of [find_sequential_ports]
    probes: up to and including the first one that does not probe free. *)
Fixpoint probed_ports (host : string) (ports : list Z) : list Z :=
  match ports with
  | [] => []
  | p :: ports' =>
      if probes_free host p then p :: probed_ports host ports' else [p]
  end.

(** The command line of the first diagnosis tool. *)
Definition lsof_argv (p : Z) : list string :=
  ["lsof"; "-i"; ":" +:+ str p; "-P"; "-n"].

(** The platform is one on which lsof, netstat and ss are tried. *)
Definition unix_like : bool :=
  startswith "linux" (platform E) || startswith "darwin" (platform E).

(** Every command fails to run: the program is missing or times out. *)
Definition no_tool_runs : Prop :=
  forall history argv,
    exists e, run_answer E history argv = Failed e /\ is_timeout_or_missing e = true.

End Ports.
End utils_ports.

(** ** [config/port_manager.py] *)

Module port_manager.

(** One value of the [assignments] dictionary. *)
Record Assignment :=
  { a_port : Z; a_purpose : string; assigned_at : string }.

(** The JSON object of [port_assignments.json]; a key may be missing. *)
Record Document :=
  { doc_base_port : option Z;
    doc_next_port : option Z;
    doc_assignments : option (gmap string Assignment) }.

(** [./config/port_assignments.json]: not there, there but not JSON, or a
    JSON object. *)
Inductive PortFile :=
| Absent
| Malformed
| Json (d : Document).

Record PortManager :=
  { base_port : Z;
    current_port : Z;
    assigned_ports : gmap string Assignment }.

(** The registry object together with its file; [saves] counts the calls of
    [_save_assignments]. *)
Record System :=
  { manager : PortManager; port_file : PortFile; saves : nat }.

Definition _load_assignments (file : PortFile) (self : PortManager) : PortManager :=
  match file with
  | Absent => self
  | Malformed =>
      {| base_port := base_port self;
         current_port := base_port self;
         assigned_ports := ∅ |}
  | Json data =>
      let assigned := default ∅ (doc_assignments data) in
      let current := default (base_port self) (doc_next_port data) in
      {| base_port := base_port self;
         current_port := if current <? base_port self then base_port self else current;
         assigned_ports := assigned |}
  end.

(** [PortManager(base_port)]: [arg] is the constructor argument, [env] the
    value of the [BASE_PORT] variable when it is set.  [base_port or ...]
    also falls back to the variable when the argument is [0]. *)
Definition init (arg env : option Z) (file : PortFile) : PortManager :=
  let from_env := default 4000 env in
  let base :=
    match arg with
    | Some b => if b =? 0 then from_env else b
    | None => from_env
    end in
  _load_assignments file
    {| base_port := base; current_port := base; assigned_ports := ∅ |}.

Definition _save_assignments (sys : System) : System :=
  {| manager := manager sys;
     port_file :=
       Json {| doc_base_port := Some (base_port (manager sys));
               doc_next_port := Some (current_port (manager sys));
               doc_assignments := Some (assigned_ports (manager sys)) |};
     saves := S (saves sys) |}.

(** [now] is what [_get_timestamp] answers during the call. *)
Definition assign_port (now service_name purpose : string) (sys : System)
    : System * Z :=
  let self := manager sys in
  match assigned_ports self !! service_name with
  | Some entry => (sys, a_port entry)
  | None =>
      let assigned_port := current_port self in
      let self' :=
        {| base_port := base_port self;
           current_port := current_port self + 1;
           assigned_ports :=
             <[service_name :=
                 {| a_port := assigned_port;
                    a_purpose := purpose;
                    assigned_at := now |}]> (assigned_ports self) |} in
      (_save_assignments
         {| manager := self'; port_file := port_file sys; saves := saves sys |},
       assigned_port)
  end.

Definition get_port (service_name : string) (sys : System) : option Z :=
  a_port <$> assigned_ports (manager sys) !! service_name.

Definition get_next_port (sys : System) : Z := current_port (manager sys).

Definition release_port (service_name : string) (sys : System) : System * bool :=
  let self := manager sys in
  match assigned_ports self !! service_name with
  | Some _ =>
      let self' :=
        {| base_port := base_port self;
           current_port := current_port self;
           assigned_ports := delete service_name (assigned_ports self) |} in
      (_save_assignments
         {| manager := self'; port_file := port_file sys; saves := saves sys |},
       true)
  | None => (sys, false)
  end.

Definition reset_assignments (sys : System) : System :=
  let self := manager sys in
  _save_assignments
    {| manager :=
         {| base_port := base_port self;
            current_port := base_port self;
            assigned_ports := ∅ |};
       port_file := port_file sys;
       saves := saves sys |}.

(** A fresh process builds its registry from the file the last one left. *)
Definition restart (arg env : option Z) (sys : System) : System :=
  {| manager := init arg env (port_file sys);
     port_file := port_file sys;
     saves := saves sys |}.

(** The states a registry goes through, from a machine without a usable
    file on, across processes; [allowed] says which base ports the
    processes are configured with. *)
Inductive reachable (allowed : Z -> Prop) : System -> Prop :=
| reach_first arg env file :
    file = Absent \/ file = Malformed ->
    allowed (base_port (init arg env file)) ->
    reachable allowed {| manager := init arg env file; port_file := file; saves := 0 |}
| reach_assign sys now service_name purpose :
    reachable allowed sys ->
    reachable allowed (fst (assign_port now service_name purpose sys))
| reach_release sys service_name :
    reachable allowed sys ->
    reachable allowed (fst (release_port service_name sys))
| reach_reset sys :
    reachable allowed sys ->
    reachable allowed (reset_assignments sys)
| reach_restart sys arg env :
    reachable allowed sys ->
    allowed (base_port (init arg env (port_file sys))) ->
    reachable allowed (restart arg env sys).

Definition cursor_ge_base (sys : System) : Prop :=
  base_port (manager sys) <= current_port (manager sys).

Definition cursor_above_assigned (sys : System) : Prop :=
  forall service entry,
    assigned_ports (manager sys) !! service = Some entry ->
    a_port entry + 1 <= current_port (manager sys).

Definition assigned_ge_base (sys : System) : Prop :=
  forall service entry,
    assigned_ports (manager sys) !! service = Some entry ->
    base_port (manager sys) <= a_port entry.

(** What a file must satisfy for a later load to keep the cursor above the
    assignments it brings back. *)
Definition file_cursor_ok (file : PortFile) : Prop :=
  match file with
  | Json d =>
      exists n m,
        doc_next_port d = Some n /\ doc_assignments d = Some m /\
        forall service entry, m !! service = Some entry -> a_port entry + 1 <= n
  | _ => True
  end.

Definition file_floor_ok (b : Z) (file : PortFile) : Prop :=
  match file with
  | Json d =>
      forall m service entry,
        doc_assignments d = Some m -> m !! service = Some entry -> b <= a_port entry
  | _ => True
  end.

(** [get_service_ports] *)
Definition get_service_ports (sys : System) : gmap string Z :=
  a_port <$> assigned_ports (manager sys).

(** The idiom of the callers ([run_containerized_tests.py],
    [branch_comparison.py]):
    [get_port(service) or assign_port(service, purpose)]; a port [0] counts
    as missing for [or]. *)
Definition port_or_assign (now service purpose : string) (sys : System)
    : System * Z :=
  match get_port service sys with
  | Some p => if p =? 0 then assign_port now service purpose sys else (sys, p)
  | None => assign_port now service purpose sys
  end.

(** The [-p] argument of [start_server_container]: the idiom evaluated
    twice, left to right, inside one f-string. *)
Definition publish_http_server (now1 now2 : string) (sys : System) : System * string :=
  let first := port_or_assign now1 "http-server" "Main HTTP Server" sys in
  let second := port_or_assign now2 "http-server" "Main HTTP Server" (fst first) in
  (fst second, str (snd first) +:+ ":" +:+ str (snd second)).

(** The registry a constructor starts from, before it loads the file. *)
Definition fresh_manager (base : Z) : PortManager :=
  {| base_port := base; current_port := base; assigned_ports := ∅ |}.

(** The registry in memory is what a new process with the same base port
    would load. *)
Definition in_sync (sys : System) : Prop :=
  manager sys =
  _load_assignments (port_file sys) (fresh_manager (base_port (manager sys))).

Definition distinct_ports (m : gmap string Assignment) : Prop :=
  forall s1 s2 e1 e2,
    m !! s1 = Some e1 -> m !! s2 = Some e2 -> a_port e1 = a_port e2 -> s1 = s2.

Definition file_distinct_ok (file : PortFile) : Prop :=
  match file with
  | Json d => forall m, doc_assignments d = Some m -> distinct_ports m
  | _ => True
  end.

End port_manager.

(** ** [container_orchestrator.py] *)

Module container_orchestrator.

Import utils_ports.

Record ContainerRuntime :=
  { name : string;
    command : string;
    compose_command : string;
    runtime_available : bool;
    version : string }.

(** A [dict] in insertion order: [self.ports]. *)
Definition dict (V : Type) : Type := list (string * V).

Fixpoint dict_get {V} (k : string) (d : dict V) : option V :=
  match d with
  | [] => None
  | (k', v) :: d' => if String.eqb k k' then Some v else dict_get k d'
  end.

Fixpoint dict_set {V} (k : string) (v : V) (d : dict V) : dict V :=
  match d with
  | [] => [(k, v)]
  | (k', v') :: d' =>
      if String.eqb k k' then (k, v) :: d' else (k', v') :: dict_set k v d'
  end.

Record ContainerOrchestrator :=
  { runtime : option ContainerRuntime;
    containers : list string;
    compose_file : string;
    project_name : string;
    ports : dict Z }.

(** [ContainerOrchestrator()] *)
Definition new : ContainerOrchestrator :=
  {| runtime := None;
     containers := [];
     compose_file := "docker-compose.test.yml";
     project_name := "test-env";
     ports := [] |}.

Definition set_runtime (r : ContainerRuntime) (o : ContainerOrchestrator) :=
  {| runtime := Some r; containers := containers o;
     compose_file := compose_file o; project_name := project_name o;
     ports := ports o |}.

Definition set_containers (f : list string -> list string) (o : ContainerOrchestrator) :=
  {| runtime := runtime o; containers := f (containers o);
     compose_file := compose_file o; project_name := project_name o;
     ports := ports o |}.

Definition set_compose_file (file : string) (o : ContainerOrchestrator) :=
  {| runtime := runtime o; containers := containers o;
     compose_file := file; project_name := project_name o;
     ports := ports o |}.

Definition set_ports (f : dict Z -> dict Z) (o : ContainerOrchestrator) :=
  {| runtime := runtime o; containers := containers o;
     compose_file := compose_file o; project_name := project_name o;
     ports := f (ports o) |}.

Definition runtimes : list ContainerRuntime :=
  [ {| name := "podman"; command := "podman"; compose_command := "podman-compose";
       runtime_available := false; version := "" |};
    {| name := "docker"; command := "docker"; compose_command := "docker-compose";
       runtime_available := false; version := "" |};
    {| name := "nerdctl"; command := "nerdctl"; compose_command := "nerdctl compose";
       runtime_available := false; version := "" |};
    {| name := "buildah"; command := "buildah"; compose_command := "buildah-compose";
       runtime_available := false; version := "" |} ].

Definition no_runtime : exn :=
  Exn RuntimeError_
    "No compatible container runtime found. Please install Docker, Podman, or another OCI-compatible runtime.".

Definition services : list string := ["app"; "postgres"; "mongo"].

Definition required_containers : list string := ["test-postgres"; "test-mongo"].

(** The command lines of the listing and of the two health checks. *)
Definition ps_argv (cmd : string) : list string :=
  [cmd; "ps"; "--format"; "{{.Names}}"].

Definition postgres_health_argv (cmd : string) : list string :=
  [cmd; "exec"; "test-postgres"; "pg_isready"; "-U"; "user"; "-d"; "testdb"].

Definition mongo_health_argv (cmd : string) : list string :=
  [cmd; "exec"; "test-mongo"; "mongosh"; "--eval"; "db.adminCommand('ping')"].

Section Orchestrator.
Context (E : Env).

Abbreviation Cmd := (M ContainerOrchestrator).

(** [self.runtime.<attribute>]; [self.runtime] may still be [None]. *)
Definition runtime_attr {A} (attribute : ContainerRuntime -> A) : Cmd A :=
  let! o := get_self in
  match runtime o with
  | Some r => ret (attribute r)
  | None => raise (Exn AttributeError_ "'NoneType' object has no attribute")
  end.

(** [self.ports[key]] *)
Definition ports_item (key : string) : Cmd Z :=
  let! o := get_self in
  match dict_get key (ports o) with
  | Some p => ret p
  | None => raise (Exn KeyError_ key)
  end.

Definition _check_command_available (command : string) : Cmd bool :=
  try_except
    (let! _ := subprocess_run E [command; "--version"] None in ret true)
    is_timeout_or_missing
    (fun _ => ret false).

(** The runtime object is updated in place; the updated object is returned
    with the answer. *)
Definition _check_runtime_available (runtime : ContainerRuntime)
    : Cmd (bool * ContainerRuntime) :=
  try_except
    (let! result := subprocess_run E [command runtime; "--version"] None in
     if returncode result =? 0 then
       let with_compose compose :=
         {| name := name runtime; command := command runtime;
            compose_command := compose;
            runtime_available := true; version := strip (stdout result) |} in
       if String.eqb (name runtime) "podman" then
         let! helper := _check_command_available "podman-compose" in
         let! compose_available :=
           (if helper then ret true else _check_command_available "docker-compose") in
         if negb compose_available
         then ret (true, with_compose "podman")
         else ret (true, with_compose (compose_command runtime))
       else if String.eqb (name runtime) "docker" then
         let! helper := _check_command_available "docker-compose" in
         if negb helper
         then ret (true, with_compose "docker compose")
         else ret (true, with_compose (compose_command runtime))
       else ret (true, with_compose (compose_command runtime))
     else ret (false, runtime))
    is_timeout_or_missing
    (fun _ => ret (false, runtime)).

Fixpoint detect_loop (candidates : list ContainerRuntime) : Cmd ContainerRuntime :=
  match candidates with
  | [] => raise no_runtime
  | candidate :: candidates' =>
      let! r := _check_runtime_available candidate in
      if fst r
      then let! _ := modify_self (set_runtime (snd r)) in ret (snd r)
      else detect_loop candidates'
  end.

Definition detect_runtime : Cmd ContainerRuntime := detect_loop runtimes.

Definition compose_content (postgres_port mongo_port : Z) : string :=
  join nl
    [ "version: '3.8'"; "";
      "services:";
      "  postgres:";
      "    image: docker.io/postgres:15";
      "    container_name: test-postgres";
      "    environment:";
      "      POSTGRES_DB: testdb";
      "      POSTGRES_USER: user";
      "      POSTGRES_PASSWORD: password";
      "      POSTGRES_HOST_AUTH_METHOD: trust";
      "    ports:";
      "      - " +:+ dq +:+ str postgres_port +:+ ":" +:+ str postgres_port +:+ dq;
      "    volumes:";
      "      - postgres_data:/var/lib/postgresql/data";
      "      - ./init-db.sql:/docker-entrypoint-initdb.d/init-db.sql";
      "    healthcheck:";
      "      test: [" +:+ dq +:+ "CMD-SHELL" +:+ dq +:+ ", " +:+ dq +:+
        "pg_isready -U user -d testdb" +:+ dq +:+ "]";
      "      interval: 10s";
      "      timeout: 5s";
      "      retries: 5";
      "";
      "  mongo:";
      "    image: docker.io/mongo:7.0";
      "    container_name: test-mongo";
      "    environment:";
      "      MONGO_INITDB_ROOT_USERNAME: user";
      "      MONGO_INITDB_ROOT_PASSWORD: password";
      "      MONGO_INITDB_DATABASE: testdb";
      "    ports:";
      "      - " +:+ dq +:+ str mongo_port +:+ ":" +:+ str mongo_port +:+ dq;
      "    volumes:";
      "      - mongo_data:/data/db";
      "    healthcheck:";
      "      test: [" +:+ dq +:+ "CMD" +:+ dq +:+ ", " +:+ dq +:+ "mongosh" +:+ dq +:+
        ", " +:+ dq +:+ "--eval" +:+ dq +:+ ", " +:+ dq +:+
        "db.adminCommand('ping')" +:+ dq +:+ "]";
      "      interval: 10s";
      "      timeout: 5s";
      "      retries: 5";
      "";
      "volumes:";
      "  postgres_data:";
      "  mongo_data:";
      "" ].

Definition create_podman_compose_file : Cmd string :=
  let! o := get_self in
  let postgres_port := default 5432 (dict_get "postgres" (ports o)) in
  let mongo_port := default 27017 (dict_get "mongo" (ports o)) in
  let podman_compose_file := "podman-compose.test.yml" in
  let! _ := emit (EvWrite podman_compose_file (compose_content postgres_port mongo_port)) in
  ret podman_compose_file.

(** The loop [for i, service in enumerate(services)] that fills
    [self.ports]; [i] is the index reached. *)
Fixpoint assign_services (allocated_ports : list Z) (i : nat) (todo : list string)
    : Cmd unit :=
  match todo with
  | [] => ret tt
  | service :: todo' =>
      let! p := index allocated_ports i in
      let! _ := modify_self (set_ports (dict_set service p)) in
      assign_services allocated_ports (S i) todo'
  end.

Definition create_port_mapping (allocated_ports : list Z) : Cmd unit :=
  let! _ := modify_self (set_ports (fun _ => [])) in
  assign_services allocated_ports 0 services.

Definition unable_to_allocate (e : exn) : exn :=
  Exn RuntimeError_ ("Unable to allocate sequential ports: " +:+ exn_msg e).

Definition _allocate_ports : Cmd unit :=
  let base_port := 8090 in
  let count := len_list services in
  try_except
    (let! check_result := check_sequential_port_block E base_port count "0.0.0.0" in
     if block_available check_result then
       let allocated_ports := map (Z.add base_port) (range count) in
       create_port_mapping allocated_ports
     else
       raise (Exn RuntimeError_ (default "None" (error_message check_result))))
    is_Exception
    (fun e =>
       if contains "already in use" (exn_msg e)
       then raise (unable_to_allocate e)
       else
         try_except
           (let! allocated_ports := find_sequential_ports E base_port count "0.0.0.0" in
            create_port_mapping allocated_ports)
           is_Exception
           (fun fallback_e => raise (unable_to_allocate fallback_e))).

Definition _check_postgres_health : Cmd bool :=
  try_except
    (let! cmd := runtime_attr command in
     let! result := subprocess_run E (postgres_health_argv cmd) None in
     ret (returncode result =? 0))
    is_Exception
    (fun _ => ret false).

Definition _check_mongo_health : Cmd bool :=
  try_except
    (let! cmd := runtime_attr command in
     let! result := subprocess_run E (mongo_health_argv cmd) None in
     ret (returncode result =? 0))
    is_Exception
    (fun _ => ret false).

Definition _check_containers_exist : Cmd bool :=
  try_except
    (let! cmd := runtime_attr command in
     let! result := subprocess_run E (ps_argv cmd) None in
     if negb (returncode result =? 0) then ret false
     else
       let running_containers := split nl (strip (stdout result)) in
       if forallb (fun container => bool_decide (container ∈ running_containers))
            required_containers
       then
         let! postgres := _check_postgres_health in
         if postgres then _check_mongo_health else ret false
       else ret false)
    is_Exception
    (fun _ => ret false).

Fixpoint stop_and_remove (program : Cmd string) (todo : list string) : Cmd unit :=
  match todo with
  | [] => ret tt
  | container :: todo' =>
      let! cmd := program in
      let! _ := subprocess_run E [cmd; "stop"; container] None in
      let! cmd := program in
      let! _ := subprocess_run E [cmd; "rm"; container] None in
      stop_and_remove program todo'
  end.

Definition _cleanup_existing_containers : Cmd unit :=
  try_except
    (let! _ := stop_and_remove (runtime_attr command) ["test-postgres"; "test-mongo"] in
     let! cmd := runtime_attr command in
     let! o := get_self in
     let! _ := subprocess_run E [cmd; "pod"; "rm"; project_name o] None in
     ret tt)
    is_Exception
    (fun _ => ret tt).

Definition publish (p : Z) : string := str p +:+ ":" +:+ str p.

Definition _start_podman_containers : Cmd bool :=
  try_except
    (let! exist := _check_containers_exist in
     if exist then ret true
     else
       let! _ := _cleanup_existing_containers in
       let! postgres_port := ports_item "postgres" in
       let! mongo_port := ports_item "mongo" in
       let! o := get_self in
       let! result :=
         subprocess_run E
           ["podman"; "pod"; "create"; "--name"; project_name o;
            "-p"; publish postgres_port; "-p"; publish mongo_port] None in
       if negb (returncode result =? 0) && negb (contains "already exists" (stderr result))
       then ret false
       else
         let! result :=
           subprocess_run E
             ["podman"; "run"; "-d"; "--name"; "test-postgres";
              "--pod"; project_name o;
              "-e"; "POSTGRES_DB=testdb";
              "-e"; "POSTGRES_USER=user";
              "-e"; "POSTGRES_PASSWORD=password";
              "-e"; "POSTGRES_HOST_AUTH_METHOD=trust";
              "-v"; getcwd E +:+ "/init-db.sql:/docker-entrypoint-initdb.d/init-db.sql:Z";
              "docker.io/postgres:15"] None in
         if negb (returncode result =? 0) then ret false
         else
           let! _ := modify_self (set_containers (fun l => l ++ ["test-postgres"])) in
           let! result :=
             subprocess_run E
               ["podman"; "run"; "-d"; "--name"; "test-mongo";
                "--pod"; project_name o;
                "-e"; "MONGO_INITDB_ROOT_USERNAME=user";
                "-e"; "MONGO_INITDB_ROOT_PASSWORD=password";
                "-e"; "MONGO_INITDB_DATABASE=testdb";
                "docker.io/mongo:7.0"] None in
           if negb (returncode result =? 0) then ret false
           else
             let! _ := modify_self (set_containers (fun l => l ++ ["test-mongo"])) in
             ret true)
    is_Exception
    (fun _ => ret false).

(** [_get_port_env_vars]: later entries overwrite earlier ones. *)
Definition _get_port_env_vars (o : ContainerOrchestrator) : gmap string string :=
  let env_vars :=
    fold_left (fun vars sp => <[upper (fst sp) +:+ "_PORT" := str (snd sp)]> vars)
      (ports o) ∅ in
  match dict_get "app" (ports o) with
  | Some p => <["HTTP_SERVER_PORT" := str p]> env_vars
  | None => env_vars
  end.

Definition _start_compose_containers : Cmd bool :=
  try_except
    (let! runtime_name := runtime_attr name in
     let! _ :=
       (if String.eqb runtime_name "podman" then
          let! file := create_podman_compose_file in
          modify_self (set_compose_file file)
        else ret tt) in
     let! compose := runtime_attr compose_command in
     let compose_cmd := words compose in
     let! o := get_self in
     let env := _get_port_env_vars o ∪ environ E in
     let cmd := compose_cmd ++ ["-f"; compose_file o; "up"; "--build"; "-d"] in
     let! result := subprocess_run E cmd (Some env) in
     if negb (returncode result =? 0) then ret false else ret true)
    is_Exception
    (fun _ => ret false).

Definition start_containers : Cmd bool :=
  let! o := get_self in
  let! _ :=
    (match runtime o with
     | None => let! _ := detect_runtime in ret tt
     | Some _ => ret tt
     end) in
  try_except
    (let! _ := _allocate_ports in
     let! runtime_name := runtime_attr name in
     if String.eqb runtime_name "podman"
     then _start_podman_containers
     else _start_compose_containers)
    is_Exception
    (fun _ => ret false).

Definition cleanup : Cmd unit :=
  try_except
    (let! runtime_name := runtime_attr name in
     if String.eqb runtime_name "podman" then
       let! o := get_self in
       let! _ := stop_and_remove (ret "podman") (containers o) in
       let! o := get_self in
       let! _ := subprocess_run E ["podman"; "pod"; "rm"; project_name o] None in
       ret tt
     else
       let! compose := runtime_attr compose_command in
       let compose_cmd := words compose in
       let! o := get_self in
       let cmd := compose_cmd ++ ["-f"; compose_file o; "down"; "-v"] in
       let! _ := subprocess_run E cmd None in
       ret tt)
    is_Exception
    (fun _ => ret tt).

(** *** Vocabulary of the statements *)

(** The required containers are listed as running and both health checks
    succeed, whenever they are asked. *)
Definition containers_healthy (rt : ContainerRuntime) : Prop :=
  forall history,
    (exists listing,
       run_answer E history (ps_argv (command rt)) = Completed listing /\
       returncode listing = 0 /\
       forallb (fun container =>
                  bool_decide (container ∈ split nl (strip (stdout listing))))
         required_containers = true) /\
    (exists r,
       run_answer E history (postgres_health_argv (command rt)) = Completed r /\
       returncode r = 0) /\
    (exists r,
       run_answer E history (mongo_health_argv (command rt)) = Completed r /\
       returncode r = 0).

(** The preferred block 8090-8092 probes as available. *)
Definition preferred_block_free : Prop :=
  window_free E "0.0.0.0" 8090 3 = true.

(** What a start on a healthy environment may do: probe the three ports,
    list the containers, run the two health checks. *)
Definition idempotent_start_events (cmd : string) : list Event :=
  [ EvBind "0.0.0.0" 8090; EvBind "0.0.0.0" 8091; EvBind "0.0.0.0" 8092;
    EvRun (ps_argv cmd) None;
    EvRun (postgres_health_argv cmd) None;
    EvRun (mongo_health_argv cmd) None ].

(** The connection parameters [run_tests] adds to the environment. *)
Definition connection_env (postgres_port mongo_port : Z) : gmap string string :=
  list_to_map
    [ ("POSTGRES_HOST", "localhost");
      ("POSTGRES_PORT", str postgres_port);
      ("POSTGRES_DB", "testdb");
      ("POSTGRES_USER", "user");
      ("POSTGRES_PASSWORD", "password");
      ("MONGO_HOST", "localhost");
      ("MONGO_PORT", str mongo_port);
      ("MONGO_DB", "testdb");
      ("SQLITE_PATH", "/tmp/test.db") ].

(** The environment of the test runner: the process environment, updated
    with the connection parameters, updated with the port variables. *)
Definition tests_env (o : ContainerOrchestrator) : gmap string string :=
  let postgres_port := default 5432 (dict_get "postgres" (ports o)) in
  let mongo_port := default 27017 (dict_get "mongo" (ports o)) in
  _get_port_env_vars o ∪ (connection_env postgres_port mongo_port ∪ environ E).

Definition run_tests : Cmd (bool * string) :=
  let! o := get_self in
  let env := tests_env o in
  let cmd := ["python"; "run_e2e_tests.py"] in
  let! result := subprocess_run E cmd (Some env) in
  let success := returncode result =? 0 in
  let output := stdout result +:+ stderr result in
  ret (success, output).

(** The version command of the candidate does not succeed: the program is
    missing or times out, or it exits with a non-zero code. *)
Definition unavailable (candidate : ContainerRuntime) : Prop :=
  forall history,
    (exists e, run_answer E history [command candidate; "--version"] = Failed e /\
               is_timeout_or_missing e = true) \/
    (exists c, run_answer E history [command candidate; "--version"] = Completed c /\
               returncode c <> 0).

(** The version command of the candidate succeeds. *)
Definition installed (candidate : ContainerRuntime) : Prop :=
  forall history,
    exists c, run_answer E history [command candidate; "--version"] = Completed c /\
              returncode c = 0.

(** A command that does not run is missing or times out: nothing else is
    ever raised. *)
Definition failures_are_missing : Prop :=
  forall history argv e,
    run_answer E history argv = Failed e -> is_timeout_or_missing e = true.

(** Every command runs to completion. *)
Definition commands_complete : Prop :=
  forall history argv, exists c, run_answer E history argv = Completed c.

(** The commands [cleanup] issues for the started containers under podman. *)
Definition podman_teardown (o : ContainerOrchestrator) : list Event :=
  flat_map (fun container =>
              [EvRun ["podman"; "stop"; container] None;
               EvRun ["podman"; "rm"; container] None])
    (containers o)
  ++ [EvRun ["podman"; "pod"; "rm"; project_name o] None].

(** The compose command line with its trailing arguments. *)
Definition compose_argv (rt : ContainerRuntime) (o : ContainerOrchestrator)
    (action : list string) : list string :=
  words (compose_command rt) ++ ["-f"; compose_file o] ++ action.

End Orchestrator.

(** A command that stops, removes, creates or (re)starts containers: one
    of these verbs among the arguments of the program. *)
Definition destructive (ev : Event) : bool :=
  match ev with
  | EvRun argv _ =>
      existsb (fun verb => bool_decide (verb ∈ tail argv))
        ["stop"; "rm"; "create"; "run"; "up"; "down"]
  | _ => false
  end.

Definition harmless (ev : Event) : Prop := destructive ev = false.

(** The orchestrator once the preferred block is recorded in [self.ports]. *)
Definition allocated (o : ContainerOrchestrator) : ContainerOrchestrator :=
  set_ports (fun _ => [("app", 8090); ("postgres", 8091); ("mongo", 8092)]) o.


(** The state after the version command of a candidate was run. *)
Definition tried (candidate : ContainerRuntime) (st : St ContainerOrchestrator)
    : St ContainerOrchestrator :=
  {| self := self st;
     trace := trace st ++ [EvRun [command candidate; "--version"] None] |}.


(** The orchestrator [o'] is [o] with [started] appended to its list of
    started containers, and nothing else changed. *)
Definition grown_by (started : list string) (o o' : ContainerOrchestrator) : Prop :=
  containers o' = containers o ++ started /\
  runtime o' = runtime o /\ ports o' = ports o /\
  compose_file o' = compose_file o /\ project_name o' = project_name o.

End container_orchestrator.

(** ** Concrete machines used below *)

Module machines.

(** A machine without any of the diagnosis tools, on which exactly the
    ports of [busy] are taken. *)
Definition bare (busy : list Z) : Env :=
  {| platform := "linux";
     getcwd := "/work";
     environ := ∅;
     resolves := fun _ => true;
     bind_ok := fun _ p => negb (bool_decide (p ∈ busy));
     run_answer := fun _ _ => Failed (Exn FileNotFoundError_ "No such file or directory") |}.

Definition start : St unit := {| self := tt; trace := [] |}.

(** A machine with podman on which the two containers are up and healthy;
    the ports of [busy] are taken and the diagnosis tools are missing. *)
Definition podman_runtime : container_orchestrator.ContainerRuntime :=
  {| container_orchestrator.name := "podman";
     container_orchestrator.command := "podman";
     container_orchestrator.compose_command := "podman-compose";
     container_orchestrator.runtime_available := true;
     container_orchestrator.version := "podman version 4.9.3" |}.

Definition healthy_answer (argv : list string) : RunOutcome :=
  match argv with
  | _ :: verb :: _ =>
      if String.eqb verb "ps" then
        Completed {| returncode := 0;
                     stdout := "test-postgres" +:+ nl +:+ "test-mongo" +:+ nl;
                     stderr := "" |}
      else if String.eqb verb "exec" then
        Completed {| returncode := 0; stdout := ""; stderr := "" |}
      else Failed (Exn FileNotFoundError_ "No such file or directory")
  | _ => Failed (Exn FileNotFoundError_ "No such file or directory")
  end.

Definition healthy (busy : list Z) : Env :=
  {| platform := "linux";
     getcwd := "/work";
     environ := ∅;
     resolves := fun _ => true;
     bind_ok := fun _ p => negb (bool_decide (p ∈ busy));
     run_answer := fun _ => healthy_answer |}.

(** The orchestrator after a first, successful start under podman. *)
Definition started : St container_orchestrator.ContainerOrchestrator :=
  {| self :=
       {| container_orchestrator.runtime := Some podman_runtime;
          container_orchestrator.containers := ["test-postgres"; "test-mongo"];
          container_orchestrator.compose_file := "docker-compose.test.yml";
          container_orchestrator.project_name := "test-env";
          container_orchestrator.ports := [("app", 8090); ("postgres", 8091); ("mongo", 8092)] |};
     trace := [] |}.



(** A machine on which lsof works and shows nginx, and whose other tools
    are missing. *)
Definition lsof_answer (argv : list string) : RunOutcome :=
  match argv with
  | program :: _ =>
      if String.eqb program "lsof" then
        Completed {| returncode := 0;
                     stdout := "COMMAND PID USER FD TYPE DEVICE SIZE/OFF NODE NAME" +:+ nl +:+
                               "nginx 1234 root 6u IPv4 31337 0t0 TCP *:8090 (LISTEN)" +:+ nl;
                     stderr := "" |}
      else Failed (Exn FileNotFoundError_ "No such file or directory")
  | [] => Failed (Exn FileNotFoundError_ "No such file or directory")
  end.

Definition with_lsof : Env :=
  {| platform := "linux";
     getcwd := "/work";
     environ := ∅;
     resolves := fun _ => true;
     bind_ok := fun _ p => negb (bool_decide (p = 8090));
     run_answer := fun _ => lsof_answer |}.

(** A machine on which no program may be executed. *)
Definition denied : Env :=
  {| platform := "linux";
     getcwd := "/work";
     environ := ∅;
     resolves := fun _ => true;
     bind_ok := fun _ p => negb (bool_decide (p = 8090));
     run_answer := fun _ _ => Failed (Exn PermissionError_ "Permission denied") |}.

(** A machine with docker (and its built-in compose) as the only engine. *)
Definition docker_answer (argv : list string) : RunOutcome :=
  match argv with
  | [program; _] =>
      if String.eqb program "docker" then
        Completed {| returncode := 0;
                     stdout := "Docker version 24.0.7, build afdd53b" +:+ nl;
                     stderr := "" |}
      else Failed (Exn FileNotFoundError_ "No such file or directory")
  | _ => Failed (Exn FileNotFoundError_ "No such file or directory")
  end.

Definition docker_only : Env :=
  {| platform := "linux";
     getcwd := "/work";
     environ := ∅;
     resolves := fun _ => true;
     bind_ok := fun _ _ => true;
     run_answer := fun _ => docker_answer |}.

(** A machine on which every command runs and exits with 0. *)
Definition compliant : Env :=
  {| platform := "linux";
     getcwd := "/work";
     environ := {[ "HOME" := "/root" ]};
     resolves := fun _ => true;
     bind_ok := fun _ _ => true;
     run_answer := fun _ _ => Completed {| returncode := 0; stdout := "ok"; stderr := "" |} |}.

(** A new orchestrator. *)
Definition idle : St container_orchestrator.ContainerOrchestrator :=
  {| self := container_orchestrator.new; trace := [] |}.

Definition docker_runtime : container_orchestrator.ContainerRuntime :=
  {| container_orchestrator.name := "docker";
     container_orchestrator.command := "docker";
     container_orchestrator.compose_command := "docker compose";
     container_orchestrator.runtime_available := true;
     container_orchestrator.version := "Docker version 24.0.7, build afdd53b" |}.

(** An orchestrator under docker with the preferred block allocated. *)
Definition docker_session : St container_orchestrator.ContainerOrchestrator :=
  {| self :=
       {| container_orchestrator.runtime := Some docker_runtime;
          container_orchestrator.containers := [];
          container_orchestrator.compose_file := "docker-compose.test.yml";
          container_orchestrator.project_name := "test-env";
          container_orchestrator.ports := [("app", 8090); ("postgres", 8091); ("mongo", 8092)] |};
     trace := [] |}.


(** A machine of a platform for which no diagnosis tool is known. *)
Definition bsd : Env :=
  {| platform := "freebsd13";
     getcwd := "/work";
     environ := ∅;
     resolves := fun _ => true;
     bind_ok := fun _ p => negb (bool_decide (p = 8090));
     run_answer := fun _ _ => Failed (Exn FileNotFoundError_ "No such file or directory") |}.

End machines.

(** ** Concrete registries used below *)

Module registry_examples.
Import port_manager.

Definition fresh_4000 : System :=
  {| manager := init (Some 4000) None Absent; port_file := Absent; saves := 0 |}.

(** A registry configured with base 4000 hands out port 4000; the next
    process is configured with base 5000 and loads the file left behind. *)
Definition raised_floor : System :=
  restart (Some 5000) None (fst (assign_port "2025-01-01T00:00:00" "app" "http" fresh_4000)).


(** The registry after "postgres" and "mongo" were assigned from scratch. *)
Definition two_services : System :=
  fst (assign_port "2025-01-01T00:00:01" "mongo" "MongoDB Database"
         (fst (assign_port "2025-01-01T00:00:00" "postgres" "PostgreSQL Database"
                 fresh_4000))).

End registry_examples.

(** * Properties *)

Example str_8090 : str 8090 = "8090". Proof. reflexivity. Qed.
Example str_neg : str (-5) = "-5". Proof. reflexivity. Qed.
Example str_0 : str 0 = "0". Proof. reflexivity. Qed.
Example split_ex : split "ab" "xabyabab" = ["x"; "y"; ""; ""]. Proof. reflexivity. Qed.
Example split_ex2 : split "aa" "aaa" = [""; "a"]. Proof. reflexivity. Qed.
Example split1_ex : split1 "/" "12/a/b" = ["12"; "a/b"]. Proof. reflexivity. Qed.
Example words_ex : words "  a  bc d " = ["a"; "bc"; "d"]. Proof. reflexivity. Qed.
Example strip_ex : strip "  a b  " = "a b". Proof. reflexivity. Qed.
Example find_ex : find "b" "abcb" 2 = 3. Proof. reflexivity. Qed.
Example find_ex2 : find "z" "abcb" 0 = -1. Proof. reflexivity. Qed.
Example slice_ex : slice "abcdef" 2 4 = "cd". Proof. reflexivity. Qed.
Example upper_ex : upper "app-x1" = "APP-X1". Proof. reflexivity. Qed.
Example range_ex : range 3 = [0; 1; 2]. Proof. reflexivity. Qed.

(** ** The port registry *)

Section Registry.
Import port_manager.

Lemma init_base_port arg env file :
  base_port (init arg env file) =
  match arg with
  | Some b => if b =? 0 then default 4000 env else b
  | None => default 4000 env
  end.
Proof. unfold init, _load_assignments. destruct file; reflexivity. Qed.

Lemma load_cursor_ge_base file self :
  base_port self <= current_port self ->
  base_port (_load_assignments file self) <= current_port (_load_assignments file self).
Proof.
  intros Hle. destruct file as [| |d]; simpl; try lia.
  destruct (Z.ltb_spec (default (base_port self) (doc_next_port d)) (base_port self)); lia.
Qed.

Lemma load_clamps_up arg env d :
  let m := init arg env (Json d) in
  current_port m = Z.max (base_port m) (default (base_port m) (doc_next_port d)).
Proof.
  unfold init, _load_assignments; simpl.
  match goal with |- context [?a <? ?b] => destruct (Z.ltb_spec a b) end; lia.
Qed.

Lemma reachable_cursor allowed sys :
  reachable allowed sys ->
  cursor_ge_base sys /\ cursor_above_assigned sys /\ file_cursor_ok (port_file sys).
Proof.
  unfold cursor_ge_base, cursor_above_assigned.
  induction 1 as [arg env file Hfile _
                 | sys now service purpose _ (Hge & Habove & Hfileok)
                 | sys service _ (Hge & Habove & Hfileok)
                 | sys _ (Hge & Habove & Hfileok)
                 | sys arg env _ (Hge & Habove & Hfileok) _].
  - destruct Hfile as [-> | ->]; simpl; repeat split; try lia;
      intros service entry Hl; rewrite lookup_empty in Hl; discriminate.
  - unfold assign_port.
    destruct (assigned_ports (manager sys) !! service) as [entry|] eqn:Hlook; simpl.
    + auto.
    + split; [lia |]. split.
      * intros s e Hl. rewrite lookup_insert in Hl.
        case_decide; simplify_eq; simpl; [lia |]. apply Habove in Hl. lia.
      * eexists _, _. split; [reflexivity |]. split; [reflexivity |].
        intros s e Hl. rewrite lookup_insert in Hl.
        case_decide; simplify_eq; simpl; [lia |]. apply Habove in Hl. lia.
  - unfold release_port.
    destruct (assigned_ports (manager sys) !! service) as [entry|] eqn:Hlook; simpl.
    + split; [lia |]. split.
      * intros s e Hl. rewrite lookup_delete in Hl.
        case_decide; simplify_eq. eauto.
      * eexists _, _. split; [reflexivity |]. split; [reflexivity |].
        intros s e Hl. rewrite lookup_delete in Hl.
        case_decide; simplify_eq. eauto.
    + auto.
  - simpl. split; [lia |]. split.
    + intros s e Hl. rewrite lookup_empty in Hl. discriminate.
    + eexists _, _. split; [reflexivity |]. split; [reflexivity |].
      intros s e Hl. rewrite lookup_empty in Hl. discriminate.
  - simpl. split; [| split; [| assumption]].
    + unfold init. apply load_cursor_ge_base. simpl. lia.
    + unfold init. destruct (port_file sys) as [| |d]; simpl in *;
        try (intros s e Hl; rewrite lookup_empty in Hl; discriminate).
      destruct Hfileok as (n & m & -> & -> & Hm). simpl.
      intros s e Hl. apply Hm in Hl.
      match goal with |- context [?a <? ?b] => destruct (Z.ltb_spec a b) end; lia.
Qed.

Lemma reachable_floor b sys :
  reachable (eq b) sys ->
  base_port (manager sys) = b /\ assigned_ge_base sys /\ file_floor_ok b (port_file sys).
Proof.
  unfold assigned_ge_base.
  induction 1 as [arg env file Hfile Hb
                 | sys now service purpose Hreach (Hbase & Hfloor & Hfileok)
                 | sys service _ (Hbase & Hfloor & Hfileok)
                 | sys _ (Hbase & Hfloor & Hfileok)
                 | sys arg env _ (Hbase & Hfloor & Hfileok) Hb].
  - simpl. split; [auto |]. destruct Hfile as [-> | ->]; simpl; split; auto;
      intros service entry Hl; rewrite lookup_empty in Hl; discriminate.
  - pose proof (reachable_cursor _ _ Hreach) as (Hge & _ & _).
    unfold cursor_ge_base in Hge. unfold assign_port.
    destruct (assigned_ports (manager sys) !! service) as [entry|] eqn:Hlook; simpl.
    + auto.
    + split; [assumption |]. split.
      * intros s e Hl. rewrite lookup_insert in Hl.
        case_decide; simplify_eq; simpl; [lia | eauto].
      * intros m s e Hm Hl. simplify_eq. rewrite lookup_insert in Hl.
        case_decide; simplify_eq; simpl; [lia |]. apply Hfloor in Hl. lia.
  - unfold release_port.
    destruct (assigned_ports (manager sys) !! service) as [entry|] eqn:Hlook; simpl.
    + split; [assumption |]. split.
      * intros s e Hl. rewrite lookup_delete in Hl. case_decide; simplify_eq. eauto.
      * intros m s e Hm Hl. simplify_eq. rewrite lookup_delete in Hl.
        case_decide; simplify_eq. apply Hfloor in Hl. lia.
    + auto.
  - simpl. split; [assumption |]. split.
    + intros s e Hl. rewrite lookup_empty in Hl. discriminate.
    + intros m s e Hm Hl. simplify_eq.
  - simpl. split; [auto |]. split; [| assumption].
    rewrite <- Hb. clear Hb. unfold init.
    destruct (port_file sys) as [| |d]; simpl in *;
      try (intros s e Hl; rewrite lookup_empty in Hl; discriminate).
    intros s e Hl. destruct (doc_assignments d) as [m|] eqn:Hd; simpl in Hl.
    + eapply Hfileok; eauto.
    + rewrite lookup_empty in Hl. discriminate.
Qed.

Lemma assign_port_known now service purpose sys entry :
  assigned_ports (manager sys) !! service = Some entry ->
  assign_port now service purpose sys = (sys, a_port entry).
Proof. intros Hlook. unfold assign_port. rewrite Hlook. reflexivity. Qed.

Lemma assign_port_records now service purpose sys :
  exists entry,
    assigned_ports (manager (fst (assign_port now service purpose sys))) !! service
      = Some entry /\
    a_port entry = snd (assign_port now service purpose sys).
Proof.
  unfold assign_port.
  destruct (assigned_ports (manager sys) !! service) as [entry|] eqn:Hlook; simpl.
  - eauto.
  - rewrite lookup_insert_eq. eauto.
Qed.

(** C4. Calling [assign_port] twice in a row with the same service name
    returns the same port both times, and the second call leaves the whole
    system as the first one left it: registry (cursor and assignment
    entries), file and number of saves. *)
Theorem assign_port_idempotent sys service now1 purpose1 now2 purpose2 :
  let first := assign_port now1 service purpose1 sys in
  let second := assign_port now2 service purpose2 (fst first) in
  snd second = snd first /\
  fst second = fst first /\
  current_port (manager (fst second)) = current_port (manager (fst first)) /\
  port_file (fst second) = port_file (fst first) /\
  saves (fst second) = saves (fst first) /\
  assigned_ports (manager (fst second)) = assigned_ports (manager (fst first)).
Proof.
  simpl.
  destruct (assign_port_records now1 service purpose1 sys) as (entry & Hlook & Hport).
  rewrite (assign_port_known now2 service purpose2 _ _ Hlook), Hport. simpl. auto 10.
Qed.

(** C9. [release_port] answers [True] exactly when the service had an
    assignment; afterwards the service has none, and the base port, the
    cursor and the entry of every other service are as before.  When it
    answers [False] nothing at all has changed. *)
Theorem release_port_frame sys service :
  let r := release_port service sys in
  (snd r = true <-> is_Some (assigned_ports (manager sys) !! service)) /\
  (snd r = false <-> assigned_ports (manager sys) !! service = None) /\
  assigned_ports (manager (fst r)) !! service = None /\
  base_port (manager (fst r)) = base_port (manager sys) /\
  current_port (manager (fst r)) = current_port (manager sys) /\
  (forall other, other <> service ->
     assigned_ports (manager (fst r)) !! other = assigned_ports (manager sys) !! other) /\
  (snd r = false -> fst r = sys).
Proof.
  simpl. unfold release_port.
  destruct (assigned_ports (manager sys) !! service) as [entry|] eqn:Hlook; simpl.
  - repeat split; try done; eauto.
    + apply lookup_delete_eq.
    + intros other Hne. by apply lookup_delete_ne.
  - repeat split; done.
Qed.

(** C8, counterexample. After a restart under a raised base port the
    registry still holds the assignment made under the old one: port 4000
    is assigned while [base_port] is 5000. *)
Lemma raised_floor_keeps_low_assignment :
  reachable (fun _ => True) registry_examples.raised_floor /\
  ~ assigned_ge_base registry_examples.raised_floor.
Proof.
  split.
  - unfold registry_examples.raised_floor.
    apply reach_restart; [| exact I].
    apply reach_assign.
    apply reach_first; [left; reflexivity | exact I].
  - intros Hall.
    specialize (Hall "app"
      {| a_port := 4000; a_purpose := "http"; assigned_at := "2025-01-01T00:00:00" |}).
    assert (Hlook : assigned_ports (manager registry_examples.raised_floor) !! "app" =
                    Some {| a_port := 4000; a_purpose := "http";
                            assigned_at := "2025-01-01T00:00:00" |})
      by (vm_compute; reflexivity).
    specialize (Hall Hlook). vm_compute in Hall. apply Hall. reflexivity.
Qed.

(** C8, as the code has it. Across any sequence of [assign_port],
    [release_port], [reset_assignments] and restarts (each restart under a
    base port of its own), starting without a usable file:
    [next_port >= base_port] and [next_port >= port + 1] for every assigned
    port; a load clamps the persisted cursor up to the base port and never
    lowers it.  [port >= base_port] for every assigned port holds as long
    as all the processes are configured with the same base port. *)
Theorem registry_invariant :
  (forall allowed sys, reachable allowed sys ->
     cursor_ge_base sys /\ cursor_above_assigned sys) /\
  (forall arg env d,
     let m := init arg env (Json d) in
     current_port m = Z.max (base_port m) (default (base_port m) (doc_next_port d))) /\
  (forall b sys, reachable (eq b) sys -> assigned_ge_base sys).
Proof.
  split; [| split].
  - intros allowed sys Hreach.
    destruct (reachable_cursor _ _ Hreach) as (? & ? & _). auto.
  - apply load_clamps_up.
  - intros b sys Hreach. destruct (reachable_floor _ _ Hreach) as (_ & ? & _). auto.
Qed.

(** C8 at work: the registry after one assignment under base 4000. *)
Lemma registry_invariant_witness :
  let sys :=
    fst (assign_port "2025-01-01T00:00:00" "app" "http" registry_examples.fresh_4000) in
  reachable (eq 4000) sys /\
  (cursor_ge_base sys /\ cursor_above_assigned sys) /\
  assigned_ge_base sys /\
  current_port (init (Some 5000) None (port_file sys)) = 5000.
Proof.
  assert (Hreach : reachable (eq 4000)
            (fst (assign_port "2025-01-01T00:00:00" "app" "http"
                    registry_examples.fresh_4000))).
  { apply reach_assign. apply reach_first; [left; reflexivity | reflexivity]. }
  destruct registry_invariant as (Hcursor & Hclamp & Hfloor).
  split; [exact Hreach |]. split; [exact (Hcursor _ _ Hreach) |].
  split; [exact (Hfloor _ _ Hreach) |].
  exact (Hclamp (Some 5000) None
           {| doc_base_port := Some 4000; doc_next_port := Some 4001;
              doc_assignments :=
                Some (assigned_ports
                        (manager (fst (assign_port "2025-01-01T00:00:00" "app" "http"
                                         registry_examples.fresh_4000)))) |}).
Defined.

(** C9 at work: releasing "app" after it was assigned. *)
Lemma release_port_frame_witness :
  let sys :=
    fst (assign_port "2025-01-01T00:00:00" "app" "http" registry_examples.fresh_4000) in
  let r := release_port "app" sys in
  snd r = true /\
  assigned_ports (manager (fst r)) !! "app" = None /\
  current_port (manager (fst r)) = 4001 /\
  base_port (manager (fst r)) = 4000.
Proof.
  pose proof (release_port_frame
                (fst (assign_port "2025-01-01T00:00:00" "app" "http"
                        registry_examples.fresh_4000)) "app")
    as (Htrue & _ & Hgone & Hbase & Hcursor & _).
  cbv zeta. split; [reflexivity |]. split; [exact Hgone |].
  split; [rewrite Hcursor; reflexivity | rewrite Hbase; reflexivity].
Defined.

Example assign_port_twice :
  let first := assign_port "t1" "app" "http" registry_examples.fresh_4000 in
  let second := assign_port "t2" "app" "other" (fst first) in
  snd first = 4000 /\ snd second = 4000 /\
  get_next_port (fst first) = 4001 /\ get_next_port (fst second) = 4001 /\
  saves (fst first) = 1%nat /\ saves (fst second) = 1%nat.
Proof. repeat split. Qed.

End Registry.

(** ** Strings *)

Section Strings.

Lemma string_app_cons c (a b : string) : String c a +:+ b = String c (a +:+ b).
Proof. reflexivity. Qed.

Lemma string_app_nil_r (s : string) : s +:+ "" = s.
Proof.
  induction s as [|c s IH]; [reflexivity |]. by rewrite string_app_cons, IH.
Qed.

Lemma string_app_assoc (a b c : string) : (a +:+ b) +:+ c = a +:+ (b +:+ c).
Proof.
  induction a as [|x a IH]; [reflexivity |]. by rewrite !string_app_cons, IH.
Qed.

Lemma string_app_length (a b : string) :
  String.length (a +:+ b) = (String.length a + String.length b)%nat.
Proof.
  induction a as [|x a IH]; [reflexivity |].
  rewrite string_app_cons. simpl. by rewrite IH.
Qed.

Lemma startswith_app (p s : string) : startswith p (p +:+ s) = true.
Proof.
  induction p as [|c p IH]; [reflexivity |].
  rewrite string_app_cons. simpl. by rewrite Ascii.eqb_refl.
Qed.

Lemma startswith_inv (p s : string) :
  startswith p s = true -> exists rest, s = p +:+ rest.
Proof.
  revert s. induction p as [|c p IH]; intros s Hs; simpl in *.
  - by exists s.
  - destruct s as [|d s]; [discriminate |].
    destruct (Ascii.eqb_spec c d) as [->|]; [| discriminate].
    destruct (IH _ Hs) as [rest ->]. by exists rest.
Qed.

Lemma split_aux_nonempty sep skip cur s : split_aux sep skip cur s <> [].
Proof.
  revert skip cur. induction s as [|c s IH]; intros skip cur; simpl; [done |].
  destruct skip; [| apply IH]. destruct (startswith sep (String c s)); [done | apply IH].
Qed.

Lemma split_aux_skip sep x cur rest :
  split_aux sep (String.length x) cur (x +:+ rest) = split_aux sep 0 cur rest.
Proof. induction x as [|c x IH]; simpl; [reflexivity | exact IH]. Qed.

(** Splitting a text that starts with the separator: an empty first piece,
    then the pieces of what follows. *)
Lemma split_prefix sep rest :
  sep <> "" -> split sep (sep +:+ rest) = "" :: split sep rest.
Proof.
  intros Hsep. destruct sep as [|c sep]; [done |]. unfold split.
  change (String c sep +:+ rest) with (String c (sep +:+ rest)).
  cbn -[startswith].
  change (String c (sep +:+ rest)) with (String c sep +:+ rest).
  rewrite startswith_app. rewrite Nat.sub_0_r.
  by rewrite split_aux_skip.
Qed.

Lemma split_aux_absent sep cur s :
  contains sep s = false -> split_aux sep 0 cur s = [cur +:+ s].
Proof.
  revert cur. induction s as [|c s IH]; intros cur Hno; simpl.
  - by rewrite string_app_nil_r.
  - simpl in Hno. apply orb_false_iff in Hno as [Hhere Hlater].
    rewrite Hhere, IH by done. by rewrite string_app_assoc.
Qed.

(** A text in which the separator does not occur is its own single piece. *)
Lemma split_absent sep s : contains sep s = false -> split sep s = [s].
Proof. intros Hno. unfold split. by rewrite split_aux_absent. Qed.

Lemma concat_cons sep x l :
  l <> [] -> String.concat sep (x :: l) = x +:+ sep +:+ String.concat sep l.
Proof. destruct l; [done | reflexivity]. Qed.

Lemma split_aux_join sep n : sep <> "" -> forall s cur,
  (String.length s <= n)%nat ->
  String.concat sep (split_aux sep 0 cur s) = cur +:+ s.
Proof.
  intros Hsep. induction n as [|n IH]; intros s cur Hlen.
  - destruct s; [simpl; by rewrite string_app_nil_r | simpl in Hlen; lia].
  - destruct s as [|c s]; [simpl; by rewrite string_app_nil_r |].
    cbn -[startswith String.concat].
    destruct (startswith sep (String c s)) eqn:Hpre.
    + apply startswith_inv in Hpre as [rest Hrest].
      destruct sep as [|d sep]; [done |]. simpl in Hrest.
      injection Hrest as -> ->.
      replace (String.length (String d sep) - 1)%nat with (String.length sep)
        by (simpl; lia).
      rewrite split_aux_skip, concat_cons by apply split_aux_nonempty.
      rewrite IH.
      * reflexivity.
      * simpl in Hlen. rewrite string_app_length in Hlen. lia.
    + rewrite IH by (simpl in Hlen; lia). by rewrite string_app_assoc.
Qed.

(** Joining the pieces with the separator gives the text back. *)
Lemma join_split sep s : sep <> "" -> join sep (split sep s) = s.
Proof.
  intros Hsep. unfold join, split.
  by rewrite (split_aux_join sep (String.length s)).
Qed.

Lemma startswith_app_l (p s t : string) :
  startswith p s = true -> startswith p (s +:+ t) = true.
Proof.
  intros Hs. apply startswith_inv in Hs as [rest ->].
  rewrite string_app_assoc. apply startswith_app.
Qed.

Lemma contains_prefix (sub s : string) : contains sub (sub +:+ s) = true.
Proof.
  destruct (sub +:+ s) as [|c rest] eqn:Happ.
  - destruct sub; [reflexivity | discriminate].
  - simpl. rewrite <- Happ, startswith_app. reflexivity.
Qed.

Lemma contains_app_r (sub a b : string) :
  contains sub b = true -> contains sub (a +:+ b) = true.
Proof.
  intros Hb. induction a as [|c a IH]; [exact Hb |].
  rewrite string_app_cons. simpl. rewrite IH. apply orb_true_r.
Qed.

Lemma contains_app_l (sub a b : string) :
  sub <> "" -> contains sub a = true -> contains sub (a +:+ b) = true.
Proof.
  intros Hsub. induction a as [|c a IH]; intros Ha.
  - simpl in Ha. destruct sub; [done | discriminate].
  - rewrite string_app_cons. simpl in *. apply orb_true_iff in Ha as [Ha | Ha].
    + rewrite <- string_app_cons, (startswith_app_l _ _ _ Ha). reflexivity.
    + rewrite IH by done. apply orb_true_r.
Qed.

End Strings.

(** ** Probing and searching ports *)

Section PortsFacts.
Import utils_ports.
Context {Self : Type} (E : Env).

Lemma is_port_available_valid host p (st : St Self) :
  valid_port p = true ->
  _is_port_available E p host st = (Ok (probes_free E host p), probed host p st).
Proof.
  unfold probes_free. intros Hv. rewrite Hv.
  unfold valid_port in Hv. apply andb_true_iff in Hv as [H0 H1].
  unfold _is_port_available, try_except, socket_bind, bind, emit. simpl.
  destruct (resolves E host); simpl; [| reflexivity].
  replace (p <? 0) with false by lia. replace (65535 <? p) with false by lia. simpl.
  destruct (bind_ok E host p); reflexivity.
Qed.

Lemma is_port_available_unresolved host p (st : St Self) :
  resolves E host = false ->
  _is_port_available E p host st = (Ok false, probed host p st).
Proof.
  intros Hr. unfold _is_port_available, try_except, socket_bind, bind, emit. simpl.
  rewrite Hr. reflexivity.
Qed.

Lemma is_port_available_invalid host p (st : St Self) :
  resolves E host = true ->
  valid_port p = false ->
  _is_port_available E p host st =
  (Raise (Exn OverflowError_ "bind(): port must be 0-65535."), probed host p st).
Proof.
  unfold valid_port. intros Hr Hv. apply andb_false_iff in Hv.
  unfold _is_port_available, try_except, socket_bind, bind, emit. simpl.
  rewrite Hr. simpl.
  replace ((p <? 0) || (65535 <? p)) with true by (destruct Hv; lia).
  reflexivity.
Qed.

(** The probe either raises (invalid port) or answers [probes_free]. *)
Lemma is_port_available_ok host p (st st' : St Self) b :
  _is_port_available E p host st = (Ok b, st') ->
  b = probes_free E host p.
Proof.
  destruct (valid_port p) eqn:Hv.
  - rewrite is_port_available_valid by done. by intros [= <- <-].
  - destruct (resolves E host) eqn:Hr.
    + rewrite is_port_available_invalid by done. discriminate.
    + rewrite is_port_available_unresolved by done. intros [= <- <-].
      unfold probes_free. by rewrite Hv.
Qed.

Lemma range_length count : 0 <= count -> len_list (range count) = count.
Proof. intros H. unfold len_list, range. rewrite length_map, length_seq. lia. Qed.

Lemma window_length p count : 0 <= count -> len_list (window p count) = count.
Proof. intros H. unfold window, len_list. rewrite length_map. by apply range_length. Qed.

Lemma range_lookup count i :
  0 <= i < count -> range count !! Z.to_nat i = Some i.
Proof.
  intros H. unfold range. rewrite list_lookup_fmap, lookup_seq_lt by lia.
  simpl. f_equal. lia.
Qed.

Lemma window_lookup p count i :
  0 <= i < count -> window p count !! Z.to_nat i = Some (p + i).
Proof.
  intros H. unfold window. by rewrite list_lookup_fmap, range_lookup.
Qed.

Lemma elem_of_range count i : i ∈ range count <-> 0 <= i < count.
Proof.
  unfold range. rewrite list_elem_of_fmap. split.
  - intros (n & -> & Hn). apply elem_of_seq in Hn. lia.
  - intros H. exists (Z.to_nat i). split; [lia |]. apply elem_of_seq. lia.
Qed.

Lemma elem_of_window p count q : q ∈ window p count <-> p <= q < p + count.
Proof.
  unfold window. rewrite list_elem_of_fmap. split.
  - intros (i & -> & Hi). apply elem_of_range in Hi. lia.
  - intros H. exists (q - p). split; [lia |]. apply elem_of_range. lia.
Qed.

(** The inner scan: with everything free it collects the whole window;
    otherwise it stops and reports a busy port. *)
Lemma scan_window_ok host cur idx ports (st st' : St Self) ps all :
  scan_window E cur host idx ports st = (Ok (ps, all), st') ->
  all = forallb (probes_free E host) (map (Z.add cur) idx) /\
  (all = true -> ps = ports ++ map (Z.add cur) idx).
Proof.
  revert ports st. induction idx as [|i idx IH]; intros ports st; simpl.
  - unfold ret. intros [= <- <- <-]. split; [done |]. by rewrite app_nil_r.
  - unfold bind.
    destruct (_is_port_available E (cur + i) host st) as [[b|e] st1] eqn:Hprobe;
      [| discriminate].
    apply is_port_available_ok in Hprobe as ->.
    destruct (probes_free E host (cur + i)) eqn:Hfree.
    + intros Hscan. apply IH in Hscan as [-> Hall]. split; [done |].
      intros Htrue. rewrite (Hall Htrue), <- app_assoc. reflexivity.
    + unfold ret. intros [= <- <- <-]. done.
Qed.

Lemma find_loop_ok attempts base count host : 1 <= count ->
  forall cur (st st' : St Self) found,
  find_loop E attempts base count host cur st = (Ok found, st') ->
  exists p,
    cur <= p < cur + Z.of_nat attempts /\
    found = window p count /\
    window_free E host p count = true /\
    (forall q, cur <= q < p -> window_free E host q count = false).
Proof.
  intros Hcount. induction attempts as [|attempts IH]; intros cur st st' found; simpl.
  - discriminate.
  - unfold bind at 1.
    destruct (scan_window E cur host (range count) [] st) as [[[ps all]|e] st1] eqn:Hscan;
      [| discriminate].
    apply scan_window_ok in Hscan as [Hall Hps].
    destruct (all && (len_list ps =? count)) eqn:Hdone.
    + unfold ret. intros [= <- <-].
      apply andb_true_iff in Hdone as [-> _]. exists cur.
      split; [lia |]. split; [by rewrite Hps |]. split; [by rewrite Hall |]. lia.
    + assert (Hbusy : window_free E host cur count = false).
      { unfold window_free, window. rewrite <- Hall.
        destruct all; [| done]. simpl in Hdone. rewrite Hps in Hdone by done.
        pose proof (window_length cur count) as Hlen. unfold window in Hlen.
        simpl in Hdone. rewrite Hlen in Hdone by lia. lia. }
      destruct (cur + 1 + count - 1 >? 65535); [discriminate |].
      intros Hloop. apply IH in Hloop as (p & Hp & -> & Hfree & Hleast).
      exists p. split; [lia |]. split; [done |]. split; [done |].
      intros q Hq. destruct (decide (q = cur)) as [->|]; [done |]. apply Hleast. lia.
Qed.




(** C3. Whenever [find_sequential_ports base count] returns, what it
    returns is the window [[p, p+1, ..., p+count-1]] of the least start
    [p >= base] whose window probes as available throughout, and [p] lies
    within the thousand attempts.  So the result increases by one from
    element to element, holds no port that probed busy, and starts strictly
    above [base] whenever the window at [base] holds a busy port. *)
Theorem find_sequential_ports_least_window base count host (st st' : St Self) found :
  1 <= count ->
  find_sequential_ports E base count host st = (Ok found, st') ->
  exists p,
    found = window p count /\
    base <= p < base + 1000 /\
    window_free E host p count = true /\
    (forall q, base <= q < p -> window_free E host q count = false) /\
    len_list found = count /\
    (forall i, 0 <= i < count -> found !! Z.to_nat i = Some (p + i)) /\
    Forall (fun port => probes_free E host port = true) found /\
    (window_free E host base count = false -> base < p).
Proof.
  intros Hcount. unfold find_sequential_ports.
  replace (count <? 1) with false by lia.
  intros Hloop. apply find_loop_ok in Hloop as (p & Hp & -> & Hfree & Hleast); [| done].
  exists p. split; [done |]. split; [unfold max_attempts in Hp; lia |].
  split; [done |]. split; [done |]. split; [apply window_length; lia |].
  split; [apply window_lookup |]. split.
  - unfold window_free in Hfree. rewrite forallb_forall in Hfree.
    apply Forall_forall. intros port Hin. apply Hfree. by apply list_elem_of_In.
  - intros Hbase. destruct (decide (p = base)) as [->|]; [congruence | lia].
Qed.

(** C5, the failing input. For a host that resolves, probing a port
    outside 0..65535 (65536, say) does not answer [False]: the
    [OverflowError] of [bind] is not an [OSError] and escapes. *)
Theorem is_port_available_raises_on_invalid_port host p (st : St Self) :
  resolves E host = true ->
  valid_port p = false ->
  fst (_is_port_available E p host st) =
  Raise (Exn OverflowError_ "bind(): port must be 0-65535.").
Proof. intros Hr Hv. by rewrite is_port_available_invalid. Qed.

(** C6. A count below one, or a block that ends above 65535, is refused
    with [available = False], the requested range, no busy port and the
    matching message, and nothing is probed: the trace is unchanged. *)
Theorem check_rejects_bad_input base count host (st : St Self) :
  count < 1 \/ 65535 < base + count - 1 ->
  check_sequential_port_block E base count host st =
  (Ok {| block_available := false;
         requested_range := (base, base + count - 1);
         busy_ports := [];
         error_message :=
           Some (if count <? 1 then "Count must be at least 1"
                 else "Port range " +:+ str base +:+ "-" +:+ str (base + count - 1) +:+
                      " exceeds maximum port number 65535") |},
   st).
Proof.
  intros Hbad. unfold check_sequential_port_block.
  destruct (count <? 1) eqn:Hc; [reflexivity |].
  replace (base + count - 1 >? 65535) with true by lia. reflexivity.
Qed.

(** *** Process attribution *)

Lemma yields_ret_none P : yields (Self := Self) P (ret None).
Proof. intros st r st' [=]. Qed.

Lemma yields_ret_some P s : P s -> yields (Self := Self) P (ret (Some s)).
Proof. intros HP st r st' [= <- <-]. done. Qed.

Lemma yields_raise P e : yields (Self := Self) P (raise e).
Proof. intros st r st' [=]. Qed.

Lemma yields_bind {A} P (m : M Self A) k :
  (forall a, yields P (k a)) -> yields P (bind m k).
Proof.
  intros Hk st r st'. unfold bind.
  destruct (m st) as [[a|e] st1]; [apply Hk | discriminate].
Qed.

(** [m], and when [m] falls through, [rest]. *)
Lemma yields_or_else P (m rest : M Self (option string)) :
  yields P m -> yields P rest ->
  yields P (bind m (fun found =>
                      match found with
                      | Some s => ret (Some s)
                      | None => rest
                      end)).
Proof.
  intros Hm Hrest st r st'. unfold bind.
  destruct (m st) as [[[s|]|e] st1] eqn:Hrun; [| apply Hrest | discriminate].
  intros [= <- <-]. eapply Hm, Hrun.
Qed.

Lemma yields_try P m catches h :
  yields (Self := Self) P m -> (forall e, yields P (h e)) ->
  yields P (try_except m catches h).
Proof.
  intros Hm Hh st r st'. unfold try_except.
  destruct (m st) as [[a|e] st1] eqn:Hrun.
  - intros [= -> <-]. eapply Hm, Hrun.
  - destruct (catches e); [apply Hh | discriminate].
Qed.

Ltac yields_step :=
  first
    [ assumption
    | apply yields_ret_none
    | apply yields_raise
    | apply yields_ret_some; right; reflexivity
    | apply yields_try; [| intros ?]
    | apply yields_or_else
    | apply yields_bind; intros ?
    | match goal with
      | |- yields _ (if ?b then _ else _) => destruct b
      | |- yields _ (match ?x with _ => _ end) => destruct x
      end ].

Lemma via_lsof_names p : yields (Self := Self) names_a_process (via_lsof E p).
Proof. unfold via_lsof, tool_attempt. repeat yields_step. Qed.

Lemma netstat_lines_names p lines :
  yields (Self := Self) names_a_process (netstat_lines p lines).
Proof. induction lines as [|line lines IH]; simpl; repeat yields_step. Qed.

Lemma via_netstat_names p : yields (Self := Self) names_a_process (via_netstat E p).
Proof.
  unfold via_netstat, tool_attempt. repeat yields_step. apply netstat_lines_names.
Qed.

Lemma ss_lines_names p lines :
  yields (Self := Self) names_a_process (ss_lines p lines).
Proof.
  induction lines as [|line lines IH]; simpl; [apply yields_ret_none |].
  unfold ss_users. repeat yields_step.
Qed.

Lemma via_ss_names p : yields (Self := Self) names_a_process (via_ss E p).
Proof.
  unfold via_ss, tool_attempt. repeat yields_step. apply ss_lines_names.
Qed.

Lemma via_tasklist_names pid : yields (Self := Self) names_a_process (via_tasklist E pid).
Proof. unfold via_tasklist, tool_attempt. repeat yields_step. Qed.

Lemma windows_lines_names p lines :
  yields (Self := Self) names_a_process (windows_lines E p lines).
Proof.
  induction lines as [|line lines IH]; simpl; [apply yields_ret_none |].
  destruct (_ && _); [| exact IH].
  destruct (_ >=? _); [| exact IH].
  apply yields_bind. intros pid.
  apply yields_or_else; [apply via_tasklist_names |].
  apply yields_ret_some. right. reflexivity.
Qed.

Lemma via_windows_netstat_names p : yields (Self := Self) names_a_process (via_windows_netstat E p).
Proof.
  unfold via_windows_netstat, tool_attempt. repeat yields_step.
  apply windows_lines_names.
Qed.

Lemma first_of_names ms :
  Forall (yields names_a_process) ms -> yields (Self := Self) names_a_process (first_of ms).
Proof.
  induction 1 as [|m ms Hm _ IH]; simpl; [apply yields_ret_none |].
  by apply yields_or_else.
Qed.

(** Process attribution never raises and always answers a description. *)
Lemma get_process_using_port_total p (st : St Self) :
  exists info st',
    _get_process_using_port E p st = (Ok info, st') /\ names_a_process info.
Proof.
  unfold _get_process_using_port, try_except, bind.
  match goal with
  | |- context [match ?m st with _ => _ end] =>
      assert (Hnames : yields names_a_process m);
      [| destruct (m st) as [[[s|]|e] st1] eqn:Hrun]
  end.
  - destruct (_ || _).
    + apply first_of_names.
      repeat apply Forall_cons_2; [apply via_lsof_names | apply via_netstat_names
                                  | apply via_ss_names | apply Forall_nil_2].
    + destruct (startswith "win" (platform E));
        [apply via_windows_netstat_names | apply yields_ret_none].
  - simpl. eexists _, _. split; [reflexivity |]. eapply Hnames, Hrun.
  - simpl. eexists _, _. split; [reflexivity |]. by left.
  - simpl. eexists _, _. split; [reflexivity |]. by left.
Qed.

Lemma names_a_process_nonempty info : names_a_process info -> nonempty info = true.
Proof.
  intros [-> | Hstart]; [reflexivity |]. destruct info; [discriminate | reflexivity].
Qed.

(** *** The pre-flight check *)

Lemma seq_sorted a n : StronglySorted lt (seq a n).
Proof.
  revert a. induction n as [|n IH]; intros a; simpl; constructor; [apply IH |].
  apply Forall_forall. intros x Hx. apply elem_of_seq in Hx. lia.
Qed.

Lemma window_sorted p count : StronglySorted Z.lt (window p count).
Proof.
  unfold window, range.
  apply (StronglySorted_fmap _ Z.lt Z.lt); [intros; lia |].
  apply (StronglySorted_fmap _ lt Z.lt); [intros; lia |].
  apply seq_sorted.
Qed.

Lemma filter_sorted {A} (R : relation A) f l :
  StronglySorted R l -> StronglySorted R (List.filter f l).
Proof.
  induction 1 as [|x l _ IH Hx]; simpl; [constructor |].
  destruct (f x); [| exact IH]. constructor; [exact IH |].
  apply Forall_forall. intros y Hy. apply list_elem_of_In, filter_In in Hy as [Hy _].
  rewrite Forall_forall in Hx. apply Hx. by apply list_elem_of_In.
Qed.

Lemma busy_port_str_known p info :
  names_a_process info ->
  busy_port_str {| port := p; available := false; process_info := Some info |} =
  str p +:+ " " +:+ in_use_text info.
Proof.
  intros Hn. unfold busy_port_str. simpl.
  by rewrite (names_a_process_nonempty _ Hn).
Qed.

(** What the probing loop adds to [busy_ports]: one record for each busy
    port of the block, in the order of the block. *)
Lemma probe_block_ok base count host idx busy (st st' : St Self) r :
  (forall i, i ∈ idx -> 0 <= i < count) ->
  probe_block E base host idx busy st = (Ok r, st') ->
  exists added,
    r = busy ++ added /\
    map port added = List.filter (probes_busy E host) (map (Z.add base) idx) /\
    Forall (well_formed_busy base count) added.
Proof.
  revert busy st. induction idx as [|i idx IH]; intros busy st Hidx; simpl.
  - unfold ret. intros [= <- <-]. exists []. by rewrite app_nil_r.
  - assert (Hrest : forall j, j ∈ idx -> 0 <= j < count)
      by (intros j Hj; apply Hidx; by right).
    assert (Hi : 0 <= i < count) by (apply Hidx; by left).
    unfold bind at 1.
    destruct (_is_port_available E (base + i) host st) as [[b|e] st1] eqn:Hprobe;
      [| discriminate].
    apply is_port_available_ok in Hprobe as ->.
    unfold probes_busy at 1.
    destruct (probes_free E host (base + i)) eqn:Hfree; simpl.
    + by apply IH.
    + unfold bind at 1.
      destruct (get_process_using_port_total (base + i) st1)
        as (info & st2 & -> & Hnames).
      intros Hloop. apply IH in Hloop as (added & -> & Hports & Hshape); [| done].
      eexists (_ :: added). split; [by rewrite <- app_assoc |].
      split; [simpl; by rewrite Hports |].
      constructor; [| done]. split; [simpl; lia |]. split; [done |].
      exists info. split; [done |]. split; [done |].
      by apply busy_port_str_known.
Qed.

Lemma probe_block_total base host idx busy (st : St Self) :
  Forall (fun i => valid_port (base + i) = true) idx ->
  exists r st', probe_block E base host idx busy st = (Ok r, st').
Proof.
  intros Hvalid. revert busy st.
  induction Hvalid as [|i idx Hi _ IH]; intros busy st; simpl.
  - by eexists _, _.
  - unfold bind at 1. rewrite is_port_available_valid by done.
    destruct (probes_free E host (base + i)); simpl; [apply IH |].
    unfold bind at 1.
    destruct (get_process_using_port_total (base + i) (probed host (base + i) st))
      as (info & st2 & -> & _).
    apply IH.
Qed.

Lemma range_valid base count :
  0 <= base -> base + count - 1 <= 65535 ->
  Forall (fun i => valid_port (base + i) = true) (range count).
Proof.
  intros Hbase Hend. apply Forall_forall. intros i Hi.
  apply elem_of_range in Hi. unfold valid_port. lia.
Qed.

Lemma port_description_id s : port_description s = s.
Proof.
  unfold port_description.
  destruct (split already_in_use s) as [|before [|after [|]]] eqn:Hsplit; try done.
  assert (Hjoin : join already_in_use (split already_in_use s) = s)
    by (by apply join_split).
  rewrite Hsplit in Hjoin. by simpl in Hjoin.
Qed.

Lemma map_port_description l : map port_description l = l.
Proof. induction l as [|s l IH]; simpl; [done |]. by rewrite port_description_id, IH. Qed.

Lemma single_port_rest base tail :
  exists rest more,
    split (str base +:+ " ") ((str base +:+ " ") +:+ tail) = "" :: rest :: more /\
    (contains (str base +:+ " ") tail = false -> rest = tail).
Proof.
  assert (Hsep : str base +:+ " " <> "")
    by (destruct (str base); discriminate).
  rewrite split_prefix by done.
  destruct (split (str base +:+ " ") tail) as [|rest more] eqn:Hsplit.
  - by apply split_aux_nonempty in Hsplit.
  - exists rest, more. split; [done |].
    intros Hno. rewrite split_absent in Hsplit by done. by injection Hsplit.
Qed.

Lemma window_busy_filter host base count :
  window_free E host base count = false ->
  List.filter (probes_busy E host) (window base count) <> [].
Proof.
  unfold window_free. generalize (window base count) as l.
  induction l as [|p l IH]; simpl; [done |].
  unfold probes_busy at 1. destruct (probes_free E host p); simpl; [exact IH | done].
Qed.

Lemma filter_nil_window_free host base count :
  List.filter (probes_busy E host) (window base count) = [] ->
  window_free E host base count = true.
Proof.
  intros Hnil. destruct (window_free E host base count) eqn:Hfree; [done |].
  by apply window_busy_filter in Hfree.
Qed.

(** What [check_sequential_port_block] answers on a block it probes. *)
Lemma check_probed_block base count host (st st' : St Self) r :
  1 <= count -> base + count - 1 <= 65535 ->
  check_sequential_port_block E base count host st = (Ok r, st') ->
  map port (busy_ports r) = List.filter (probes_busy E host) (window base count) /\
  Forall (well_formed_busy base count) (busy_ports r) /\
  block_available r = (len_list (busy_ports r) =? 0) /\
  requested_range r = (base, base + count - 1) /\
  (block_available r = true -> error_message r = None) /\
  (block_available r = false ->
   block_error_message base count (base + count - 1) (busy_ports r) st' =
   (Ok (error_message r), st')).
Proof.
  intros Hcount Hend. unfold check_sequential_port_block.
  replace (count <? 1) with false by lia.
  replace (base + count - 1 >? 65535) with false by lia.
  unfold bind at 1.
  destruct (probe_block E base host (range count) [] st) as [[busy|e] st1] eqn:Hprobe;
    [| discriminate].
  apply (probe_block_ok base count) in Hprobe as (added & -> & Hports & Hshape);
    [| by intros i Hi; apply elem_of_range in Hi].
  simpl. unfold bind at 1.
  destruct (len_list added =? 0) eqn:Hempty; simpl.
  - unfold ret. intros [= <- <-]. simpl. rewrite Hempty. done.
  - destruct (block_error_message base count (base + count - 1) added st1)
      as [[msg|e] st2] eqn:Hmsg; [| discriminate].
    assert (st2 = st1) as ->.
    { revert Hmsg. unfold block_error_message, bind, index, ret, raise.
      repeat case_match; congruence. }
    unfold ret. intros [= <- <-]. simpl. rewrite Hempty. done.
Qed.

Lemma check_total base count host (st : St Self) :
  1 <= count -> 0 <= base -> base + count - 1 <= 65535 ->
  exists r st', check_sequential_port_block E base count host st = (Ok r, st').
Proof.
  intros Hcount Hbase Hend. unfold check_sequential_port_block.
  replace (count <? 1) with false by lia.
  replace (base + count - 1 >? 65535) with false by lia.
  destruct (probe_block_total base host (range count) [] st (range_valid _ _ Hbase Hend))
    as (busy & st1 & Hprobe).
  pose proof Hprobe as Hshape.
  apply (probe_block_ok base count) in Hshape as (added & -> & Hports & Hshape);
    [| by intros i Hi; apply elem_of_range in Hi].
  unfold bind at 1. rewrite Hprobe. simpl. unfold bind at 1.
  destruct (len_list added =? 0) eqn:Hempty; simpl; [by eexists _, _ |].
  unfold block_error_message.
  destruct (count =? 1) eqn:Hone; [| by eexists _, _].
  assert (count = 1) as -> by lia.
  destruct added as [|first added]; [discriminate |].
  apply Forall_cons in Hshape as [(Hrange & _ & info & _ & _ & Hstr) _].
  assert (port first = base) as Hport by lia.
  simpl. unfold bind at 1. simpl. rewrite Hstr, Hport, <- string_app_assoc.
  destruct (single_port_rest base (in_use_text info)) as (rest & more & -> & _).
  simpl. by eexists _, _.
Qed.

(** C10. Process attribution never raises and always answers a string.
    On a block of valid ports the check returns; and whatever it returns
    for [count >= 1] and [base + count - 1 <= 65535] has its [busy_ports]
    strictly increasing in port number, each within the block, with
    [available = False] and a process description that is a string (a
    process name or "unknown process"), and [available] is [True] exactly
    when [busy_ports] is empty. *)
Theorem check_busy_ports_shape base count host (st : St Self) :
  1 <= count -> base + count - 1 <= 65535 ->
  (forall p (st0 : St Self), exists info st1,
     _get_process_using_port E p st0 = (Ok info, st1) /\ names_a_process info) /\
  (0 <= base ->
   exists r st', check_sequential_port_block E base count host st = (Ok r, st')) /\
  (forall r st',
     check_sequential_port_block E base count host st = (Ok r, st') ->
     StronglySorted Z.lt (map port (busy_ports r)) /\
     Forall (fun port_info =>
               base <= port port_info <= base + count - 1 /\
               available port_info = false /\
               exists info, process_info port_info = Some info /\ names_a_process info)
            (busy_ports r) /\
     (block_available r = true <-> busy_ports r = [])).
Proof.
  intros Hcount Hend. split; [apply get_process_using_port_total |].
  split; [intros Hbase; by apply check_total |].
  intros r st' Hcheck.
  apply check_probed_block in Hcheck as (Hports & Hshape & Havail & _); [| done..].
  split; [rewrite Hports; apply filter_sorted, window_sorted |].
  split.
  - eapply Forall_impl; [exact Hshape |].
    intros port_info (? & ? & info & ? & ? & _). eauto 10.
  - rewrite Havail. unfold len_list. destruct (busy_ports r); simpl; split; try done; lia.
Qed.

(** The report on a block that holds a busy port. *)
Lemma busy_block_report base count host (st : St Self) :
  1 <= count -> 0 <= base -> base + count - 1 <= 65535 ->
  window_free E host base count = false ->
  exists r st',
    check_sequential_port_block E base count host st = (Ok r, st') /\
    block_available r = false /\
    busy_ports r <> [] /\
    map port (busy_ports r) = List.filter (probes_busy E host) (window base count) /\
    Forall (well_formed_busy base count) (busy_ports r) /\
    (1 < count ->
     error_message r =
     Some ("Ports " +:+ str base +:+ "-" +:+ str (base + count - 1) +:+ ": " +:+
           join ", " (map busy_port_str (busy_ports r)))) /\
    (count = 1 ->
     exists info rest,
       busy_ports r =
         [{| port := base; available := false; process_info := Some info |}] /\
       names_a_process info /\
       error_message r = Some ("Port " +:+ str base +:+ ": " +:+ rest) /\
       (contains (str base +:+ " ") (in_use_text info) = false ->
        rest = in_use_text info)).
Proof.
  intros Hcount Hbase Hend Hbusy.
  destruct (check_total base count host st) as (r & st' & Hcheck); [done.. |].
  exists r, st'. split; [done |].
  apply check_probed_block in Hcheck
    as (Hports & Hshape & Havail & _ & _ & Hmsg); [| done..].
  apply window_busy_filter in Hbusy. rewrite <- Hports in Hbusy.
  assert (Hne : busy_ports r <> []) by (intros Hnil; by rewrite Hnil in Hbusy).
  assert (Hfalse : block_available r = false).
  { rewrite Havail. unfold len_list. destruct (busy_ports r); [done | simpl; lia]. }
  specialize (Hmsg Hfalse).
  split; [done |]. split; [done |]. split; [done |]. split; [done |]. split.
  - intros Hmany. revert Hmsg. unfold block_error_message.
    replace (count =? 1) with false by lia. unfold ret. intros [= <-].
    by rewrite map_port_description.
  - intros ->.
    change (window base 1) with [base + 0] in Hports.
    destruct (busy_ports r) as [|first more]; [done |].
    assert (more = []) as ->.
    { cbn [List.filter map] in Hports.
      destruct (probes_busy E host (base + 0)); [| discriminate].
      destruct more; [done | discriminate]. }
    apply Forall_cons in Hshape as [(Hrange & Hav & info & Hinfo & Hnames & Hstr) _].
    assert (Hport : port first = base) by lia.
    destruct first as [p a i]. cbn [port available process_info] in *. subst.
    revert Hmsg. unfold block_error_message.
    change (1 =? 1) with true. cbn [map]. unfold bind at 1. cbn [index lookup list_lookup].
    unfold ret at 1. rewrite Hstr, <- string_app_assoc.
    destruct (single_port_rest base (in_use_text info)) as (rest & more & -> & Hrest).
    unfold bind, index, ret. cbn [lookup list_lookup]. intros [= <-].
    exists info, rest. done.
Qed.

(** C2, as the code has it. When a block of [count >= 1] valid ports holds
    a busy port, the check answers [available = False] with one record for
    each busy port.  For [count > 1] the message is
    "Ports <base>-<end>: " followed by the comma-separated
    "<p> already in use (<process>)" of every busy port, in increasing
    order.  For [count = 1] the message is "Port <base>: " followed by the
    text after the port number, which is "already in use (<process>)"
    whenever that text does not itself contain "<base> ". *)
Theorem check_error_message base count host (st : St Self) :
  1 <= count -> 0 <= base -> base + count - 1 <= 65535 ->
  window_free E host base count = false ->
  exists r st',
    check_sequential_port_block E base count host st = (Ok r, st') /\
    block_available r = false /\
    busy_ports r <> [] /\
    map port (busy_ports r) = List.filter (probes_busy E host) (window base count) /\
    Forall (well_formed_busy base count) (busy_ports r) /\
    (1 < count ->
     error_message r =
     Some ("Ports " +:+ str base +:+ "-" +:+ str (base + count - 1) +:+ ": " +:+
           join ", " (map busy_port_str (busy_ports r)))) /\
    (count = 1 ->
     exists info rest,
       busy_ports r =
         [{| port := base; available := false; process_info := Some info |}] /\
       names_a_process info /\
       error_message r = Some ("Port " +:+ str base +:+ ": " +:+ rest) /\
       (contains (str base +:+ " ") (in_use_text info) = false ->
        rest = in_use_text info)).
Proof. apply busy_block_report. Qed.

(** On a free block nothing is recorded and only the probes are made. *)
Lemma probe_block_free base host idx busy (st : St Self) :
  forallb (probes_free E host) (map (Z.add base) idx) = true ->
  probe_block E base host idx busy st =
  (Ok busy, {| self := self st;
               trace := trace st ++ map (EvBind host) (map (Z.add base) idx) |}).
Proof.
  revert st. induction idx as [|i idx IH]; intros st Hfree; simpl.
  - rewrite app_nil_r. by destruct st.
  - simpl in Hfree. apply andb_true_iff in Hfree as [Hi Hrest].
    pose proof Hi as Hvalid. unfold probes_free in Hvalid.
    apply andb_true_iff in Hvalid as [Hvalid _].
    unfold bind at 1. rewrite is_port_available_valid, Hi by done. simpl.
    rewrite IH by done. unfold probed. simpl. by rewrite <- app_assoc.
Qed.

Lemma check_free_block base count host (st : St Self) :
  1 <= count -> base + count - 1 <= 65535 ->
  window_free E host base count = true ->
  check_sequential_port_block E base count host st =
  (Ok {| block_available := true;
         requested_range := (base, base + count - 1);
         busy_ports := [];
         error_message := None |},
   {| self := self st; trace := trace st ++ map (EvBind host) (window base count) |}).
Proof.
  intros Hcount Hend Hfree. unfold check_sequential_port_block.
  replace (count <? 1) with false by lia.
  replace (base + count - 1 >? 65535) with false by lia.
  unfold bind at 1. rewrite probe_block_free by exact Hfree. reflexivity.
Qed.

End PortsFacts.

(** ** The orchestrator *)

Section OrchestratorFacts.
Import utils_ports container_orchestrator.
Context (E : Env).

Lemma bind_returns {Self A B} (m : M Self A) (k : A -> M Self B) st a st1 :
  m st = (Ok a, st1) -> bind m k st = k a st1.
Proof. intros Hm. unfold bind. by rewrite Hm. Qed.

Lemma bind_raises {Self A B} (m : M Self A) (k : A -> M Self B) st e st1 :
  m st = (Raise e, st1) -> bind m k st = (Raise e, st1).
Proof. intros Hm. unfold bind. by rewrite Hm. Qed.

Lemma try_except_returns {Self A} (m : M Self A) catches h st a st1 :
  m st = (Ok a, st1) -> try_except m catches h st = (Ok a, st1).
Proof. intros Hm. unfold try_except. by rewrite Hm. Qed.

(** A block guarded by [except Exception] (or a bare [except]) whose
    handler returns never raises. *)
Lemma guarded_total {Self A} (m : M Self A) (fallback : A) st :
  exists a st', try_except m is_Exception (fun _ => ret fallback) st = (Ok a, st').
Proof.
  unfold try_except. destruct (m st) as [[a|e] st1]; simpl; by eexists _, _.
Qed.

(** C7. [cleanup] completes without raising in every session state:
    whatever the runtime (none detected included), whatever the list of
    started containers, and whatever the container commands answer or
    raise. *)
Theorem cleanup_never_raises (st : St ContainerOrchestrator) :
  exists st', cleanup E st = (Ok tt, st').
Proof.
  unfold cleanup.
  match goal with
  | |- context [try_except ?m _ _ st] =>
      destruct (guarded_total m tt st) as ([] & st' & Hrun)
  end.
  exists st'. exact Hrun.
Qed.

Lemma try_except_caught {Self A} (m : M Self A) catches h (st : St Self) e st1 :
  m st = (Raise e, st1) -> catches e = true ->
  try_except m catches h st = h e st1.
Proof. intros Hm Hc. unfold try_except. by rewrite Hm, Hc. Qed.

Lemma runtime_attr_some {A} (f : ContainerRuntime -> A) (st : St ContainerOrchestrator) rt :
  runtime (self st) = Some rt -> runtime_attr f st = (Ok (f rt), st).
Proof. intros Hrt. unfold runtime_attr, bind, get_self. by rewrite Hrt. Qed.

Lemma runtime_attr_none {A} (f : ContainerRuntime -> A) (st : St ContainerOrchestrator) :
  runtime (self st) = None ->
  runtime_attr f st =
  (Raise (Exn AttributeError_ "'NoneType' object has no attribute"), st).
Proof. intros Hrt. unfold runtime_attr, bind, get_self. by rewrite Hrt. Qed.

(** Without a detected runtime [cleanup] issues no command at all. *)
Lemma cleanup_without_runtime (st : St ContainerOrchestrator) :
  runtime (self st) = None -> cleanup E st = (Ok tt, st).
Proof.
  intros Hnone. unfold cleanup.
  erewrite try_except_caught; [reflexivity | | reflexivity].
  apply bind_raises. by apply runtime_attr_none.
Qed.

(** Under podman with no started container, [cleanup] only removes the
    pod, and completes even when that command raises. *)
Lemma cleanup_empty_podman_session (st : St ContainerOrchestrator) rt :
  runtime (self st) = Some rt -> name rt = "podman" -> containers (self st) = [] ->
  cleanup E st =
  (Ok tt, {| self := self st;
             trace := trace st ++ [EvRun ["podman"; "pod"; "rm"; project_name (self st)] None] |}).
Proof.
  intros Hrt Hname Hnone. unfold cleanup, try_except.
  erewrite bind_returns by (by apply runtime_attr_some).
  rewrite Hname. change (String.eqb "podman" "podman") with true. cbv iota.
  unfold bind, get_self, subprocess_run, ret. cbn [self trace]. rewrite Hnone.
  cbn [stop_and_remove]. unfold ret. cbn [self trace].
  destruct (run_answer E (trace st) _); reflexivity.
Qed.

(** *** What the pre-flight check does to the system *)

Section Emits.
Context {Self : Type} (P : Event -> Prop).

Lemma only_emits_ret {A} (a : A) : only_emits (Self := Self) P (ret a).
Proof.
  intros st r st' [= <- <-]. split; [done |]. exists []. by rewrite app_nil_r.
Qed.

Lemma only_emits_raise {A} e : only_emits (Self := Self) (A := A) P (raise e).
Proof.
  intros st r st' [= <- <-]. split; [done |]. exists []. by rewrite app_nil_r.
Qed.

Lemma only_emits_emit ev : P ev -> only_emits (Self := Self) P (emit ev).
Proof.
  intros Hev st r st' [= <- <-]. split; [done |]. exists [ev]. split; [done |].
  by constructor.
Qed.

Lemma only_emits_run argv envp :
  P (EvRun argv envp) -> only_emits (Self := Self) P (subprocess_run E argv envp).
Proof.
  intros Hev st r st'. unfold subprocess_run.
  destruct (run_answer E (trace st) argv); intros [= <- <-];
    (split; [done |]; exists [EvRun argv envp]; split; [done | by constructor]).
Qed.

Lemma only_emits_index {A} (l : list A) i : only_emits (Self := Self) P (index l i).
Proof. unfold index. destruct (l !! i); [apply only_emits_ret | apply only_emits_raise]. Qed.

Lemma only_emits_bind {A B} (m : M Self A) (k : A -> M Self B) :
  only_emits P m -> (forall a, only_emits P (k a)) -> only_emits P (bind m k).
Proof.
  intros Hm Hk st r st'. unfold bind.
  destruct (m st) as [[a|e] st1] eqn:Hrun;
    apply Hm in Hrun as (Hself1 & evs1 & Htrace1 & Hevs1).
  - intros Hrest. apply Hk in Hrest as (Hself2 & evs2 & Htrace2 & Hevs2).
    split; [congruence |]. exists (evs1 ++ evs2).
    split; [by rewrite Htrace2, Htrace1, app_assoc | by apply Forall_app].
  - intros [= <- <-]. split; [done |]. by exists evs1.
Qed.

Lemma only_emits_try {A} (m : M Self A) catches h :
  only_emits P m -> (forall e, only_emits P (h e)) -> only_emits P (try_except m catches h).
Proof.
  intros Hm Hh st r st'. unfold try_except.
  destruct (m st) as [[a|e] st1] eqn:Hrun;
    apply Hm in Hrun as (Hself1 & evs1 & Htrace1 & Hevs1).
  - intros [= <- <-]. split; [done |]. by exists evs1.
  - destruct (catches e).
    + intros Hrest. apply Hh in Hrest as (Hself2 & evs2 & Htrace2 & Hevs2).
      split; [congruence |]. exists (evs1 ++ evs2).
      split; [by rewrite Htrace2, Htrace1, app_assoc | by apply Forall_app].
    + intros [= <- <-]. split; [done |]. by exists evs1.
Qed.

End Emits.

Ltac emits_step :=
  first
    [ assumption
    | solve [auto]
    | apply only_emits_ret
    | apply only_emits_raise
    | apply only_emits_index
    | apply only_emits_emit; reflexivity
    | apply only_emits_run; reflexivity
    | apply only_emits_bind; [| intros ?]
    | apply only_emits_try; [| intros ?]
    | match goal with
      | |- only_emits _ (if ?b then _ else _) => destruct b
      | |- only_emits _ (match ?x with _ => _ end) => destruct x
      | |- only_emits _ (let _ := _ in _) => cbv zeta
      end ].

Section CheckEmits.
Context {Self : Type}.

Lemma is_port_available_quiet p host :
  only_emits (Self := Self) harmless (_is_port_available E p host).
Proof. unfold _is_port_available, socket_bind. repeat emits_step. Qed.

Lemma via_lsof_quiet p : only_emits (Self := Self) harmless (via_lsof E p).
Proof. unfold via_lsof, tool_attempt. repeat emits_step. Qed.

Lemma netstat_lines_quiet p lines :
  only_emits (Self := Self) harmless (netstat_lines p lines).
Proof. induction lines as [|line lines IH]; simpl; repeat emits_step. Qed.

Lemma via_netstat_quiet p : only_emits (Self := Self) harmless (via_netstat E p).
Proof.
  pose proof (netstat_lines_quiet p).
  unfold via_netstat, tool_attempt. repeat emits_step.
Qed.

Lemma ss_lines_quiet p lines : only_emits (Self := Self) harmless (ss_lines p lines).
Proof.
  induction lines as [|line lines IH]; simpl; [apply only_emits_ret |].
  unfold ss_users. repeat emits_step.
Qed.

Lemma via_ss_quiet p : only_emits (Self := Self) harmless (via_ss E p).
Proof.
  pose proof (ss_lines_quiet p).
  unfold via_ss, tool_attempt. repeat emits_step.
Qed.

Lemma via_tasklist_quiet pid : only_emits (Self := Self) harmless (via_tasklist E pid).
Proof. unfold via_tasklist, tool_attempt. repeat emits_step. Qed.

Lemma windows_lines_quiet p lines :
  only_emits (Self := Self) harmless (windows_lines E p lines).
Proof.
  pose proof via_tasklist_quiet.
  induction lines as [|line lines IH]; simpl; [apply only_emits_ret |].
  destruct (_ && _); [| exact IH].
  destruct (_ >=? _); [| exact IH].
  apply only_emits_bind; [apply only_emits_index | intros pid].
  apply only_emits_bind; [done | intros [named|]; apply only_emits_ret].
Qed.

Lemma via_windows_netstat_quiet p :
  only_emits (Self := Self) harmless (via_windows_netstat E p).
Proof.
  pose proof (windows_lines_quiet p).
  unfold via_windows_netstat, tool_attempt. repeat emits_step.
Qed.

Lemma first_of_quiet ms : Forall (only_emits harmless) ms ->
  only_emits (Self := Self) harmless (first_of ms).
Proof.
  induction 1 as [|m ms Hm _ IH]; simpl; [apply only_emits_ret |].
  apply only_emits_bind; [done | intros [s|]; [apply only_emits_ret | done]].
Qed.

Lemma get_process_using_port_quiet p :
  only_emits (Self := Self) harmless (_get_process_using_port E p).
Proof.
  unfold _get_process_using_port.
  apply only_emits_try; [| intros; apply only_emits_ret].
  apply only_emits_bind; [| intros [s|]; apply only_emits_ret].
  destruct (_ || _).
  - apply first_of_quiet.
    repeat apply Forall_cons_2; [apply via_lsof_quiet | apply via_netstat_quiet
                                | apply via_ss_quiet | apply Forall_nil_2].
  - destruct (startswith "win" (platform E));
      [apply via_windows_netstat_quiet | apply only_emits_ret].
Qed.

Lemma probe_block_quiet base host idx busy :
  only_emits (Self := Self) harmless (probe_block E base host idx busy).
Proof.
  revert busy. induction idx as [|i idx IH]; intros busy; simpl; [apply only_emits_ret |].
  apply only_emits_bind; [apply is_port_available_quiet | intros ok].
  destruct ok; simpl; [apply IH |].
  apply only_emits_bind; [apply get_process_using_port_quiet | intros info; apply IH].
Qed.

Lemma check_sequential_port_block_quiet base count host :
  only_emits (Self := Self) harmless (check_sequential_port_block E base count host).
Proof.
  pose proof (probe_block_quiet base host).
  unfold check_sequential_port_block, block_error_message. repeat emits_step.
Qed.

End CheckEmits.

(** *** Starting on a healthy environment *)

Lemma allocate_ports_free (st : St ContainerOrchestrator) :
  preferred_block_free E ->
  _allocate_ports E st =
  (Ok tt, {| self := allocated (self st);
             trace := trace st ++ map (EvBind "0.0.0.0") (window 8090 3) |}).
Proof.
  intros Hfree. unfold _allocate_ports.
  apply try_except_returns.
  erewrite bind_returns by (apply check_free_block; [done | done | exact Hfree]).
  reflexivity.
Qed.

Lemma check_postgres_health_ok (st : St ContainerOrchestrator) rt :
  runtime (self st) = Some rt -> containers_healthy E rt ->
  _check_postgres_health E st =
  (Ok true, {| self := self st;
               trace := trace st ++ [EvRun (postgres_health_argv (command rt)) None] |}).
Proof.
  intros Hrt Hhealthy. destruct (Hhealthy (trace st)) as (_ & (r & Hrun & Hcode) & _).
  unfold _check_postgres_health. apply try_except_returns.
  erewrite bind_returns by (by apply runtime_attr_some).
  unfold bind, subprocess_run. rewrite Hrun, Hcode. reflexivity.
Qed.

Lemma check_mongo_health_ok (st : St ContainerOrchestrator) rt :
  runtime (self st) = Some rt -> containers_healthy E rt ->
  _check_mongo_health E st =
  (Ok true, {| self := self st;
               trace := trace st ++ [EvRun (mongo_health_argv (command rt)) None] |}).
Proof.
  intros Hrt Hhealthy. destruct (Hhealthy (trace st)) as (_ & _ & (r & Hrun & Hcode)).
  unfold _check_mongo_health. apply try_except_returns.
  erewrite bind_returns by (by apply runtime_attr_some).
  unfold bind, subprocess_run. rewrite Hrun, Hcode. reflexivity.
Qed.

Lemma check_containers_exist_healthy (st : St ContainerOrchestrator) rt :
  runtime (self st) = Some rt -> containers_healthy E rt ->
  _check_containers_exist E st =
  (Ok true,
   {| self := self st;
      trace := trace st ++ [EvRun (ps_argv (command rt)) None;
                            EvRun (postgres_health_argv (command rt)) None;
                            EvRun (mongo_health_argv (command rt)) None] |}).
Proof.
  intros Hrt Hhealthy.
  destruct (Hhealthy (trace st)) as ((listing & Hrun & Hcode & Hlisted) & _ & _).
  unfold _check_containers_exist. apply try_except_returns.
  erewrite bind_returns by (by apply runtime_attr_some).
  unfold bind at 1, subprocess_run. rewrite Hrun, Hcode. cbn [negb Z.eqb].
  rewrite Hlisted.
  erewrite bind_returns by (by apply check_postgres_health_ok).
  rewrite (check_mongo_health_ok _ rt) by done.
  cbn [self trace]. by rewrite <- !app_assoc.
Qed.

Lemma idempotent_start_events_harmless cmd :
  forallb (fun ev => negb (destructive ev)) (idempotent_start_events cmd) = true.
Proof. reflexivity. Qed.

(** On a free preferred block the start under podman is the short-circuit
    alone. *)
Lemma start_containers_free_block (st : St ContainerOrchestrator) rt :
  runtime (self st) = Some rt ->
  name rt = "podman" ->
  preferred_block_free E ->
  containers_healthy E rt ->
  start_containers E st =
    (Ok true, {| self := allocated (self st);
                 trace := trace st ++ idempotent_start_events (command rt) |}).
Proof.
  intros Hrt Hname Hfree Hhealthy.
  unfold start_containers, bind at 1, get_self. rewrite Hrt.
  unfold bind at 1, ret at 1.
  apply try_except_returns.
  erewrite bind_returns by (by apply allocate_ports_free).
  erewrite bind_returns by (apply runtime_attr_some; exact Hrt).
  rewrite Hname. change (String.eqb "podman" "podman") with true. cbv iota.
  unfold _start_podman_containers. apply try_except_returns.
  erewrite bind_returns by (apply check_containers_exist_healthy; [exact Hrt | exact Hhealthy]).
  unfold ret. cbn [self trace]. rewrite <- app_assoc. reflexivity.
Qed.

Lemma first_description_in_use (busy : list PortInfo) :
  busy <> [] ->
  Forall (well_formed_busy 8090 3) busy ->
  contains "already in use" (join ", " (map busy_port_str busy)) = true.
Proof.
  intros Hne Hshape. destruct busy as [|first more]; [done |].
  apply Forall_cons in Hshape as [(_ & _ & info & _ & _ & Hstr) _].
  cbn [map]. unfold join.
  assert (Hfirst : contains "already in use" (busy_port_str first) = true).
  { rewrite Hstr. apply contains_app_r, contains_app_r.
    change (in_use_text info) with ("already in use" +:+ " (" +:+ info +:+ ")").
    apply contains_prefix. }
  destruct (map busy_port_str more) as [|next rest] eqn:Hmore; [exact Hfirst |].
  rewrite concat_cons by done. by apply contains_app_l.
Qed.

(** When a port of the preferred block is busy, [start_containers] gives
    up before it looks at the containers and answers [False]; all it has
    done is probe ports and look up their owners. *)
Lemma start_containers_busy_block (st : St ContainerOrchestrator) rt :
  runtime (self st) = Some rt ->
  window_free E "0.0.0.0" 8090 3 = false ->
  exists st' evs,
    start_containers E st = (Ok false, st') /\
    self st' = self st /\
    trace st' = trace st ++ evs /\
    Forall harmless evs.
Proof.
  intros Hrt Hbusy.
  destruct (busy_block_report E 8090 3 "0.0.0.0" st) as
    (r & st1 & Hcheck & Havail & Hne & _ & Hshape & Hmsg & _); [done.. |].
  specialize (Hmsg ltac:(lia)).
  destruct (check_sequential_port_block_quiet _ _ _ _ _ _ Hcheck)
    as (Hself & evs & Htrace & Hevs).
  exists st1, evs. split; [| done].
  unfold start_containers, bind at 1, get_self. rewrite Hrt.
  unfold bind at 1, ret at 1.
  erewrite try_except_caught; [reflexivity | | reflexivity].
  apply bind_raises. unfold _allocate_ports.
  set (msg := "Ports " +:+ str 8090 +:+ "-" +:+ str (8090 + 3 - 1) +:+ ": " +:+
              join ", " (map busy_port_str (busy_ports r))) in Hmsg.
  assert (Hcontains : contains "already in use" msg = true).
  { unfold msg. apply (contains_app_r _ "Ports 8090-8092: ").
    by apply first_description_in_use. }
  rewrite (try_except_caught _ _ _ st (Exn RuntimeError_ msg) st1); [| | reflexivity].
  - cbn [exn_msg]. rewrite Hcontains. reflexivity.
  - erewrite bind_returns by exact Hcheck. rewrite Havail, Hmsg. reflexivity.
Qed.

(** C1, as the code has it. Under podman, when the required containers are
    up and healthy, [start_containers] never stops, removes, creates or
    starts anything and leaves the list of started containers unchanged.
    It returns success exactly when the preferred block 8090-8092 probes
    as available, and then all it has done is probe the three ports, list
    the containers and run the two health checks; with a busy port in the
    block it returns failure at the pre-flight check. *)
Theorem start_containers_idempotent_podman (st : St ContainerOrchestrator) rt :
  runtime (self st) = Some rt ->
  name rt = "podman" ->
  containers_healthy E rt ->
  exists st' evs,
    start_containers E st = (Ok (window_free E "0.0.0.0" 8090 3), st') /\
    trace st' = trace st ++ evs /\
    Forall harmless evs /\
    containers (self st') = containers (self st) /\
    (preferred_block_free E ->
     self st' = allocated (self st) /\ evs = idempotent_start_events (command rt)).
Proof.
  intros Hrt Hname Hhealthy.
  destruct (window_free E "0.0.0.0" 8090 3) eqn:Hblock.
  - eexists _, (idempotent_start_events (command rt)).
    split; [by apply start_containers_free_block |].
    split; [reflexivity |].
    split; [repeat constructor |]. done.
  - destruct (start_containers_busy_block st rt Hrt Hblock)
      as (st' & evs & Hrun & Hself & Htrace & Hevs).
    exists st', evs. split; [done |]. split; [done |]. split; [done |].
    split; [by rewrite Hself |].
    unfold preferred_block_free. congruence.
Qed.

End OrchestratorFacts.

(** ** Concrete runs *)

Section Runs.
Import utils_ports container_orchestrator machines.

Lemma healthy_machine busy : containers_healthy (healthy busy) podman_runtime.
Proof.
  intros history. split; [| split].
  - eexists. split; [reflexivity |]. split; reflexivity.
  - eexists. split; reflexivity.
  - eexists. split; reflexivity.
Qed.

(** C1, counterexample. The containers are up and healthy, yet a second
    [start_containers] answers [False]: port 8091 of the preferred block is
    taken (as it is while the pod publishes it), and the pre-flight check
    aborts the start. *)
Lemma start_on_healthy_containers_fails :
  containers_healthy (healthy [8091]) podman_runtime /\
  runtime (self started) = Some podman_runtime /\
  fst (start_containers (healthy [8091]) started) = Ok false.
Proof.
  split; [apply healthy_machine |]. split; [reflexivity |]. vm_compute. reflexivity.
Qed.

(** C1 at work: the machine is healthy and all ports are free. *)
Lemma start_containers_idempotent_podman_witness :
  (runtime (self started) = Some podman_runtime /\
   name podman_runtime = "podman" /\
   containers_healthy (healthy []) podman_runtime) /\
  exists st' evs,
    start_containers (healthy []) started =
      (Ok (window_free (healthy []) "0.0.0.0" 8090 3), st') /\
    trace st' = trace started ++ evs /\
    Forall harmless evs /\
    containers (self st') = containers (self started) /\
    (preferred_block_free (healthy []) ->
     self st' = allocated (self started) /\
     evs = idempotent_start_events (command podman_runtime)).
Proof.
  assert (Hhealthy : containers_healthy (healthy []) podman_runtime).
  { intros history. split; [| split].
    - eexists. split; [reflexivity |]. split; reflexivity.
    - eexists. split; reflexivity.
    - eexists. split; reflexivity. }
  split.
  - split; [reflexivity |]. split; [reflexivity | exact Hhealthy].
  - apply (start_containers_idempotent_podman (healthy []) started podman_runtime);
      [reflexivity | reflexivity | exact Hhealthy].
Defined.

Example start_containers_second_call :
  start_containers (healthy []) started =
  (Ok true,
   {| self := self started;
      trace := [ EvBind "0.0.0.0" 8090; EvBind "0.0.0.0" 8091; EvBind "0.0.0.0" 8092;
                 EvRun ["podman"; "ps"; "--format"; "{{.Names}}"] None;
                 EvRun ["podman"; "exec"; "test-postgres"; "pg_isready";
                        "-U"; "user"; "-d"; "testdb"] None;
                 EvRun ["podman"; "exec"; "test-mongo"; "mongosh"; "--eval";
                        "db.adminCommand('ping')"] None ] |}).
Proof. reflexivity. Qed.

(** C2, counterexample. Port 8090 alone is checked and is busy: the message
    is "Port 8090: already in use (unknown process)", in which the text
    "8090 already in use" does not occur. *)
Lemma single_port_message_drops_number :
  exists r,
    fst (check_sequential_port_block (bare [8090]) 8090 1 "0.0.0.0" start) = Ok r /\
    map port (busy_ports r) = [8090] /\
    error_message r = Some "Port 8090: already in use (unknown process)" /\
    contains (str 8090 +:+ " already in use")
      "Port 8090: already in use (unknown process)" = false.
Proof. eexists. split; [vm_compute; reflexivity |]. repeat split. Qed.

(** C2 at work: ports 8090 and 8092 of the block 8090-8092 are busy. *)
Lemma check_error_message_witness :
  (1 <= 3 /\ 0 <= 8090 /\ 8090 + 3 - 1 <= 65535 /\
   window_free (bare [8090; 8092]) "0.0.0.0" 8090 3 = false) /\
  exists r st',
    check_sequential_port_block (bare [8090; 8092]) 8090 3 "0.0.0.0" start = (Ok r, st') /\
    block_available r = false /\
    busy_ports r <> [] /\
    map port (busy_ports r) =
      List.filter (probes_busy (bare [8090; 8092]) "0.0.0.0") (window 8090 3) /\
    Forall (well_formed_busy 8090 3) (busy_ports r) /\
    (1 < 3 ->
     error_message r =
     Some ("Ports " +:+ str 8090 +:+ "-" +:+ str (8090 + 3 - 1) +:+ ": " +:+
           join ", " (map busy_port_str (busy_ports r)))) /\
    (3 = 1 ->
     exists info rest,
       busy_ports r =
         [{| port := 8090; available := false; process_info := Some info |}] /\
       names_a_process info /\
       error_message r = Some ("Port " +:+ str 8090 +:+ ": " +:+ rest) /\
       (contains (str 8090 +:+ " ") (in_use_text info) = false ->
        rest = in_use_text info)).
Proof.
  split.
  - split; [lia |]. split; [lia |]. split; [lia | reflexivity].
  - apply (check_error_message (bare [8090; 8092]) 8090 3 "0.0.0.0" start);
      [lia | lia | lia | reflexivity].
Defined.

(** C3 at work: port 8090 is busy and two ports are wanted from 8090 on. *)
Lemma find_sequential_ports_least_window_witness :
  (1 <= 2 /\
   find_sequential_ports (bare [8090]) 8090 2 "0.0.0.0" start =
   (Ok [8091; 8092],
    {| self := tt;
       trace := [EvBind "0.0.0.0" 8090; EvBind "0.0.0.0" 8091; EvBind "0.0.0.0" 8092] |})) /\
  exists p,
    [8091; 8092] = window p 2 /\
    8090 <= p < 8090 + 1000 /\
    window_free (bare [8090]) "0.0.0.0" p 2 = true /\
    (forall q, 8090 <= q < p -> window_free (bare [8090]) "0.0.0.0" q 2 = false) /\
    len_list [8091; 8092] = 2 /\
    (forall i, 0 <= i < 2 -> [8091; 8092] !! Z.to_nat i = Some (p + i)) /\
    Forall (fun port => probes_free (bare [8090]) "0.0.0.0" port = true) [8091; 8092] /\
    (window_free (bare [8090]) "0.0.0.0" 8090 2 = false -> 8090 < p).
Proof.
  split.
  - split; [lia | reflexivity].
  - apply (find_sequential_ports_least_window (bare [8090]) 8090 2 "0.0.0.0" start
             {| self := tt;
                trace := [EvBind "0.0.0.0" 8090; EvBind "0.0.0.0" 8091;
                          EvBind "0.0.0.0" 8092] |});
      [lia | reflexivity].
Defined.

(** C5 at work: port 65536 on the wildcard address. *)
Lemma is_port_available_raises_on_invalid_port_witness :
  (resolves (bare []) "0.0.0.0" = true /\ valid_port 65536 = false) /\
  fst (_is_port_available (bare []) 65536 "0.0.0.0" start) =
  Raise (Exn OverflowError_ "bind(): port must be 0-65535.").
Proof.
  split; [split; reflexivity |].
  apply (is_port_available_raises_on_invalid_port (bare []) "0.0.0.0" 65536 start);
    reflexivity.
Defined.

(** C5 at work: asked for two ports from 65535 on, the search probes port
    65536 and ends in [OverflowError], not in the documented
    [RuntimeError]. *)
Example find_sequential_ports_overflows :
  fst (find_sequential_ports (bare []) 65535 2 "0.0.0.0" start) =
  Raise (Exn OverflowError_ "bind(): port must be 0-65535.").
Proof. reflexivity. Qed.

(** C6 at work: [check(65534, 4)]. *)
Lemma check_rejects_bad_input_witness :
  (4 < 1 \/ 65535 < 65534 + 4 - 1) /\
  check_sequential_port_block (bare []) 65534 4 "0.0.0.0" start =
  (Ok {| block_available := false;
         requested_range := (65534, 65534 + 4 - 1);
         busy_ports := [];
         error_message :=
           Some (if 4 <? 1 then "Count must be at least 1"
                 else "Port range " +:+ str 65534 +:+ "-" +:+ str (65534 + 4 - 1) +:+
                      " exceeds maximum port number 65535") |},
   start).
Proof.
  split; [right; lia |].
  apply (check_rejects_bad_input (bare []) 65534 4 "0.0.0.0" start). right. lia.
Defined.

Example check_rejects_bad_input_values :
  fst (check_sequential_port_block (bare []) 65534 4 "0.0.0.0" start) =
    Ok {| block_available := false; requested_range := (65534, 65537);
          busy_ports := [];
          error_message :=
            Some "Port range 65534-65537 exceeds maximum port number 65535" |} /\
  fst (check_sequential_port_block (bare []) 9000 0 "0.0.0.0" start) =
    Ok {| block_available := false; requested_range := (9000, 8999);
          busy_ports := []; error_message := Some "Count must be at least 1" |} /\
  fst (check_sequential_port_block (bare []) 9000 (-1) "0.0.0.0" start) =
    Ok {| block_available := false; requested_range := (9000, 8998);
          busy_ports := []; error_message := Some "Count must be at least 1" |}.
Proof. repeat split. Qed.

(** C10 at work: the block 8090-8092 with 8090 and 8092 busy. *)
Lemma check_busy_ports_shape_witness :
  (1 <= 3 /\ 8090 + 3 - 1 <= 65535) /\
  (forall p (st0 : St unit), exists info st1,
     _get_process_using_port (bare [8090; 8092]) p st0 = (Ok info, st1) /\
     names_a_process info) /\
  (0 <= 8090 ->
   exists r st',
     check_sequential_port_block (bare [8090; 8092]) 8090 3 "0.0.0.0" start = (Ok r, st')) /\
  (forall r st',
     check_sequential_port_block (bare [8090; 8092]) 8090 3 "0.0.0.0" start = (Ok r, st') ->
     StronglySorted Z.lt (map port (busy_ports r)) /\
     Forall (fun port_info =>
               8090 <= port port_info <= 8090 + 3 - 1 /\
               available port_info = false /\
               exists info, process_info port_info = Some info /\ names_a_process info)
            (busy_ports r) /\
     (block_available r = true <-> busy_ports r = [])).
Proof.
  split; [lia |].
  apply (check_busy_ports_shape (bare [8090; 8092]) 8090 3 "0.0.0.0" start); lia.
Defined.

Example check_busy_ports_values :
  fst (check_sequential_port_block (bare [8090; 8092]) 8090 3 "0.0.0.0" start) =
  Ok {| block_available := false;
        requested_range := (8090, 8092);
        busy_ports :=
          [ {| port := 8090; available := false; process_info := Some "unknown process" |};
            {| port := 8092; available := false; process_info := Some "unknown process" |} ];
        error_message :=
          Some "Ports 8090-8092: 8090 already in use (unknown process), 8092 already in use (unknown process)" |}.
Proof. reflexivity. Qed.

End Runs.

(** * Further properties *)

(** ** Searching and checking ports *)

Section PortsMore.
Import utils_ports.
Context {Self : Type} (E : Env).

Lemma is_port_available_state host p (st st' : St Self) r :
  _is_port_available E p host st = (r, st') -> st' = probed host p st.
Proof.
  unfold _is_port_available, try_except, socket_bind, bind, emit, ret, raise. simpl.
  repeat case_match; simplify_eq; try done; simpl in *; by intros [= <- <-].
Qed.

Lemma window_cons p n : 0 < n -> window p n = p :: window (p + 1) (n - 1).
Proof.
  intros Hn. unfold window, range.
  replace (Z.to_nat n) with (S (Z.to_nat (n - 1))) by lia.
  simpl. rewrite Z.add_0_r. f_equal.
  rewrite <- seq_shift, !map_map. apply map_ext. intros i. lia.
Qed.

Lemma scan_window_trace host cur idx ports (st st' : St Self) r :
  scan_window E cur host idx ports st = (Ok r, st') ->
  self st' = self st /\
  trace st' =
    trace st ++ map (EvBind host) (probed_ports E host (map (Z.add cur) idx)).
Proof.
  revert ports st. induction idx as [|i idx IH]; intros ports st; simpl.
  - unfold ret. intros [= <- <-]. by rewrite app_nil_r.
  - unfold bind.
    destruct (_is_port_available E (cur + i) host st) as [[b|e] st1] eqn:Hprobe;
      [| discriminate].
    pose proof (is_port_available_state _ _ _ _ _ Hprobe) as ->.
    apply is_port_available_ok in Hprobe as ->.
    destruct (probes_free E host (cur + i)).
    + intros Hscan. apply IH in Hscan as [-> ->]. simpl. by rewrite <- app_assoc.
    + unfold ret. intros [= <- <-]. done.
Qed.

Lemma find_loop_trace attempts base count host : 1 <= count ->
  forall cur (st st' : St Self) found,
  find_loop E attempts base count host cur st = (Ok found, st') ->
  exists p,
    cur <= p /\ found = window p count /\ self st' = self st /\
    trace st' =
      trace st ++
      map (EvBind host)
        (flat_map (fun q => probed_ports E host (window q count))
           (window cur (p - cur + 1))).
Proof.
  intros Hcount. induction attempts as [|attempts IH]; intros cur st st' found; simpl.
  - discriminate.
  - unfold bind at 1.
    destruct (scan_window E cur host (range count) [] st) as [[[ps all]|e] st1] eqn:Hscan;
      [| discriminate].
    pose proof (scan_window_trace _ _ _ _ _ _ _ Hscan) as [Hself Htrace].
    apply scan_window_ok in Hscan as [Hall Hps].
    destruct (all && (len_list ps =? count)) eqn:Hdone.
    + unfold ret. intros [= <- <-].
      apply andb_true_iff in Hdone as [-> _]. exists cur.
      split; [lia |]. split; [by rewrite Hps |]. split; [done |].
      replace (cur - cur + 1) with 1 by lia.
      change (window cur 1) with [cur + 0]. rewrite Z.add_0_r. simpl.
      by rewrite app_nil_r.
    + destruct (cur + 1 + count - 1 >? 65535); [discriminate |].
      intros Hloop. apply IH in Hloop as (p & Hp & -> & Hself' & Htrace').
      exists p. split; [lia |]. split; [done |]. split; [congruence |].
      rewrite (window_cons cur (p - cur + 1)) by lia.
      replace (p - cur + 1 - 1) with (p - (cur + 1) + 1) by lia.
      simpl. rewrite Htrace', Htrace, map_app, app_assoc. reflexivity.
Qed.

(** X1. [find_sequential_ports] never answers the empty list: with
    [count < 1] it raises [ValueError] before any probe, and whatever it
    returns otherwise has [count] elements. *)
Theorem find_sequential_ports_never_empty base count host (st : St Self) :
  (count < 1 ->
   find_sequential_ports E base count host st =
   (Raise (Exn ValueError_ "Count must be at least 1"), st)) /\
  (forall found st',
     find_sequential_ports E base count host st = (Ok found, st') ->
     1 <= count /\ len_list found = count /\ found <> []).
Proof.
  unfold find_sequential_ports. split.
  - intros Hc. by replace (count <? 1) with true by lia.
  - intros found st'. destruct (count <? 1) eqn:Hc; [discriminate |].
    intros Hloop. apply find_loop_ok in Hloop as (p & _ & -> & _); [| lia].
    split; [lia |]. split; [apply window_length; lia |].
    rewrite window_cons by lia. done.
Qed.




(** X4. No wasted probe: a successful search has probed the candidate
    windows [base], [base+1], ..., [p] in this order, each one port by
    port up to and including its first busy port, and nothing else; it
    leaves [self] alone. *)
Theorem find_sequential_ports_probes base count host (st st' : St Self) found :
  1 <= count ->
  find_sequential_ports E base count host st = (Ok found, st') ->
  exists p,
    base <= p /\ found = window p count /\ self st' = self st /\
    trace st' =
      trace st ++
      map (EvBind host)
        (flat_map (fun q => probed_ports E host (window q count))
           (window base (p - base + 1))).
Proof.
  intros Hcount. unfold find_sequential_ports.
  replace (count <? 1) with false by lia.
  by apply find_loop_trace.
Qed.

End PortsMore.

(** ** The pre-flight check and process attribution *)

Section CheckMore.
Import utils_ports.
Context {Self : Type} (E : Env).

(** X5. On a block of valid ports the check answers [available] exactly
    when every port of the block probes as available.  Then it reports no
    busy port and no message and has only probed the ports of the block,
    in order; otherwise it reports at least one busy port and a message. *)
Theorem check_available_iff_free base count host (st : St Self) :
  1 <= count -> 0 <= base -> base + count - 1 <= 65535 ->
  exists r st',
    check_sequential_port_block E base count host st = (Ok r, st') /\
    block_available r = window_free E host base count /\
    requested_range r = (base, base + count - 1) /\
    (window_free E host base count = true ->
     busy_ports r = [] /\ error_message r = None /\
     st' = {| self := self st;
              trace := trace st ++ map (EvBind host) (window base count) |}) /\
    (window_free E host base count = false ->
     busy_ports r <> [] /\ is_Some (error_message r)).
Proof.
  intros Hcount Hbase Hend.
  destruct (window_free E host base count) eqn:Hfree.
  - eexists _, _. split; [by apply check_free_block |]. simpl. done.
  - destruct (busy_block_report E base count host st)
      as (r & st' & Hrun & Havail & Hne & _ & _ & Hmany & Hone); [done.. |].
    exists r, st'. split; [done |]. split; [done |].
    split; [by apply check_probed_block in Hrun as (_ & _ & _ & ? & _) |].
    split; [done |]. intros _. split; [done |].
    destruct (decide (count = 1)) as [->|].
    + destruct (Hone eq_refl) as (info & rest & _ & _ & -> & _). by eexists.
    + rewrite Hmany by lia. by eexists.
Qed.

Lemma subprocess_run_completed argv envp (st : St Self) c :
  run_answer E (trace st) argv = Completed c ->
  subprocess_run E argv envp st =
  (Ok c, {| self := self st; trace := trace st ++ [EvRun argv envp] |}).
Proof. intros Hrun. unfold subprocess_run. by rewrite Hrun. Qed.

Lemma subprocess_run_failed argv envp (st : St Self) e :
  run_answer E (trace st) argv = Failed e ->
  subprocess_run E argv envp st =
  (Raise e, {| self := self st; trace := trace st ++ [EvRun argv envp] |}).
Proof. intros Hrun. unfold subprocess_run. by rewrite Hrun. Qed.

Lemma index_lookup {A} (l : list A) i x (st : St Self) :
  l !! i = Some x -> index l i st = (Ok x, st).
Proof. intros Hl. unfold index. by rewrite Hl. Qed.

Lemma len_list_lookup {A} (l : list A) i x :
  l !! i = Some x -> Z.of_nat i < len_list l.
Proof. intros Hl. apply lookup_lt_Some in Hl. unfold len_list. lia. Qed.

Lemma via_lsof_parses p (st : St Self) r line name pid rest :
  run_answer E (trace st) (lsof_argv p) = Completed r ->
  returncode r = 0 ->
  split nl (strip (stdout r)) !! 1%nat = Some line ->
  words line = name :: pid :: rest ->
  via_lsof E p st =
  (Ok (Some (process_with_pid name pid)),
   {| self := self st; trace := trace st ++ [EvRun (lsof_argv p) None] |}).
Proof.
  intros Hrun Hcode Hline Hwords. unfold via_lsof, tool_attempt.
  apply try_except_returns.
  erewrite bind_returns by (by apply subprocess_run_completed).
  rewrite Hcode. change (0 =? 0) with true.
  assert (Hne : nonempty (strip (stdout r)) = true).
  { destruct (strip (stdout r)); [discriminate | reflexivity]. }
  rewrite Hne. cbn [andb]. cbv zeta.
  pose proof (len_list_lookup _ _ _ Hline) as Hlen.
  replace (len_list (split nl (strip (stdout r))) >? 1) with true by lia.
  erewrite bind_returns by (by apply index_lookup).
  rewrite Hwords.
  replace (len_list (name :: pid :: rest) >=? 2) with true
    by (symmetry; apply Z.geb_le; unfold len_list; cbn [length]; lia).
  reflexivity.
Qed.

(** X6. When lsof answers, its answer is used: on Linux or macOS, if lsof
    exits with 0 and the second line of its output has at least two
    fields, process attribution answers "process <field 1> (PID <field
    2>)" and runs no other tool. *)
Theorem get_process_reads_lsof p (st : St Self) r line name pid rest :
  unix_like E = true ->
  run_answer E (trace st) (lsof_argv p) = Completed r ->
  returncode r = 0 ->
  split nl (strip (stdout r)) !! 1%nat = Some line ->
  words line = name :: pid :: rest ->
  _get_process_using_port E p st =
  (Ok ("process " +:+ name +:+ " (PID " +:+ pid +:+ ")"),
   {| self := self st; trace := trace st ++ [EvRun (lsof_argv p) None] |}).
Proof.
  intros Hunix Hrun Hcode Hline Hwords. unfold _get_process_using_port.
  apply try_except_returns.
  unfold unix_like in Hunix. rewrite Hunix. cbn [first_of].
  erewrite bind_returns;
    [| erewrite bind_returns by (by eapply via_lsof_parses); reflexivity].
  reflexivity.
Qed.

Lemma tool_attempt_missing (m : M Self (option string)) (st st1 : St Self) e :
  m st = (Raise e, st1) -> is_timeout_or_missing e = true ->
  tool_attempt m st = (Ok None, st1).
Proof. intros Hm He. unfold tool_attempt, try_except. by rewrite Hm, He. Qed.

(** X7. The fallback: on a platform that is neither Linux, macOS nor
    Windows no tool is run, and on Linux or macOS where lsof, netstat and
    ss are all missing (or time out) the three are tried in this order;
    either way the answer is "unknown process". *)
Theorem get_process_falls_back p (st : St Self) :
  (unix_like E = false -> startswith "win" (platform E) = false ->
   _get_process_using_port E p st = (Ok "unknown process", st)) /\
  (unix_like E = true -> no_tool_runs E ->
   _get_process_using_port E p st =
   (Ok "unknown process",
    {| self := self st;
       trace := trace st ++ [EvRun (lsof_argv p) None;
                             EvRun ["netstat"; "-tulpn"] None;
                             EvRun ["ss"; "-tulpn"] None] |})).
Proof.
  unfold unix_like, _get_process_using_port. split.
  - intros -> ->. reflexivity.
  - intros -> Hnone. apply try_except_returns. cbn [first_of].
    assert (Hfail : forall argv (st0 : St Self) k,
               tool_attempt (bind (subprocess_run E argv None) k) st0 =
               (Ok None, {| self := self st0; trace := trace st0 ++ [EvRun argv None] |})).
    { intros argv st0 k. destruct (Hnone (trace st0) argv) as (e & Hrun & He).
      eapply tool_attempt_missing; [| exact He].
      apply bind_raises. by apply subprocess_run_failed. }
    unfold via_lsof, via_netstat, via_ss.
    erewrite (bind_returns _ _ st None).
    + reflexivity.
    + erewrite bind_returns by apply Hfail. cbv iota beta.
      erewrite bind_returns by apply Hfail. cbv iota beta.
      erewrite bind_returns by apply Hfail. cbv iota beta.
      unfold ret. cbn [self trace]. by rewrite <- !app_assoc.
Qed.

(** X8. An unexpected failure of the first tool ends the lookup: on Linux
    or macOS, when running lsof raises anything but "missing" or
    "timed out" (permission denied, say), process attribution answers
    "unknown process" at once, without trying netstat or ss. *)
Theorem get_process_stops_on_unexpected_error p (st : St Self) e :
  unix_like E = true ->
  run_answer E (trace st) (lsof_argv p) = Failed e ->
  is_timeout_or_missing e = false ->
  _get_process_using_port E p st =
  (Ok "unknown process",
   {| self := self st; trace := trace st ++ [EvRun (lsof_argv p) None] |}).
Proof.
  intros Hunix Hrun He. unfold _get_process_using_port.
  unfold unix_like in Hunix. rewrite Hunix. cbn [first_of].
  erewrite try_except_caught; [reflexivity | | reflexivity].
  apply bind_raises, bind_raises.
  unfold via_lsof, tool_attempt, try_except.
  erewrite bind_raises by (by apply subprocess_run_failed).
  by rewrite He.
Qed.

End CheckMore.

(** ** The port registry, continued *)

Section RegistryMore.
Import port_manager.

Lemma reachable_distinct allowed sys :
  reachable allowed sys ->
  distinct_ports (assigned_ports (manager sys)) /\ file_distinct_ok (port_file sys).
Proof.
  intros Hreach. induction Hreach as [arg env file Hfile _
                 | sys now service purpose Hreach (Hmem & Hfileok)
                 | sys service _ (Hmem & Hfileok)
                 | sys _ (Hmem & Hfileok)
                 | sys arg env _ (Hmem & Hfileok) _].
  - split; [| by destruct Hfile as [-> | ->]].
    destruct Hfile as [-> | ->]; intros s1 s2 e1 e2 Hl; simpl in Hl;
      by rewrite lookup_empty in Hl.
  - pose proof (reachable_cursor _ _ Hreach) as (_ & Habove & _).
    unfold cursor_above_assigned in Habove. unfold assign_port.
    destruct (assigned_ports (manager sys) !! service) as [entry|] eqn:Hlook;
      [done |]. simpl.
    assert (Hnew : distinct_ports
              (<[service := {| a_port := current_port (manager sys);
                               a_purpose := purpose; assigned_at := now |}]>
                 (assigned_ports (manager sys)))).
    { intros s1 s2 e1 e2 H1 H2 Heq.
      destruct (decide (s1 = service)) as [->|Hs1];
        destruct (decide (s2 = service)) as [->|Hs2]; [done | | |].
      - rewrite lookup_insert_eq in H1. rewrite lookup_insert_ne in H2 by done.
        simplify_eq. simpl in Heq. apply Habove in H2. lia.
      - rewrite lookup_insert_eq in H2. rewrite lookup_insert_ne in H1 by done.
        simplify_eq. simpl in Heq. apply Habove in H1. lia.
      - rewrite lookup_insert_ne in H1, H2 by done. by eapply Hmem. }
    split; [done |]. intros m [= <-]. done.
  - unfold release_port.
    destruct (assigned_ports (manager sys) !! service) as [entry|] eqn:Hlook;
      [| done]. simpl.
    assert (Hnew : distinct_ports (delete service (assigned_ports (manager sys)))).
    { intros s1 s2 e1 e2 H1 H2 Heq.
      apply lookup_delete_Some in H1 as [_ H1]. apply lookup_delete_Some in H2 as [_ H2].
      by eapply Hmem. }
    split; [done |]. intros m [= <-]. done.
  - simpl. assert (Hnew : distinct_ports (∅ : gmap string Assignment))
      by (intros s1 s2 e1 e2 Hl; by rewrite lookup_empty in Hl).
    split; [done |]. intros m [= <-]. done.
  - simpl. split; [| done]. unfold init.
    destruct (port_file sys) as [| |d]; simpl in *;
      try (intros s1 s2 e1 e2 Hl; by rewrite lookup_empty in Hl).
    destruct (doc_assignments d) as [m|] eqn:Hd; simpl; [by apply Hfileok |].
    intros s1 s2 e1 e2 Hl. by rewrite lookup_empty in Hl.
Qed.

(** X9. No port is held by two services: in every state the registry
    reaches (through assignments, releases, resets and restarts under any
    base ports, starting without a usable file), two services with the
    same port are the same service. *)
Theorem assigned_ports_distinct allowed sys s1 s2 e1 e2 :
  reachable allowed sys ->
  assigned_ports (manager sys) !! s1 = Some e1 ->
  assigned_ports (manager sys) !! s2 = Some e2 ->
  a_port e1 = a_port e2 ->
  s1 = s2.
Proof.
  intros Hreach. destruct (reachable_distinct _ _ Hreach) as [Hmem _]. apply Hmem.
Qed.

Lemma manager_eta (m : PortManager) :
  m = {| base_port := base_port m; current_port := current_port m;
         assigned_ports := assigned_ports m |}.
Proof. by destruct m. Qed.

Lemma load_fresh_base file b : base_port (_load_assignments file (fresh_manager b)) = b.
Proof. by destruct file. Qed.

(** X10. Nothing is lost by a restart: in every reachable state the
    registry in memory equals what a new process configured with the same
    base port loads from the file, so saving and loading round-trips the
    base port, the cursor and every assignment. *)
Theorem registry_in_sync allowed sys :
  reachable allowed sys -> in_sync sys.
Proof.
  intros Hreach. unfold in_sync.
  induction Hreach as [arg env file Hfile _
                 | sys now service purpose Hreach IH
                 | sys service Hreach IH
                 | sys Hreach IH
                 | sys arg env Hreach IH _].
  - simpl. by rewrite init_base_port.
  - pose proof (reachable_cursor _ _ Hreach) as (Hge & _ & _).
    unfold cursor_ge_base in Hge. unfold assign_port.
    destruct (assigned_ports (manager sys) !! service) as [entry|] eqn:Hlook;
      [done |]. simpl. f_equal.
    destruct (Z.ltb_spec (current_port (manager sys) + 1) (base_port (manager sys))); lia.
  - pose proof (reachable_cursor _ _ Hreach) as (Hge & _ & _).
    unfold cursor_ge_base in Hge. unfold release_port.
    destruct (assigned_ports (manager sys) !! service) as [entry|] eqn:Hlook;
      [| done]. simpl. f_equal.
    destruct (Z.ltb_spec (current_port (manager sys)) (base_port (manager sys))); lia.
  - simpl. f_equal. by rewrite Z.ltb_irrefl.
  - simpl. unfold init at 1. by rewrite init_base_port.
Qed.

(** X11. Assign, look up, release: after [assign_port] for a service,
    [get_port] answers the port that was returned and the answers for the
    other services are unchanged; after [release_port] it answers [None];
    and [get_service_ports] lists exactly what [get_port] answers. *)
Theorem get_port_after_assign_and_release now service purpose sys :
  get_port service (fst (assign_port now service purpose sys)) =
    Some (snd (assign_port now service purpose sys)) /\
  (forall other, other <> service ->
     get_port other (fst (assign_port now service purpose sys)) = get_port other sys) /\
  get_port service (fst (release_port service sys)) = None /\
  (forall s, get_service_ports sys !! s = get_port s sys).
Proof.
  unfold get_port, get_service_ports. repeat split.
  - destruct (assign_port_records now service purpose sys) as (entry & -> & <-). done.
  - intros other Hne. unfold assign_port.
    destruct (assigned_ports (manager sys) !! service); [done |]. simpl.
    by rewrite lookup_insert_ne.
  - unfold release_port.
    destruct (assigned_ports (manager sys) !! service) eqn:Hlook; simpl.
    + by rewrite lookup_delete_eq.
    + by rewrite Hlook.
  - intros s. by rewrite lookup_fmap.
Qed.

(** X12. Fresh assignments take consecutive ports: two different services
    without an assignment, assigned one after the other, get the cursor
    and the cursor plus one; the cursor ends two higher and the file was
    saved twice. *)
Theorem fresh_assignments_consecutive now1 now2 s1 s2 purpose1 purpose2 sys :
  s1 <> s2 ->
  assigned_ports (manager sys) !! s1 = None ->
  assigned_ports (manager sys) !! s2 = None ->
  let first := assign_port now1 s1 purpose1 sys in
  let second := assign_port now2 s2 purpose2 (fst first) in
  snd first = get_next_port sys /\
  snd second = get_next_port sys + 1 /\
  get_next_port (fst second) = get_next_port sys + 2 /\
  saves (fst second) = S (S (saves sys)) /\
  get_port s1 (fst second) = Some (get_next_port sys) /\
  get_port s2 (fst second) = Some (get_next_port sys + 1).
Proof.
  intros Hne H1 H2. unfold get_next_port, get_port, assign_port. rewrite H1. simpl.
  rewrite lookup_insert_ne, H2 by done. simpl.
  rewrite lookup_insert_ne, !lookup_insert_eq by done. simpl.
  repeat split; lia.
Qed.

(** X13. A reset starts over: after [reset_assignments] no service has a
    port, the cursor is the base port, and the next service to ask gets the
    base port itself, whatever was assigned before. *)
Theorem reset_starts_over now service purpose sys :
  (forall s, get_port s (reset_assignments sys) = None) /\
  get_next_port (reset_assignments sys) = base_port (manager sys) /\
  snd (assign_port now service purpose (reset_assignments sys)) = base_port (manager sys) /\
  base_port (manager (reset_assignments sys)) = base_port (manager sys).
Proof.
  unfold get_port, get_next_port, assign_port, reset_assignments. simpl.
  rewrite (lookup_empty service). simpl.
  split; [intros s; by rewrite lookup_empty | done].
Qed.

(** X14. A released port is not handed out again: in a reachable state,
    when a service is released and then asks again, it gets the cursor,
    which lies strictly above the port it had (and above every port still
    assigned). *)
Theorem released_port_not_reused allowed now service purpose sys entry :
  reachable allowed sys ->
  assigned_ports (manager sys) !! service = Some entry ->
  let again := assign_port now service purpose (fst (release_port service sys)) in
  snd again = current_port (manager sys) /\
  a_port entry < snd again /\
  (forall other e, assigned_ports (manager sys) !! other = Some e -> a_port e < snd again).
Proof.
  intros Hreach Hlook.
  pose proof (reachable_cursor _ _ Hreach) as (_ & Habove & _).
  unfold cursor_above_assigned in Habove.
  unfold release_port, assign_port. rewrite Hlook. simpl.
  rewrite lookup_delete_eq. simpl.
  split; [done |]. split; [apply Habove in Hlook; lia |].
  intros other e He. apply Habove in He. lia.
Qed.

(** X15. [get_port(s) or assign_port(s, purpose)], as the callers write it,
    always answers the port the registry holds for the service afterwards,
    and evaluating it again answers the same port without touching the
    registry; so both sides of the published mapping of
    [start_server_container] are the same port. *)
Theorem port_or_assign_stable now now' service purpose purpose' sys :
  let first := port_or_assign now service purpose sys in
  get_port service (fst first) = Some (snd first) /\
  port_or_assign now' service purpose' (fst first) = first /\
  (forall now1 now2,
     snd (publish_http_server now1 now2 sys) =
     str (snd (port_or_assign now1 "http-server" "Main HTTP Server" sys)) +:+ ":" +:+
     str (snd (port_or_assign now1 "http-server" "Main HTTP Server" sys))).
Proof.
  assert (Hstable : forall now now' service purpose purpose' sys,
            get_port service (fst (port_or_assign now service purpose sys)) =
              Some (snd (port_or_assign now service purpose sys)) /\
            port_or_assign now' service purpose' (fst (port_or_assign now service purpose sys)) =
              port_or_assign now service purpose sys).
  { clear. intros now now' service purpose purpose' sys.
    assert (Hget : get_port service (fst (port_or_assign now service purpose sys)) =
                   Some (snd (port_or_assign now service purpose sys))).
    { unfold port_or_assign, get_port.
      destruct (assigned_ports (manager sys) !! service) as [entry|] eqn:Hlook; simpl.
      - destruct (a_port entry =? 0); simpl.
        + rewrite (assign_port_known _ _ _ _ _ Hlook). simpl. by rewrite Hlook.
        + by rewrite Hlook.
      - destruct (assign_port_records now service purpose sys) as (e & -> & <-). done. }
    split; [done |].
    unfold port_or_assign at 1. rewrite Hget.
    destruct (port_or_assign now service purpose sys) as [sys1 p] eqn:Hfirst. simpl in *.
    destruct (p =? 0); [| done].
    unfold get_port in Hget.
    destruct (assigned_ports (manager sys1) !! service) as [entry|] eqn:Hlook;
      [| discriminate].
    simpl in Hget. rewrite (assign_port_known _ _ _ _ _ Hlook). congruence. }
  destruct (Hstable now now' service purpose purpose' sys) as [Hget Hsame].
  cbv zeta. split; [done |]. split; [done |].
  intros now1 now2. unfold publish_http_server. simpl.
  destruct (Hstable now1 now2 "http-server" "Main HTTP Server" "Main HTTP Server" sys)
    as [_ ->]. done.
Qed.

End RegistryMore.

(** ** Runtime detection and start *)

Section DetectMore.
Import utils_ports container_orchestrator.
Context (E : Env).

Lemma check_runtime_unavailable candidate (st : St ContainerOrchestrator) :
  unavailable E candidate ->
  _check_runtime_available E candidate st = (Ok (false, candidate), tried candidate st).
Proof.
  intros Hun. unfold _check_runtime_available.
  destruct (Hun (trace st)) as [(e & Hrun & He) | (c & Hrun & Hc)].
  - erewrite try_except_caught; [reflexivity | | exact He].
    apply bind_raises. by apply subprocess_run_failed.
  - apply try_except_returns.
    erewrite bind_returns by (by apply subprocess_run_completed).
    replace (returncode c =? 0) with false by lia. reflexivity.
Qed.

Lemma detect_loop_none candidates (st : St ContainerOrchestrator) :
  Forall (unavailable E) candidates ->
  detect_loop E candidates st =
  (Raise no_runtime,
   {| self := self st;
      trace := trace st ++
               map (fun c => EvRun [command c; "--version"] None) candidates |}).
Proof.
  intros Hall. revert st. induction Hall as [|c cs Hc _ IH]; intros st; simpl.
  - unfold raise. rewrite app_nil_r. by destruct st.
  - erewrite bind_returns by (by apply check_runtime_unavailable).
    simpl. rewrite IH. unfold tried. simpl. by rewrite <- app_assoc.
Qed.

(** X16. Detection fails loudly: when the version command of none of
    podman, docker, nerdctl and buildah succeeds, [detect_runtime] raises
    [RuntimeError] "No compatible container runtime found...", having
    tried the four in this order and nothing else, and [self] is left
    without a runtime. *)
Theorem detect_runtime_none_installed (st : St ContainerOrchestrator) :
  Forall (unavailable E) runtimes ->
  detect_runtime E st =
  (Raise (Exn RuntimeError_
            "No compatible container runtime found. Please install Docker, Podman, or another OCI-compatible runtime."),
   {| self := self st;
      trace := trace st ++ [EvRun ["podman"; "--version"] None;
                            EvRun ["docker"; "--version"] None;
                            EvRun ["nerdctl"; "--version"] None;
                            EvRun ["buildah"; "--version"] None] |}).
Proof. intros Hall. unfold detect_runtime. by rewrite detect_loop_none. Qed.

(** [_check_command_available]: the command counts as available as soon as
    it runs, whatever its exit code. *)
Lemma check_command_available_runs cmd (st : St ContainerOrchestrator) :
  failures_are_missing E ->
  _check_command_available E cmd st =
  (Ok (match run_answer E (trace st) [cmd; "--version"] with
       | Completed _ => true
       | Failed _ => false
       end),
   {| self := self st; trace := trace st ++ [EvRun [cmd; "--version"] None] |}).
Proof.
  intros Hmissing. unfold _check_command_available.
  destruct (run_answer E (trace st) [cmd; "--version"]) as [c|e] eqn:Hrun.
  - apply try_except_returns.
    erewrite bind_returns by (by apply subprocess_run_completed). reflexivity.
  - erewrite try_except_caught; [reflexivity | | by eapply Hmissing].
    apply bind_raises. by apply subprocess_run_failed.
Qed.

Lemma check_runtime_installed candidate (st : St ContainerOrchestrator) :
  installed E candidate -> failures_are_missing E ->
  exists r st',
    _check_runtime_available E candidate st = (Ok (true, r), st') /\
    name r = name candidate /\ command r = command candidate /\
    runtime_available r = true /\ self st' = self st.
Proof.
  intros Hin Hmissing. destruct (Hin (trace st)) as (c & Hrun & Hcode).
  unfold _check_runtime_available.
  match goal with
  | |- context [try_except ?m _ _ st] =>
      assert (Hrun' : exists r st', m st = (Ok (true, r), st') /\
                name r = name candidate /\ command r = command candidate /\
                runtime_available r = true /\ self st' = self st)
  end.
  { erewrite bind_returns by (by apply subprocess_run_completed).
    rewrite Hcode. change (0 =? 0) with true. cbv iota zeta.
    destruct (String.eqb (name candidate) "podman").
    - erewrite bind_returns by (by apply check_command_available_runs).
      destruct (run_answer E _ ["podman-compose"; "--version"]).
      + unfold bind at 1, ret at 1. simpl. by eexists _, _.
      + erewrite bind_returns by (by apply check_command_available_runs).
        destruct (run_answer E _ ["docker-compose"; "--version"]);
          simpl; by eexists _, _.
    - destruct (String.eqb (name candidate) "docker").
      + erewrite bind_returns by (by apply check_command_available_runs).
        destruct (run_answer E _ ["docker-compose"; "--version"]);
          simpl; by eexists _, _.
      + by eexists _, _. }
  destruct Hrun' as (r & st' & Hm & Hfacts).
  exists r, st'. split; [by apply try_except_returns | done].
Qed.

Lemma detect_loop_first before candidate after (st : St ContainerOrchestrator) :
  Forall (unavailable E) before ->
  installed E candidate -> failures_are_missing E ->
  exists r st',
    detect_loop E (before ++ candidate :: after) st = (Ok r, st') /\
    name r = name candidate /\ command r = command candidate /\
    runtime_available r = true /\
    self st' = set_runtime r (self st).
Proof.
  intros Hbefore Hin Hmissing. revert st.
  induction Hbefore as [|c cs Hc _ IH]; intros st; simpl.
  - destruct (check_runtime_installed candidate st Hin Hmissing)
      as (r & st1 & Hrun & Hname & Hcmd & Hav & Hself).
    erewrite bind_returns by exact Hrun. simpl.
    unfold bind, modify_self, ret. simpl. exists r. eexists.
    split; [reflexivity |]. simpl. by rewrite Hself.
  - erewrite bind_returns by (by apply check_runtime_unavailable).
    simpl. destruct (IH (tried c st)) as (r & st' & Hrun & Hfacts).
    exists r, st'. done.
Qed.

(** X17. The first engine that answers wins: when the candidates listed
    before one are not available and that one's version command succeeds
    (and commands that fail to run are merely missing or slow),
    [detect_runtime] returns a runtime of that name and command, marked
    available, and stores it in [self.runtime], changing nothing else of
    [self]; the candidates listed after it play no part. *)
Theorem detect_runtime_first_available before candidate after
    (st : St ContainerOrchestrator) :
  runtimes = before ++ candidate :: after ->
  Forall (unavailable E) before ->
  installed E candidate ->
  failures_are_missing E ->
  exists r st',
    detect_runtime E st = (Ok r, st') /\
    name r = name candidate /\ command r = command candidate /\
    runtime_available r = true /\
    self st' = set_runtime r (self st).
Proof.
  intros Hlist Hbefore Hin Hmissing. unfold detect_runtime. rewrite Hlist.
  by apply detect_loop_first.
Qed.

(** X18. Which compose command docker gets: once [docker --version]
    succeeds, the runtime keeps "docker-compose" whenever that program
    runs at all, whatever its exit code, and gets the built-in
    "docker compose" when it is missing or times out; the version is the
    stripped output of the version command. *)
Theorem docker_compose_command candidate (st : St ContainerOrchestrator) c :
  name candidate = "docker" ->
  failures_are_missing E ->
  run_answer E (trace st) [command candidate; "--version"] = Completed c ->
  returncode c = 0 ->
  exists r st',
    _check_runtime_available E candidate st = (Ok (true, r), st') /\
    version r = strip (stdout c) /\
    runtime_available r = true /\
    compose_command r =
      match run_answer E (trace (tried candidate st)) ["docker-compose"; "--version"] with
      | Completed _ => compose_command candidate
      | Failed _ => "docker compose"
      end.
Proof.
  intros Hname Hmissing Hrun Hcode. unfold _check_runtime_available.
  destruct (run_answer E (trace (tried candidate st)) ["docker-compose"; "--version"])
    as [helper|e] eqn:Hhelper.
  all: eexists _, _; split;
    [ apply try_except_returns;
      erewrite bind_returns by (by apply subprocess_run_completed);
      rewrite Hcode, Hname; change (0 =? 0) with true; cbv iota zeta;
      change (String.eqb "docker" "podman") with false;
      change (String.eqb "docker" "docker") with true; cbv iota;
      erewrite bind_returns by (by apply check_command_available_runs);
      change {| self := self st;
                trace := trace st ++ [EvRun [command candidate; "--version"] None] |}
        with (tried candidate st);
      rewrite Hhelper; reflexivity
    | done ].
Qed.

(** X19. When [start_containers] raises: never once a runtime is known
    (every failure then comes back as [False]); but on an orchestrator
    without a runtime, when no engine is installed, the [RuntimeError] of
    the detection escapes instead of [False] being returned. *)
Theorem start_containers_raises_only_undetected (st : St ContainerOrchestrator) :
  (forall rt, runtime (self st) = Some rt ->
     exists b st', start_containers E st = (Ok b, st')) /\
  (runtime (self st) = None -> Forall (unavailable E) runtimes ->
   exists st', start_containers E st = (Raise no_runtime, st') /\ self st' = self st).
Proof.
  split.
  - intros rt Hrt. unfold start_containers, bind at 1, get_self. rewrite Hrt.
    unfold bind at 1, ret at 1. apply guarded_total.
  - intros Hnone Hall. unfold start_containers, bind at 1, get_self. rewrite Hnone.
    eexists. split.
    + apply bind_raises, bind_raises. unfold detect_runtime.
      by apply detect_loop_none.
    + reflexivity.
Qed.

End DetectMore.

(** ** Starting, checking and cleaning up containers *)

Ltac frame_step :=
  first
    [ assumption
    | solve [auto]
    | apply only_emits_ret
    | apply only_emits_raise
    | apply only_emits_index
    | apply only_emits_run; exact I
    | apply only_emits_bind; [| intros ?]
    | apply only_emits_try; [| intros ?]
    | match goal with
      | |- only_emits _ (if ?b then _ else _) => destruct b
      | |- only_emits _ (match ?x with _ => _ end) => destruct x
      | |- only_emits _ (let _ := _ in _) => cbv zeta
      end ].

Section ContainersMore.
Import utils_ports container_orchestrator.
Context (E : Env).

Lemma only_emits_self {Self A} P (m : M Self A) (st st' : St Self) r :
  only_emits P m -> m st = (r, st') -> self st' = self st.
Proof. intros Hm Hrun. by apply Hm in Hrun as [? _]. Qed.

Lemma get_self_frame {Self} P : only_emits (Self := Self) P get_self.
Proof.
  intros st r st' [= <- <-]. split; [done |]. exists []. by rewrite app_nil_r.
Qed.

Lemma runtime_attr_frame {A} P (f : ContainerRuntime -> A) : only_emits P (runtime_attr f).
Proof. unfold runtime_attr. pose proof (get_self_frame (Self := ContainerOrchestrator) P). repeat frame_step. Qed.

Lemma ports_item_frame P key : only_emits P (ports_item key).
Proof. unfold ports_item. pose proof (get_self_frame (Self := ContainerOrchestrator) P). repeat frame_step. Qed.

Lemma check_postgres_health_frame : only_emits any_event (_check_postgres_health E).
Proof.
  unfold _check_postgres_health. pose proof (runtime_attr_frame any_event command).
  repeat frame_step.
Qed.

Lemma check_mongo_health_frame : only_emits any_event (_check_mongo_health E).
Proof.
  unfold _check_mongo_health. pose proof (runtime_attr_frame any_event command).
  repeat frame_step.
Qed.

Lemma check_containers_exist_frame : only_emits any_event (_check_containers_exist E).
Proof.
  unfold _check_containers_exist.
  pose proof (runtime_attr_frame any_event command).
  pose proof check_postgres_health_frame. pose proof check_mongo_health_frame.
  repeat frame_step.
Qed.

Lemma stop_and_remove_frame program todo :
  only_emits any_event program -> only_emits any_event (stop_and_remove E program todo).
Proof.
  intros Hprogram. induction todo as [|container todo IH]; simpl; repeat frame_step.
Qed.

Lemma cleanup_existing_containers_frame : only_emits any_event (_cleanup_existing_containers E).
Proof.
  unfold _cleanup_existing_containers.
  pose proof (runtime_attr_frame any_event command).
  pose proof (get_self_frame (Self := ContainerOrchestrator) any_event).
  pose proof (stop_and_remove_frame (runtime_attr command)
                ["test-postgres"; "test-mongo"] (runtime_attr_frame any_event command)).
  repeat frame_step.
Qed.

Lemma cleanup_frame : only_emits any_event (cleanup E).
Proof.
  unfold cleanup.
  pose proof (runtime_attr_frame any_event name).
  pose proof (runtime_attr_frame any_event compose_command).
  pose proof (get_self_frame (Self := ContainerOrchestrator) any_event).
  assert (forall l, only_emits any_event (stop_and_remove E (ret "podman") l))
    by (intros l; apply stop_and_remove_frame, only_emits_ret).
  repeat frame_step.
Qed.

Lemma stop_and_remove_completes todo (st : St ContainerOrchestrator) :
  commands_complete E ->
  stop_and_remove E (ret "podman") todo st =
  (Ok tt,
   {| self := self st;
      trace := trace st ++
               flat_map (fun container =>
                           [EvRun ["podman"; "stop"; container] None;
                            EvRun ["podman"; "rm"; container] None]) todo |}).
Proof.
  intros Hall. revert st. induction todo as [|container todo IH]; intros st; simpl.
  - unfold ret. rewrite app_nil_r. by destruct st.
  - unfold bind at 1, ret at 1.
    destruct (Hall (trace st) ["podman"; "stop"; container]) as (c1 & Hc1).
    erewrite bind_returns by (by apply subprocess_run_completed).
    unfold bind at 1, ret at 1.
    destruct (Hall (trace st ++ [EvRun ["podman"; "stop"; container] None])
                ["podman"; "rm"; container]) as (c2 & Hc2).
    erewrite bind_returns by (by apply subprocess_run_completed).
    rewrite IH. simpl. by rewrite <- !app_assoc.
Qed.

(** X21. What [cleanup] does: it never changes [self] (the list of started
    containers is kept, so a second [cleanup] issues the same commands
    again).  When the commands run, under podman it stops and removes each
    started container, in the order they were started, and then removes
    the pod; under any other runtime it issues the single command
    [<compose command> -f <compose file> down -v]. *)
Theorem cleanup_commands (st : St ContainerOrchestrator) :
  (forall r st', cleanup E st = (r, st') -> self st' = self st) /\
  (forall rt, commands_complete E -> runtime (self st) = Some rt ->
     cleanup E st =
     (Ok tt,
      {| self := self st;
         trace := trace st ++
                  if String.eqb (name rt) "podman" then podman_teardown (self st)
                  else [EvRun (compose_argv rt (self st) ["down"; "-v"]) None] |})).
Proof.
  split; [intros r st'; apply (only_emits_self any_event), cleanup_frame |].
  intros rt Hall Hrt. unfold cleanup. apply try_except_returns.
  erewrite bind_returns by (by apply runtime_attr_some).
  destruct (String.eqb (name rt) "podman").
  - unfold bind at 1, get_self.
    erewrite bind_returns by (by apply stop_and_remove_completes).
    unfold bind at 1, get_self. cbn [self trace].
    destruct (Hall (trace st ++
                    flat_map (fun container =>
                                [EvRun ["podman"; "stop"; container] None;
                                 EvRun ["podman"; "rm"; container] None])
                      (containers (self st)))
                ["podman"; "pod"; "rm"; project_name (self st)]) as (c & Hc).
    erewrite bind_returns by (by apply subprocess_run_completed).
    unfold ret, podman_teardown. cbn [self trace]. by rewrite <- app_assoc.
  - erewrite bind_returns by (by apply runtime_attr_some).
    cbv zeta. unfold bind at 1, get_self.
    destruct (Hall (trace st) (compose_argv rt (self st) ["down"; "-v"])) as (c & Hc).
    erewrite bind_returns by (by apply subprocess_run_completed).
    reflexivity.
Qed.

(** X23. The short-circuit is taken only on evidence: [_check_containers_exist]
    never raises and leaves [self] alone, and it answers [True] only when
    a runtime is known, its listing command exited with 0 and listed both
    required containers, and then the PostgreSQL and the MongoDB health
    checks, run in this order, both exited with 0. *)
Theorem check_containers_exist_sound (st st' : St ContainerOrchestrator) r :
  _check_containers_exist E st = (r, st') ->
  self st' = self st /\
  exists b,
    r = Ok b /\
    (b = true ->
     exists rt listing postgres mongo,
       runtime (self st) = Some rt /\
       run_answer E (trace st) (ps_argv (command rt)) = Completed listing /\
       returncode listing = 0 /\
       forallb (fun container =>
                  bool_decide (container ∈ split nl (strip (stdout listing))))
         required_containers = true /\
       run_answer E (trace st ++ [EvRun (ps_argv (command rt)) None])
         (postgres_health_argv (command rt)) = Completed postgres /\
       returncode postgres = 0 /\
       run_answer E (trace st ++ [EvRun (ps_argv (command rt)) None;
                                  EvRun (postgres_health_argv (command rt)) None])
         (mongo_health_argv (command rt)) = Completed mongo /\
       returncode mongo = 0).
Proof.
  intros Hrun.
  split; [exact (only_emits_self any_event _ _ _ _ check_containers_exist_frame Hrun) |].
  revert Hrun.
  unfold _check_containers_exist, _check_postgres_health, _check_mongo_health,
    runtime_attr.
  unfold try_except, bind, get_self, subprocess_run, ret, raise, is_Exception.
  cbn [self trace].
  destruct (runtime (self st)) as [rt|] eqn:Hrt; [| intros [= <- <-]; by eexists].
  destruct (run_answer E (trace st) (ps_argv (command rt))) as [listing|e] eqn:Hps;
    [| intros [= <- <-]; by eexists].
  destruct (returncode listing =? 0) eqn:Hcode; cbn [negb];
    [| intros [= <- <-]; by eexists].
  destruct (forallb _ required_containers) eqn:Hlisted;
    [| intros [= <- <-]; by eexists].
  cbn [self trace]. rewrite Hrt.
  destruct (run_answer E _ (postgres_health_argv (command rt))) as [pg|e] eqn:Hpg;
    [| intros [= <- <-]; by eexists].
  destruct (returncode pg =? 0) eqn:Hpgcode; [| intros [= <- <-]; by eexists].
  cbn [self trace]. rewrite Hrt.
  destruct (run_answer E _ (mongo_health_argv (command rt))) as [mongo|e] eqn:Hmongo;
    [| intros [= <- <-]; by eexists].
  intros [= <- <-]. eexists. split; [reflexivity |]. intros Hok.
  exists rt, listing, pg, mongo.
  rewrite <- app_assoc in Hmongo.
  repeat split; try done; lia.
Qed.

Lemma allocate_ports_busy (st : St ContainerOrchestrator) :
  window_free E "0.0.0.0" 8090 3 = false ->
  exists details st',
    _allocate_ports E st =
    (Raise (Exn RuntimeError_
              ("Unable to allocate sequential ports: Ports 8090-8092: " +:+ details)),
     st') /\
    self st' = self st /\
    contains "already in use" details = true.
Proof.
  intros Hbusy.
  destruct (busy_block_report E 8090 3 "0.0.0.0" st) as
    (r & st1 & Hcheck & Havail & Hne & _ & Hshape & Hmsg & _); [done.. |].
  specialize (Hmsg ltac:(lia)).
  destruct (check_sequential_port_block_quiet _ _ _ _ _ _ _ Hcheck) as (Hself & _).
  exists (join ", " (map busy_port_str (busy_ports r))), st1.
  split; [| split; [done | by apply first_description_in_use]].
  unfold _allocate_ports.
  set (msg := "Ports " +:+ str 8090 +:+ "-" +:+ str (8090 + 3 - 1) +:+ ": " +:+
              join ", " (map busy_port_str (busy_ports r))) in Hmsg.
  assert (Hcontains : contains "already in use" msg = true).
  { unfold msg. apply (contains_app_r _ "Ports 8090-8092: ").
    by apply first_description_in_use. }
  rewrite (try_except_caught _ _ _ st (Exn RuntimeError_ msg) st1); [| | reflexivity].
  - cbn [exn_msg]. rewrite Hcontains. reflexivity.
  - erewrite bind_returns by exact Hcheck. rewrite Havail, Hmsg. reflexivity.
Qed.

(** X22. Port allocation never relocates: [_allocate_ports] either finds
    the preferred block 8090-8092 free and records exactly app=8090,
    postgres=8091, mongo=8092, or raises [RuntimeError] "Unable to
    allocate sequential ports: Ports 8090-8092: ..." naming the busy ports
    and leaves [self] as it was.  The fallback search for another block
    is never reached. *)
Theorem allocate_ports_never_relocates (st : St ContainerOrchestrator) :
  exists r st',
    _allocate_ports E st = (r, st') /\
    ((window_free E "0.0.0.0" 8090 3 = true /\ r = Ok tt /\
      ports (self st') = [("app", 8090); ("postgres", 8091); ("mongo", 8092)] /\
      trace st' = trace st ++ map (EvBind "0.0.0.0") [8090; 8091; 8092]) \/
     (window_free E "0.0.0.0" 8090 3 = false /\ self st' = self st /\
      exists details,
        r = Raise (Exn RuntimeError_
                     ("Unable to allocate sequential ports: Ports 8090-8092: " +:+ details)) /\
        contains "already in use" details = true)).
Proof.
  destruct (window_free E "0.0.0.0" 8090 3) eqn:Hblock.
  - eexists _, _. split; [by apply allocate_ports_free |]. left. done.
  - destruct (allocate_ports_busy st Hblock) as (details & st' & Hrun & Hself & Hdetails).
    eexists _, st'. split; [exact Hrun |]. right. eauto.
Qed.

(** X24. The compose path: under a runtime other than podman,
    [_start_compose_containers] issues exactly one command,
    [<compose command> -f <compose file> up --build -d], with the process
    environment overridden by the port variables; it answers [True]
    exactly when that command exits with 0, and [False] also when the
    command cannot be run. *)
Theorem start_compose_containers_runs_up (st : St ContainerOrchestrator) rt :
  runtime (self st) = Some rt ->
  name rt <> "podman" ->
  _start_compose_containers E st =
  (Ok (match run_answer E (trace st) (compose_argv rt (self st) ["up"; "--build"; "-d"]) with
       | Completed c => returncode c =? 0
       | Failed _ => false
       end),
   {| self := self st;
      trace := trace st ++
               [EvRun (compose_argv rt (self st) ["up"; "--build"; "-d"])
                  (Some (_get_port_env_vars (self st) ∪ environ E))] |}).
Proof.
  intros Hrt Hname. apply String.eqb_neq in Hname.
  unfold _start_compose_containers.
  destruct (run_answer E (trace st) (compose_argv rt (self st) ["up"; "--build"; "-d"]))
    as [c|e] eqn:Hrun.
  - apply try_except_returns.
    erewrite bind_returns by (by apply runtime_attr_some).
    rewrite Hname. unfold bind at 1, ret at 1.
    erewrite bind_returns by (by apply runtime_attr_some).
    cbv zeta. unfold bind at 1, get_self.
    erewrite bind_returns by (by apply subprocess_run_completed).
    by destruct (returncode c =? 0).
  - erewrite try_except_caught; [reflexivity | | reflexivity].
    erewrite bind_returns by (by apply runtime_attr_some).
    rewrite Hname. unfold bind at 1, ret at 1.
    erewrite bind_returns by (by apply runtime_attr_some).
    cbv zeta. unfold bind at 1, get_self.
    apply bind_raises. by apply subprocess_run_failed.
Qed.

Lemma port_env_vars_of_mapping (o : ContainerOrchestrator) a b c :
  ports o = [("app", a); ("postgres", b); ("mongo", c)] ->
  _get_port_env_vars o =
  {[ "APP_PORT" := str a; "POSTGRES_PORT" := str b;
     "MONGO_PORT" := str c; "HTTP_SERVER_PORT" := str a ]}.
Proof.
  intros Hports. apply map_eq. intros k.
  unfold _get_port_env_vars. rewrite Hports. cbn -[upper str].
  change (upper "app" +:+ "_PORT") with "APP_PORT".
  change (upper "postgres" +:+ "_PORT") with "POSTGRES_PORT".
  change (upper "mongo" +:+ "_PORT") with "MONGO_PORT".
  rewrite !lookup_insert, lookup_empty, lookup_singleton.
  repeat case_decide; simplify_eq; done.
Qed.

(** X25. From allocated ports to variables: the mapping loop of
    [_allocate_ports], given the ports [a], [b], [c], records app, postgres
    and mongo in this order and forgets what was recorded before, and
    [_get_port_env_vars] then gives [APP_PORT] and [HTTP_SERVER_PORT] for
    [a], [POSTGRES_PORT] for [b] and [MONGO_PORT] for [c], and no other
    variable.  So after every successful [_allocate_ports] the variables
    are 8090, 8091, 8092 and 8090. *)
Theorem port_env_vars_of_allocation (st : St ContainerOrchestrator) :
  (forall a b c rest,
     exists st',
       create_port_mapping (a :: b :: c :: rest) st = (Ok tt, st') /\
       ports (self st') = [("app", a); ("postgres", b); ("mongo", c)] /\
       trace st' = trace st /\
       _get_port_env_vars (self st') =
       {[ "APP_PORT" := str a; "POSTGRES_PORT" := str b;
          "MONGO_PORT" := str c; "HTTP_SERVER_PORT" := str a ]}) /\
  (forall st',
     _allocate_ports E st = (Ok tt, st') ->
     _get_port_env_vars (self st') =
     {[ "APP_PORT" := "8090"; "POSTGRES_PORT" := "8091";
        "MONGO_PORT" := "8092"; "HTTP_SERVER_PORT" := "8090" ]}).
Proof.
  split.
  - intros a b c rest. eexists. split; [reflexivity |]. simpl.
    split; [done |]. split; [done |]. by apply port_env_vars_of_mapping.
  - intros st' Hrun. destruct (window_free E "0.0.0.0" 8090 3) eqn:Hblock.
    + rewrite (allocate_ports_free E st Hblock) in Hrun. injection Hrun as <-.
      by rewrite (port_env_vars_of_mapping _ 8090 8091 8092).
    + destruct (allocate_ports_busy st Hblock) as (? & ? & Hraise & _).
      rewrite Hraise in Hrun. discriminate.
Qed.

(** X26. What the test runner gets and gives: [run_tests] starts
    [python run_e2e_tests.py] once, reports success exactly when it exits
    with 0 and returns its standard output followed by its standard
    error; an exception of the command is not caught.  The runner's
    environment names the allocated ports, and 5432 and 27017 when none
    were allocated. *)
Theorem run_tests_reports (st : St ContainerOrchestrator) :
  let argv := ["python"; "run_e2e_tests.py"] in
  let st' := {| self := self st;
                trace := trace st ++ [EvRun argv (Some (tests_env E (self st)))] |} in
  run_tests E st =
    match run_answer E (trace st) argv with
    | Completed c => (Ok (returncode c =? 0, stdout c +:+ stderr c), st')
    | Failed e => (Raise e, st')
    end /\
  (ports (self st) = [] ->
   tests_env E (self st) !! "POSTGRES_PORT" = Some "5432" /\
   tests_env E (self st) !! "MONGO_PORT" = Some "27017") /\
  (forall a b c,
     ports (self st) = [("app", a); ("postgres", b); ("mongo", c)] ->
     tests_env E (self st) !! "POSTGRES_PORT" = Some (str b) /\
     tests_env E (self st) !! "MONGO_PORT" = Some (str c) /\
     tests_env E (self st) !! "HTTP_SERVER_PORT" = Some (str a)).
Proof.
  cbv zeta. split; [| split].
  - unfold run_tests, bind, get_self, subprocess_run, ret. cbn [self trace].
    by destruct (run_answer E (trace st) ["python"; "run_e2e_tests.py"]).
  - intros Hports. unfold tests_env, _get_port_env_vars. rewrite Hports. simpl.
    rewrite !(left_id_L ∅ (∪)). split; apply lookup_union_Some_l; reflexivity.
  - intros a b c Hports. unfold tests_env, _get_port_env_vars. rewrite Hports.
    cbn -[upper str connection_env].
    change (upper "app" +:+ "_PORT") with "APP_PORT".
    change (upper "postgres" +:+ "_PORT") with "POSTGRES_PORT".
    change (upper "mongo" +:+ "_PORT") with "MONGO_PORT".
    repeat split; apply lookup_union_Some_l; by simplify_map_eq.
Qed.

Lemma bind_frame {A B} (m : M ContainerOrchestrator A)
    (k : A -> M ContainerOrchestrator B)
    (Q : result B -> St ContainerOrchestrator -> Prop) (st : St ContainerOrchestrator) :
  only_emits any_event m ->
  (forall e st1, self st1 = self st -> Q (Raise e) st1) ->
  (forall a st1, self st1 = self st -> forall r st', k a st1 = (r, st') -> Q r st') ->
  forall r st', bind m k st = (r, st') -> Q r st'.
Proof.
  intros Hm Hraise Hk r st'. unfold bind.
  destruct (m st) as [[a|e] st1] eqn:Hrun;
    pose proof (only_emits_self _ _ _ _ _ Hm Hrun) as Hself.
  - by apply Hk.
  - intros [= <- <-]. by apply Hraise.
Qed.

Lemma grown_by_nil (o o' : ContainerOrchestrator) : o' = o -> grown_by [] o o'.
Proof. intros ->. unfold grown_by. by rewrite app_nil_r. Qed.

(** X20. A start under podman can stop half-way but never raises:
    [_start_podman_containers] answers a boolean, and all it changes in
    [self] is the list of started containers, to which it has appended
    nothing, or "test-postgres" alone (and then it answers [False]), or
    "test-postgres" and "test-mongo" (and then it answers [True]). *)
Theorem start_podman_containers_partial (st : St ContainerOrchestrator) :
  exists b st' started,
    _start_podman_containers E st = (Ok b, st') /\
    grown_by started (self st) (self st') /\
    (started = [] \/
     (started = ["test-postgres"] /\ b = false) \/
     (started = ["test-postgres"; "test-mongo"] /\ b = true)).
Proof.
  set (Q := fun (r : result bool) (st' : St ContainerOrchestrator) =>
              exists started,
                grown_by started (self st) (self st') /\
                (started = [] \/
                 (started = ["test-postgres"] /\ r <> Ok true) \/
                 (started = ["test-postgres"; "test-mongo"] /\ r = Ok true))).
  assert (Hnil : forall r st1, self st1 = self st -> Q r st1).
  { intros r st1 Hs. exists []. split; [by apply grown_by_nil | by left]. }
  unfold _start_podman_containers, try_except.
  match goal with
  | |- context [match ?m st with _ => _ end] =>
      assert (Hbody : forall r st', m st = (r, st') -> Q r st')
  end.
  { apply bind_frame; [apply check_containers_exist_frame | by auto |].
    intros exist st1 Hs1. destruct exist; [intros r st' [= <- <-]; by apply Hnil |].
    apply bind_frame; [apply cleanup_existing_containers_frame | intros; apply Hnil; congruence |].
    intros [] st2 Hs2.
    apply bind_frame; [apply ports_item_frame | intros; apply Hnil; congruence |].
    intros postgres_port st3 Hs3.
    apply bind_frame; [apply ports_item_frame | intros; apply Hnil; congruence |].
    intros mongo_port st4 Hs4.
    apply bind_frame; [apply get_self_frame | intros; apply Hnil; congruence |].
    intros o st5 Hs5.
    apply bind_frame; [apply only_emits_run; exact I | intros; apply Hnil; congruence |].
    intros pod st6 Hs6.
    destruct (_ && _); [intros r st' [= <- <-]; apply Hnil; congruence |].
    apply bind_frame; [apply only_emits_run; exact I | intros; apply Hnil; congruence |].
    intros postgres st7 Hs7.
    destruct (negb _); [intros r st' [= <- <-]; apply Hnil; congruence |].
    assert (Hst : self st7 = self st) by congruence.
    intros r st'. unfold bind at 1, modify_self. cbv iota beta.
    revert r st'.
    assert (Hone : forall r st8,
               self st8 = set_containers (fun l => l ++ ["test-postgres"]) (self st7) ->
               r <> Ok true -> Q r st8).
    { intros r st8 Hs8 Hr. exists ["test-postgres"].
      split; [| right; left; done].
      rewrite Hs8, Hst. unfold grown_by. done. }
    apply bind_frame; [apply only_emits_run; exact I | intros; by apply Hone |].
    intros mongo st8 Hs8.
    destruct (negb _); [intros r st' [= <- <-]; by apply Hone |].
    intros r st'. unfold bind, modify_self, ret. intros [= <- <-].
    exists ["test-postgres"; "test-mongo"]. split; [| right; right; done].
    cbn [self]. rewrite Hs8. cbn [self]. rewrite Hst.
    unfold grown_by. simpl. by rewrite <- app_assoc. }
  match goal with
  | |- context [match ?m st with _ => _ end] =>
      destruct (m st) as [[b|e] st']
  end.
  - destruct (Hbody _ _ eq_refl) as (started & Hgrown & Hcases).
    exists b, st', started. split; [done |]. split; [done |].
    destruct Hcases as [-> | [[-> Hb] | [-> Hb]]]; [by left | | ].
    + right; left. split; [done |]. destruct b; [by destruct Hb | done].
    + right; right. split; [done |]. by injection Hb.
  - destruct (Hbody _ _ eq_refl) as (started & Hgrown & Hcases).
    exists false, st', started. split; [done |]. split; [done |].
    destruct Hcases as [-> | [[-> Hb] | [-> Hb]]]; [by left | | discriminate].
    right; left. done.
Qed.

End ContainersMore.

(** * The further properties at work *)

Section PortsAtWork.
Import utils_ports machines.

(** X1 at work: no port requested, and three requested with 8090 taken. *)
Lemma find_sequential_ports_never_empty_witness :
  0 < 1 /\
  find_sequential_ports (bare [8090]) 8090 0 "0.0.0.0" start =
    (Raise (Exn ValueError_ "Count must be at least 1"), start) /\
  (1 <= 3 /\ len_list [8091; 8092; 8093] = 3 /\ [8091; 8092; 8093] <> []).
Proof.
  split; [lia |]. split.
  - apply (find_sequential_ports_never_empty (bare [8090]) 8090 0 "0.0.0.0" start). lia.
  - apply (proj2 (find_sequential_ports_never_empty (bare [8090]) 8090 3 "0.0.0.0" start)
             [8091; 8092; 8093]
             (snd (find_sequential_ports (bare [8090]) 8090 3 "0.0.0.0" start))).
    reflexivity.
Defined.



(** X4 at work: with 8091 taken, the search for two ports from 8090 on
    probes 8090 and 8091, then 8091, then 8092 and 8093. *)
Lemma find_sequential_ports_probes_witness :
  1 <= 2 /\
  exists p,
    8090 <= p /\ [8092; 8093] = window p 2 /\
    trace (snd (find_sequential_ports (bare [8091]) 8090 2 "0.0.0.0" start)) =
      trace start ++
      map (EvBind "0.0.0.0")
        (flat_map (fun q => probed_ports (bare [8091]) "0.0.0.0" (window q 2))
           (window 8090 (p - 8090 + 1))).
Proof.
  split; [lia |].
  destruct (find_sequential_ports_probes (bare [8091]) 8090 2 "0.0.0.0" start
              (snd (find_sequential_ports (bare [8091]) 8090 2 "0.0.0.0" start))
              [8092; 8093]) as (p & Hp & Hfound & _ & Htrace); [lia | reflexivity |].
  exists p. split; [exact Hp |]. split; [exact Hfound | exact Htrace].
Defined.

Example find_sequential_ports_probes_values :
  trace (snd (find_sequential_ports (bare [8091]) 8090 2 "0.0.0.0" start)) =
  map (EvBind "0.0.0.0") [8090; 8091; 8091; 8092; 8093].
Proof. reflexivity. Qed.

(** X5 at work: the block 8090-8092 on a machine where it is free. *)
Lemma check_available_iff_free_witness :
  (1 <= 3 /\ 0 <= 8090 /\ 8090 + 3 - 1 <= 65535) /\
  window_free (bare []) "0.0.0.0" 8090 3 = true /\
  exists r st',
    check_sequential_port_block (bare []) 8090 3 "0.0.0.0" start = (Ok r, st') /\
    block_available r = true /\ busy_ports r = [] /\ error_message r = None /\
    st' = {| self := tt; trace := map (EvBind "0.0.0.0") [8090; 8091; 8092] |}.
Proof.
  split; [lia |]. split; [reflexivity |].
  destruct (check_available_iff_free (bare []) 8090 3 "0.0.0.0" start)
    as (r & st' & Hrun & Havailable & _ & Hfree & _); [lia | lia | lia |].
  exists r, st'. split; [exact Hrun |]. split; [exact Havailable |].
  destruct (Hfree eq_refl) as (Hbusy & Hmessage & Hstate).
  split; [exact Hbusy |]. split; [exact Hmessage | exact Hstate].
Defined.

(** X6 at work: lsof shows nginx with PID 1234. *)
Lemma get_process_reads_lsof_witness :
  unix_like with_lsof = true /\
  _get_process_using_port with_lsof 8090 start =
  (Ok ("process " +:+ "nginx" +:+ " (PID " +:+ "1234" +:+ ")"),
   {| self := tt; trace := [EvRun (lsof_argv 8090) None] |}).
Proof.
  split; [reflexivity |].
  apply (get_process_reads_lsof with_lsof 8090 start
           {| returncode := 0;
              stdout := "COMMAND PID USER FD TYPE DEVICE SIZE/OFF NODE NAME" +:+ nl +:+
                        "nginx 1234 root 6u IPv4 31337 0t0 TCP *:8090 (LISTEN)" +:+ nl;
              stderr := "" |}
           "nginx 1234 root 6u IPv4 31337 0t0 TCP *:8090 (LISTEN)"
           "nginx" "1234"
           ["root"; "6u"; "IPv4"; "31337"; "0t0"; "TCP"; "*:8090"; "(LISTEN)"]);
    reflexivity.
Defined.

(** X7 at work: an unknown platform, and Linux without any of the tools. *)
Lemma get_process_falls_back_witness :
  (unix_like bsd = false /\ startswith "win" (platform bsd) = false /\
   _get_process_using_port bsd 8090 start = (Ok "unknown process", start)) /\
  (unix_like (bare [8090]) = true /\ no_tool_runs (bare [8090]) /\
   _get_process_using_port (bare [8090]) 8090 start =
   (Ok "unknown process",
    {| self := tt;
       trace := [EvRun (lsof_argv 8090) None;
                 EvRun ["netstat"; "-tulpn"] None;
                 EvRun ["ss"; "-tulpn"] None] |})).
Proof.
  assert (Hnone : no_tool_runs (bare [8090])).
  { intros history argv. eexists. split; reflexivity. }
  split.
  - split; [reflexivity |]. split; [reflexivity |].
    apply (get_process_falls_back bsd 8090 start); reflexivity.
  - split; [reflexivity |]. split; [exact Hnone |].
    apply (get_process_falls_back (bare [8090]) 8090 start); [reflexivity | exact Hnone].
Defined.

(** X8 at work: running lsof is not permitted. *)
Lemma get_process_stops_on_unexpected_error_witness :
  unix_like denied = true /\
  is_timeout_or_missing (Exn PermissionError_ "Permission denied") = false /\
  _get_process_using_port denied 8090 start =
  (Ok "unknown process",
   {| self := tt; trace := [EvRun (lsof_argv 8090) None] |}).
Proof.
  split; [reflexivity |]. split; [reflexivity |].
  apply (get_process_stops_on_unexpected_error denied 8090 start
           (Exn PermissionError_ "Permission denied")); reflexivity.
Defined.

End PortsAtWork.

Section RegistryAtWork.
Import port_manager registry_examples.

Lemma two_services_reachable : reachable (eq 4000) two_services.
Proof.
  unfold two_services. do 2 apply reach_assign.
  apply reach_first; [left; reflexivity | reflexivity].
Qed.

(** X9 at work: in the registry holding postgres and mongo, the service
    with the port of postgres is postgres. *)
Lemma assigned_ports_distinct_witness :
  reachable (eq 4000) two_services /\
  forall s e,
    assigned_ports (manager two_services) !! s = Some e ->
    a_port e = 4000 -> "postgres" = s.
Proof.
  split; [exact two_services_reachable |].
  intros s e Hs Hport.
  apply (assigned_ports_distinct (eq 4000) two_services "postgres" s
           {| a_port := 4000; a_purpose := "PostgreSQL Database";
              assigned_at := "2025-01-01T00:00:00" |} e);
    [exact two_services_reachable | reflexivity | exact Hs | symmetry; exact Hport].
Defined.

(** X10 at work: the registry holding postgres and mongo. *)
Lemma registry_in_sync_witness :
  reachable (eq 4000) two_services /\ in_sync two_services.
Proof.
  split; [exact two_services_reachable |].
  apply (registry_in_sync (eq 4000) two_services). exact two_services_reachable.
Defined.

(** X11 at work: assigning "app" leaves the answer for "mongo" alone. *)
Lemma get_port_after_assign_and_release_witness :
  "mongo" <> "app" /\
  get_port "mongo" (fst (assign_port "2025-01-01T00:00:02" "app" "http" two_services)) =
  get_port "mongo" two_services.
Proof.
  split; [discriminate |].
  destruct (get_port_after_assign_and_release "2025-01-01T00:00:02" "app" "http" two_services)
    as (_ & Hothers & _).
  apply Hothers. discriminate.
Defined.

(** X12 at work: postgres and mongo on a registry that starts at 4000. *)
Lemma fresh_assignments_consecutive_witness :
  "postgres" <> "mongo" /\
  snd (assign_port "2025-01-01T00:00:00" "postgres" "PostgreSQL Database" fresh_4000) = 4000 /\
  get_next_port two_services = 4000 + 2 /\
  saves two_services = 2%nat /\
  get_port "postgres" two_services = Some 4000 /\
  get_port "mongo" two_services = Some (4000 + 1).
Proof.
  split; [discriminate |].
  destruct (fresh_assignments_consecutive
              "2025-01-01T00:00:00" "2025-01-01T00:00:01" "postgres" "mongo"
              "PostgreSQL Database" "MongoDB Database" fresh_4000)
    as (Hfirst & _ & Hcursor & Hsaves & Hpostgres & Hmongo);
    [discriminate | reflexivity | reflexivity |].
  split; [exact Hfirst |]. split; [exact Hcursor |]. split; [exact Hsaves |].
  split; [exact Hpostgres | exact Hmongo].
Defined.

(** X14 at work: postgres, released and assigned again, moves from 4000 to
    4002. *)
Lemma released_port_not_reused_witness :
  reachable (eq 4000) two_services /\
  snd (assign_port "2025-01-01T00:00:03" "postgres" "PostgreSQL Database"
         (fst (release_port "postgres" two_services))) = 4002 /\
  4000 < snd (assign_port "2025-01-01T00:00:03" "postgres" "PostgreSQL Database"
                (fst (release_port "postgres" two_services))).
Proof.
  split; [exact two_services_reachable |].
  destruct (released_port_not_reused (eq 4000) "2025-01-01T00:00:03" "postgres"
              "PostgreSQL Database" two_services
              {| a_port := 4000; a_purpose := "PostgreSQL Database";
                 assigned_at := "2025-01-01T00:00:00" |})
    as (Hagain & Habove & _); [exact two_services_reachable | reflexivity |].
  split; [exact Hagain | exact Habove].
Defined.

End RegistryAtWork.

Section OrchestratorAtWork.
Import utils_ports container_orchestrator machines.

Lemma nothing_installed busy : Forall (unavailable (bare busy)) runtimes.
Proof.
  unfold runtimes. repeat apply Forall_cons_2; try apply Forall_nil_2;
    intros history; left; eexists; split; reflexivity.
Qed.

Lemma docker_only_failures : failures_are_missing docker_only.
Proof.
  intros history argv e. cbn [run_answer docker_only]. unfold docker_answer.
  destruct argv as [| program [| flag [| more argv]]];
    try (intros [= <-]; reflexivity).
  destruct (String.eqb program "docker"); [discriminate | intros [= <-]; reflexivity].
Qed.

Lemma compliant_completes : commands_complete compliant.
Proof. intros history argv. eexists. reflexivity. Qed.

(** X16 at work: a machine without any engine. *)
Lemma detect_runtime_none_installed_witness :
  Forall (unavailable (bare [])) runtimes /\
  fst (detect_runtime (bare []) idle) = Raise no_runtime /\
  self (snd (detect_runtime (bare []) idle)) = new.
Proof.
  split; [apply nothing_installed |].
  rewrite (detect_runtime_none_installed (bare []) idle (nothing_installed [])).
  split; reflexivity.
Defined.

(** X17 at work: a machine with docker only; podman, listed first, is
    missing. *)
Lemma detect_runtime_first_available_witness :
  failures_are_missing docker_only /\
  exists r st',
    detect_runtime docker_only idle = (Ok r, st') /\
    name r = "docker" /\ command r = "docker" /\
    runtime_available r = true /\
    self st' = set_runtime r new.
Proof.
  split; [exact docker_only_failures |].
  apply (detect_runtime_first_available docker_only
           [ {| name := "podman"; command := "podman"; compose_command := "podman-compose";
                runtime_available := false; version := "" |} ]
           {| name := "docker"; command := "docker"; compose_command := "docker-compose";
              runtime_available := false; version := "" |}
           [ {| name := "nerdctl"; command := "nerdctl"; compose_command := "nerdctl compose";
                runtime_available := false; version := "" |};
             {| name := "buildah"; command := "buildah"; compose_command := "buildah-compose";
                runtime_available := false; version := "" |} ]
           idle).
  - reflexivity.
  - apply Forall_cons_2; [| apply Forall_nil_2].
    intros history. left. eexists. split; reflexivity.
  - intros history. eexists. split; reflexivity.
  - exact docker_only_failures.
Defined.

(** X18 at work: docker without the separate docker-compose program gets
    the built-in compose command. *)
Lemma docker_compose_command_witness :
  failures_are_missing docker_only /\
  exists r st',
    _check_runtime_available docker_only
      {| name := "docker"; command := "docker"; compose_command := "docker-compose";
         runtime_available := false; version := "" |} idle = (Ok (true, r), st') /\
    version r = "Docker version 24.0.7, build afdd53b" /\
    runtime_available r = true /\
    compose_command r = "docker compose".
Proof.
  split; [exact docker_only_failures |].
  apply (docker_compose_command docker_only
           {| name := "docker"; command := "docker"; compose_command := "docker-compose";
              runtime_available := false; version := "" |}
           idle
           {| returncode := 0;
              stdout := "Docker version 24.0.7, build afdd53b" +:+ nl;
              stderr := "" |});
    [reflexivity | exact docker_only_failures | reflexivity | reflexivity].
Defined.

(** X19 at work: a new orchestrator on a machine without any engine. *)
Lemma start_containers_raises_only_undetected_witness :
  runtime (self idle) = None /\
  Forall (unavailable (bare [])) runtimes /\
  exists st', start_containers (bare []) idle = (Raise no_runtime, st') /\ self st' = new.
Proof.
  split; [reflexivity |]. split; [apply nothing_installed |].
  apply (start_containers_raises_only_undetected (bare []) idle);
    [reflexivity | apply nothing_installed].
Defined.

(** X21 at work: the clean-up after a start under podman. *)
Lemma cleanup_commands_witness :
  commands_complete compliant /\
  cleanup compliant started =
  (Ok tt,
   {| self := self started;
      trace := [EvRun ["podman"; "stop"; "test-postgres"] None;
                EvRun ["podman"; "rm"; "test-postgres"] None;
                EvRun ["podman"; "stop"; "test-mongo"] None;
                EvRun ["podman"; "rm"; "test-mongo"] None;
                EvRun ["podman"; "pod"; "rm"; "test-env"] None] |}).
Proof.
  split; [exact compliant_completes |].
  apply (proj2 (cleanup_commands compliant started) podman_runtime);
    [exact compliant_completes | reflexivity].
Defined.

(** X23 at work: the containers are up and healthy. *)
Lemma check_containers_exist_sound_witness :
  fst (_check_containers_exist (healthy []) started) = Ok true /\
  self (snd (_check_containers_exist (healthy []) started)) = self started.
Proof.
  split; [reflexivity |].
  apply (check_containers_exist_sound (healthy []) started
           (snd (_check_containers_exist (healthy []) started)) (Ok true)).
  reflexivity.
Defined.

(** X24 at work: the start under docker. *)
Lemma start_compose_containers_runs_up_witness :
  name docker_runtime <> "podman" /\
  _start_compose_containers compliant docker_session =
  (Ok true,
   {| self := self docker_session;
      trace := [EvRun ["docker"; "compose"; "-f"; "docker-compose.test.yml";
                       "up"; "--build"; "-d"]
                  (Some (_get_port_env_vars (self docker_session) ∪ environ compliant))] |}).
Proof.
  split; [discriminate |].
  apply (start_compose_containers_runs_up compliant docker_session docker_runtime);
    [reflexivity | discriminate].
Defined.

(** X25 at work: the variables after the allocation on a machine where
    the preferred block is free. *)
Lemma port_env_vars_of_allocation_witness :
  fst (_allocate_ports (bare []) idle) = Ok tt /\
  _get_port_env_vars (self (snd (_allocate_ports (bare []) idle))) =
  {[ "APP_PORT" := "8090"; "POSTGRES_PORT" := "8091";
     "MONGO_PORT" := "8092"; "HTTP_SERVER_PORT" := "8090" ]}.
Proof.
  split; [reflexivity |].
  apply (proj2 (port_env_vars_of_allocation (bare []) idle)). reflexivity.
Defined.

(** X26 at work: the runner's environment before and after the ports were
    allocated. *)
Lemma run_tests_reports_witness :
  (ports (self idle) = [] /\
   tests_env compliant (self idle) !! "POSTGRES_PORT" = Some "5432" /\
   tests_env compliant (self idle) !! "MONGO_PORT" = Some "27017") /\
  (ports (self started) = [("app", 8090); ("postgres", 8091); ("mongo", 8092)] /\
   tests_env compliant (self started) !! "POSTGRES_PORT" = Some (str 8091) /\
   tests_env compliant (self started) !! "MONGO_PORT" = Some (str 8092) /\
   tests_env compliant (self started) !! "HTTP_SERVER_PORT" = Some (str 8090)).
Proof.
  split.
  - split; [reflexivity |].
    destruct (run_tests_reports compliant idle) as (_ & Hnone & _).
    apply Hnone. reflexivity.
  - split; [reflexivity |].
    destruct (run_tests_reports compliant started) as (_ & _ & Hports).
    apply Hports. reflexivity.
Defined.

End OrchestratorAtWork.
